(** * annofab-har-sanitizer: a shallow embedding of [ahs/annofab_har_sanitizer.py]

    The sanitizer walks a parsed HAR document (the tree [json.loads] returns)
    and overwrites a fixed set of sensitive fields.  The embedding has three
    layers:

    - [PyObj]: the Python objects the code touches (the JSON tree, plus the
      [bytes] objects that [urllib] hands back for non-[str] arguments) with
      the dynamic operations the source uses on them: [x[k]], [x[k] = v],
      [k in x], [for y in x], each raising what CPython raises;
    - [Urllib]: the four [urllib.parse] functions that [mask_query_string]
      calls, following CPython 3.11's [Lib/urllib/parse.py];
    - the sanitizer itself, one definition per source function, in an error
      monad, with the in-place mutations written as explicit write-backs.

    A Python [str] is represented by the [string] of its UTF-8 bytes; a
    surrogate code point, which [json.loads] builds from an escape such as
    [\ud800] and which has no UTF-8 encoding, by its three-byte form. *)

From Stdlib Require Import String Ascii List ZArith Bool Arith Lia.
From Stdlib Require Import Floats.SpecFloat.
Import ListNotations.
Open Scope string_scope.
Open Scope bool_scope.
Set Warnings "-register-all".

(** ** Exceptions and the error monad *)

Inductive exn : Set :=
| KeyError
| TypeError
| AttributeError
| ValueError
| UnicodeDecodeError
| UnicodeEncodeError.

Inductive result (A : Type) : Type :=
| Ok (a : A)
| Raise (e : exn).

Arguments Ok {A} a.
Arguments Raise {A} e.

Definition bind {A B : Type} (c : result A) (k : A -> result B) : result B :=
  match c with
  | Ok a => k a
  | Raise e => Raise e
  end.

Notation "x <- c ;; k" := (bind c (fun x => k))
  (at level 61, c at next level, right associativity).

Definition is_ok {A : Type} (c : result A) : bool :=
  match c with Ok _ => true | Raise _ => false end.

(** [for x in xs: x' = body(x)], stopping at the first exception. *)
Fixpoint mapM {A B : Type} (f : A -> result B) (l : list A) : result (list B) :=
  match l with
  | [] => Ok []
  | x :: xs => y <- f x ;; ys <- mapM f xs ;; Ok (y :: ys)
  end.

(** ** Python objects *)

Module PyObj.

(** What [json.loads] builds, and [VBytes] for the byte strings that
    [urllib.parse] returns when it is given something that is not a [str].
    A [dict] keeps its insertion order, as CPython's does. *)
Inductive value : Type :=
| VNone
| VBool (b : bool)
| VInt (z : Z)
| VFloat (f : spec_float)
| VStr (s : string)
| VBytes (b : string)
| VList (l : list value)
| VDict (d : list (string * value)).

Definition dict := list (string * value).

Fixpoint dict_get (k : string) (d : dict) : option value :=
  match d with
  | [] => None
  | (k', v) :: d' => if String.eqb k k' then Some v else dict_get k d'
  end.

(** [d[k] = v]: an existing key keeps its place, a new key goes last. *)
Fixpoint dict_set (k : string) (v : value) (d : dict) : dict :=
  match d with
  | [] => [(k, v)]
  | (k', v') :: d' =>
      if String.eqb k k' then (k', v) :: d' else (k', v') :: dict_set k v d'
  end.

Definition dict_has (k : string) (d : dict) : bool :=
  match dict_get k d with Some _ => true | None => false end.

(** [bool(x)] *)
Definition truthy (x : value) : bool :=
  match x with
  | VNone => false
  | VBool b => b
  | VInt z => negb (Z.eqb z 0)
  | VFloat (S754_zero _) => false
  | VFloat _ => true
  | VStr s => negb (String.eqb s "")
  | VBytes b => negb (String.eqb b "")
  | VList l => match l with [] => false | _ => true end
  | VDict d => match d with [] => false | _ => true end
  end.

(** [x[k]] for a [str] key [k]. *)
Definition py_getitem (x : value) (k : string) : result value :=
  match x with
  | VDict d => match dict_get k d with Some v => Ok v | None => Raise KeyError end
  | _ => Raise TypeError
  end.

(** [x[k] = v] for a [str] key [k]; the mutated object is returned. *)
Definition py_setitem (x : value) (k : string) (v : value) : result value :=
  match x with
  | VDict d => Ok (VDict (dict_set k v d))
  | _ => Raise TypeError
  end.

(** [x == s] for a [str] literal [s]: only an equal [str] is equal. *)
Definition py_eq_str (x : value) (s : string) : bool :=
  match x with
  | VStr s' => String.eqb s' s
  | _ => false
  end.

Fixpoint is_substring (needle s : string) : bool :=
  String.prefix needle s ||
  match s with
  | EmptyString => false
  | String _ s' => is_substring needle s'
  end.

(** [k in x] for a [str] literal [k]: key membership in a dict, element
    membership in a list, substring test in a str. *)
Definition py_contains (k : string) (x : value) : result bool :=
  match x with
  | VDict d => Ok (dict_has k d)
  | VList l => Ok (existsb (fun y => py_eq_str y k) l)
  | VStr s => Ok (is_substring k s)
  | _ => Raise TypeError
  end.

(** [x in S] for a set [S] of [str]: [x] is hashed first. *)
Definition py_in_str_set (x : value) (S : list string) : result bool :=
  match x with
  | VList _ | VDict _ => Raise TypeError
  | VStr s => Ok (existsb (String.eqb s) S)
  | _ => Ok false
  end.

Definition is_utf8_continuation (c : ascii) : bool :=
  (128 <=? nat_of_ascii c)%nat && (nat_of_ascii c <=? 191)%nat.

(** The characters of a str: each lead byte with its continuation bytes. *)
Fixpoint utf8_chars (s : string) : list string :=
  match s with
  | EmptyString => []
  | String c s' =>
      let continued :=
        match s' with
        | String c' _ => is_utf8_continuation c'
        | EmptyString => false
        end in
      match utf8_chars s' with
      | x :: xs =>
          if continued then String c x :: xs
          else String c EmptyString :: x :: xs
      | [] => [String c EmptyString]
      end
  end.

Fixpoint bytes_items (b : string) : list value :=
  match b with
  | EmptyString => []
  | String c b' => VInt (Z.of_nat (nat_of_ascii c)) :: bytes_items b'
  end.

(** [iter(x)]: the objects a [for] loop over [x] visits. *)
Definition py_iter (x : value) : result (list value) :=
  match x with
  | VList l => Ok l
  | VDict d => Ok (map (fun kv => VStr (fst kv)) d)
  | VStr s => Ok (map VStr (utf8_chars s))
  | VBytes b => Ok (bytes_items b)
  | _ => Raise TypeError
  end.

(** [for y in x: body(y)] where [body] mutates [y] in place.  The elements of
    a list are the list's own objects, so the list ends up holding the mutated
    elements; what a dict, str or bytes yields are temporaries. *)
Definition for_each (body : value -> result value) (x : value) : result value :=
  match x with
  | VList l => l' <- mapM body l ;; Ok (VList l')
  | _ => ys <- py_iter x ;; _ <- mapM body ys ;; Ok x
  end.

End PyObj.
Export PyObj.

(** ** [urllib.parse]

    The functions [mask_query_string] calls, after CPython 3.11's
    [Lib/urllib/parse.py], for [str] arguments.  Two checks of [urlsplit]
    depend on tables that are not modelled ([ipaddress] for a bracketed host,
    [unicodedata] for a non-ASCII network location); they are taken as the
    fields of [host_checks], and every result below holds whatever they
    answer. *)

Module Urllib.

Record host_checks : Type := {
  (** [_check_bracketed_netloc(netloc)] returns without raising *)
  bracketed_netloc_ok : string -> bool;
  (** [_checknetloc(netloc)] returns without raising, for a non-ASCII netloc *)
  nfkc_netloc_ok : string -> bool
}.

Record ParseResult : Type := {
  scheme : string;
  netloc : string;
  path : string;
  params : string;
  query : string;
  fragment : string
}.

Definition code (c : ascii) : nat := nat_of_ascii c.

Definition ch (n : nat) : string := String (ascii_of_nat n) EmptyString.

Fixpoint str_forallb (p : ascii -> bool) (s : string) : bool :=
  match s with
  | EmptyString => true
  | String c s' => p c && str_forallb p s'
  end.

Fixpoint str_existsb (p : ascii -> bool) (s : string) : bool :=
  match s with
  | EmptyString => false
  | String c s' => p c || str_existsb p s'
  end.

Fixpoint str_filter (p : ascii -> bool) (s : string) : string :=
  match s with
  | EmptyString => EmptyString
  | String c s' => if p c then String c (str_filter p s') else str_filter p s'
  end.

Fixpoint str_map (f : ascii -> ascii) (s : string) : string :=
  match s with
  | EmptyString => EmptyString
  | String c s' => String (f c) (str_map f s')
  end.

Definition str_contains (c : ascii) (s : string) : bool :=
  str_existsb (Ascii.eqb c) s.

Definition is_empty (s : string) : bool :=
  match s with EmptyString => true | _ => false end.

(** [s.split(c, 1)] when [c] occurs in [s]: the text before the first [c]
    and the text after it. *)
Fixpoint split_once (c : ascii) (s : string) : option (string * string) :=
  match s with
  | EmptyString => None
  | String a s' =>
      if Ascii.eqb a c then Some (EmptyString, s')
      else match split_once c s' with
           | Some (l, r) => Some (String a l, r)
           | None => None
           end
  end.

(** [s.split(c)] *)
Fixpoint split_all (c : ascii) (s : string) : list string :=
  match s with
  | EmptyString => [EmptyString]
  | String a s' =>
      match split_all c s' with
      | x :: xs => if Ascii.eqb a c then EmptyString :: x :: xs else String a x :: xs
      | [] => [String a EmptyString]
      end
  end.

(** The longest prefix of [s] whose characters satisfy [p], and the rest. *)
Fixpoint span (p : ascii -> bool) (s : string) : string * string :=
  match s with
  | EmptyString => (EmptyString, EmptyString)
  | String a s' =>
      if p a then let (l, r) := span p s' in (String a l, r)
      else (EmptyString, s)
  end.

(** [(s[:i+1], s[i+1:])] for the last index [i] of [c] in [s], and
    [("", s)] when [c] does not occur. *)
Fixpoint rsplit_after (c : ascii) (s : string) : string * string :=
  match s with
  | EmptyString => (EmptyString, EmptyString)
  | String a s' =>
      let (l, r) := rsplit_after c s' in
      if str_contains c s' then (String a l, r)
      else if Ascii.eqb a c then (String a EmptyString, s')
      else (EmptyString, s)
  end.

Fixpoint join (sep : string) (l : list string) : string :=
  match l with
  | [] => EmptyString
  | [x] => x
  | x :: xs => x ++ sep ++ join sep xs
  end.

Definition is_ascii (c : ascii) : bool := (code c <? 128)%nat.

Definition is_upper (c : ascii) : bool := (65 <=? code c)%nat && (code c <=? 90)%nat.
Definition is_lower (c : ascii) : bool := (97 <=? code c)%nat && (code c <=? 122)%nat.
Definition is_digit (c : ascii) : bool := (48 <=? code c)%nat && (code c <=? 57)%nat.
Definition is_alpha (c : ascii) : bool := is_upper c || is_lower c.

Definition lower (c : ascii) : ascii :=
  if is_upper c then ascii_of_nat (code c + 32) else c.

(** [scheme_chars] *)
Definition is_scheme_char (c : ascii) : bool :=
  is_alpha c || is_digit c || str_contains c "+-.".

(** [_WHATWG_C0_CONTROL_OR_SPACE]: the characters 0x00 to 0x20. *)
Definition is_c0_or_space (c : ascii) : bool := (code c <=? 32)%nat.

Fixpoint lstrip (p : ascii -> bool) (s : string) : string :=
  match s with
  | EmptyString => EmptyString
  | String a s' => if p a then lstrip p s' else s
  end.

(** [_UNSAFE_URL_BYTES_TO_REMOVE]: tab, carriage return, line feed. *)
Definition is_unsafe_url_byte (c : ascii) : bool :=
  (code c =? 9)%nat || (code c =? 13)%nat || (code c =? 10)%nat.

Definition uses_netloc : list string :=
  [""; "ftp"; "http"; "gopher"; "nntp"; "telnet"; "imap"; "wais"; "file";
   "mms"; "https"; "shttp"; "snews"; "prospero"; "rtsp"; "rtspu"; "rsync";
   "svn"; "svn+ssh"; "sftp"; "nfs"; "git"; "git+ssh"; "ws"; "wss"].

Definition uses_params : list string :=
  [""; "ftp"; "hdl"; "prospero"; "http"; "imap"; "https"; "shttp"; "rtsp";
   "rtspu"; "sip"; "sips"; "mms"; "sftp"; "tel"].

Definition str_in (s : string) (l : list string) : bool :=
  existsb (String.eqb s) l.

(** [_splitnetloc(url, 2)] applied to a [url] that starts with [//]. *)
Definition splitnetloc (rest : string) : string * string :=
  span (fun c => negb (str_contains c "/?#")) rest.

Definition drop2 (s : string) : string :=
  match s with
  | String _ (String _ s') => s'
  | _ => EmptyString
  end.

(** The scheme test of [urlsplit]: the text before the first [:] is the
    scheme when it starts with an ASCII letter and holds scheme characters
    only; it is lower-cased.  The result is (scheme, rest of the URL). *)
Definition split_scheme (url : string) : string * string :=
  match split_once ":" url with
  | Some (String a pre, post) =>
      if is_ascii a && is_alpha a && str_forallb is_scheme_char (String a pre)
      then (str_map lower (String a pre), post)
      else (EmptyString, url)
  | _ => (EmptyString, url)
  end.

(** [url, rest = url.split(c, 1)] under [if c in url]. *)
Definition split_at (c : ascii) (url : string) : string * string :=
  match split_once c url with
  | Some (l, r) => (l, r)
  | None => (url, EmptyString)
  end.

Section WithHostChecks.

Variable hc : host_checks.

(** The network location, when the URL (after its scheme) starts with
    [//], with the checks on brackets.  The result is (netloc, rest). *)
Definition split_netloc (url : string) : result (string * string) :=
  if String.prefix "//" url then
    let (netloc, rest) := splitnetloc (drop2 url) in
    let lb := str_contains "[" netloc in
    let rb := str_contains "]" netloc in
    if xorb lb rb then Raise ValueError
    else if lb && rb && negb (bracketed_netloc_ok hc netloc)
         then Raise ValueError
         else Ok (netloc, rest)
  else Ok (EmptyString, url).

(** [_checknetloc(netloc)] raises. *)
Definition netloc_rejected (netloc : string) : bool :=
  negb (is_empty netloc) && negb (str_forallb is_ascii netloc)
  && negb (nfkc_netloc_ok hc netloc).

(** [urlsplit(url)]; the result is (scheme, netloc, path, query, fragment). *)
Definition urlsplit (url : string)
  : result (string * string * string * string * string) :=
  let url := lstrip is_c0_or_space url in
  let url := str_filter (fun c => negb (is_unsafe_url_byte c)) url in
  let '(scheme, url) := split_scheme url in
  nu <- split_netloc url ;;
  let '(netloc, url) := nu in
  let '(url, fragment) := split_at "#" url in
  let '(url, query) := split_at "?" url in
  if netloc_rejected netloc then Raise ValueError
  else Ok (scheme, netloc, url, query, fragment).

(** [_splitparams(url)], called when [';' in url]. *)
Definition splitparams (url : string) : string * string :=
  let (dir, last) := rsplit_after "/" url in
  match split_once ";" last with
  | Some (l, r) => (dir ++ l, r)
  | None => (url, EmptyString)
  end.

(** The path and the parameters of [urlparse]:
    [if scheme in uses_params and ';' in url: url, params = _splitparams(url)
     else: params = ''] *)
Definition split_params (scheme url : string) : string * string :=
  if str_in scheme uses_params && str_contains ";" url
  then splitparams url
  else (url, EmptyString).

Definition urlparse (url : string) : result ParseResult :=
  sr <- urlsplit url ;;
  let '(scheme, netloc, url, query, fragment) := sr in
  let '(url, params) := split_params scheme url in
  Ok {| scheme := scheme; netloc := netloc; path := url; params := params;
        query := query; fragment := fragment |}.

End WithHostChecks.

Definition urlunsplit (scheme netloc url query fragment : string) : string :=
  let url :=
    if negb (is_empty netloc)
       || (negb (is_empty scheme) && str_in scheme uses_netloc
           && negb (String.prefix "//" url))
    then
      let url :=
        if negb (is_empty url) && negb (String.prefix "/" url)
        then "/" ++ url else url in
      "//" ++ netloc ++ url
    else url in
  let url := if negb (is_empty scheme) then scheme ++ ":" ++ url else url in
  let url := if negb (is_empty query) then url ++ "?" ++ query else url in
  if negb (is_empty fragment) then url ++ "#" ++ fragment else url.

(** [if params: url = "%s;%s" % (url, params)] *)
Definition join_params (url params : string) : string :=
  if negb (is_empty params) then url ++ ";" ++ params else url.

Definition urlunparse (scheme netloc url params query fragment : string)
  : string :=
  urlunsplit scheme netloc (join_params url params) query fragment.

(** *** Percent-decoding *)

Definition in_range (lo hi : nat) (c : ascii) : bool :=
  (lo <=? code c)%nat && (code c <=? hi)%nat.

Definition hexval (c : ascii) : option nat :=
  if is_digit c then Some (code c - 48)
  else if in_range 65 70 c then Some (code c - 55)
  else if in_range 97 102 c then Some (code c - 87)
  else None.

(** [unquote_to_bytes]: [%XX] with two hex digits becomes the byte, any
    other [%] stays. *)
Fixpoint unquote_to_bytes (s : string) : string :=
  match s with
  | EmptyString => EmptyString
  | String a t =>
      match t with
      | String h1 (String h2 t') =>
          match Ascii.eqb a "%", hexval h1, hexval h2 with
          | true, Some x, Some y =>
              String (ascii_of_nat (16 * x + y)) (unquote_to_bytes t')
          | _, _, _ => String a (unquote_to_bytes t)
          end
      | _ => String a (unquote_to_bytes t)
      end
  end.

(** U+FFFD in UTF-8 *)
Definition replacement : string := ch 239 ++ ch 191 ++ ch 189.

(** Length of the UTF-8 sequence a lead byte announces; 0 for a byte that
    cannot start one. *)
Definition utf8_len (lead : ascii) : nat :=
  if is_ascii lead then 1
  else if in_range 194 223 lead then 2
  else if in_range 224 239 lead then 3
  else if in_range 240 244 lead then 4
  else 0.

(** The second byte of a well-formed sequence, by its lead byte. *)
Definition utf8_second_ok (lead c : ascii) : bool :=
  if (code lead =? 224)%nat then in_range 160 191 c
  else if (code lead =? 237)%nat then in_range 128 159 c
  else if (code lead =? 240)%nat then in_range 144 191 c
  else if (code lead =? 244)%nat then in_range 128 143 c
  else in_range 128 191 c.

Definition utf8_cont (c : ascii) : bool := in_range 128 191 c.

(** [bytes.decode('utf-8', 'replace')], written on the UTF-8 bytes of the
    result: a well-formed sequence is kept, and each maximal ill-formed
    part becomes U+FFFD. *)
Fixpoint decode_utf8_replace (s : string) : string :=
  match s with
  | EmptyString => EmptyString
  | String a t =>
      match utf8_len a with
      | 1 => String a (decode_utf8_replace t)
      | 2 =>
          match t with
          | String b t1 =>
              if utf8_cont b then String a (String b (decode_utf8_replace t1))
              else replacement ++ decode_utf8_replace t
          | EmptyString => replacement
          end
      | 3 =>
          match t with
          | String b t1 =>
              if utf8_second_ok a b then
                match t1 with
                | String c t2 =>
                    if utf8_cont c
                    then String a (String b (String c (decode_utf8_replace t2)))
                    else replacement ++ decode_utf8_replace t1
                | EmptyString => replacement
                end
              else replacement ++ decode_utf8_replace t
          | EmptyString => replacement
          end
      | 4 =>
          match t with
          | String b t1 =>
              if utf8_second_ok a b then
                match t1 with
                | String c t2 =>
                    if utf8_cont c then
                      match t2 with
                      | String d t3 =>
                          if utf8_cont d
                          then String a (String b (String c (String d
                                 (decode_utf8_replace t3))))
                          else replacement ++ decode_utf8_replace t2
                      | EmptyString => replacement
                      end
                    else replacement ++ decode_utf8_replace t1
                | EmptyString => replacement
                end
              else replacement ++ decode_utf8_replace t
          | EmptyString => replacement
          end
      | _ => replacement ++ decode_utf8_replace t
      end
  end.

(** The loop of [unquote] over [_asciire.split(string)]: each maximal run of
    ASCII characters ([run], collected so far) is percent-decoded and decoded
    as UTF-8, the characters between the runs are kept. *)
Fixpoint unquote_runs (run s : string) : string :=
  match s with
  | EmptyString => decode_utf8_replace (unquote_to_bytes run)
  | String a t =>
      if is_ascii a then unquote_runs (run ++ String a EmptyString) t
      else decode_utf8_replace (unquote_to_bytes run)
           ++ String a (unquote_runs EmptyString t)
  end.

Definition unquote (s : string) : string :=
  if negb (str_contains "%" s) then s else unquote_runs EmptyString s.

(** *** Query strings *)

Definition plus_to_space (s : string) : string :=
  str_map (fun c => if Ascii.eqb c "+" then " "%char else c) s.

(** The body of [parse_qsl]'s loop for one [name_value] field. *)
Definition parse_field (name_value : string) : list (string * string) :=
  if is_empty name_value then []
  else match split_once "=" name_value with
       | None => []
       | Some (n, v) =>
           if is_empty v then []
           else [(unquote (plus_to_space n), unquote (plus_to_space v))]
       end.

(** [parse_qsl(qs)] with its defaults: [keep_blank_values=False],
    [strict_parsing=False], separator [&]. *)
Definition parse_qsl (qs : string) : list (string * string) :=
  if is_empty qs then [] else flat_map parse_field (split_all "&" qs).

(** The dict [parse_qs] builds: parameter name to its values, names in the
    order of their first occurrence. *)
Definition qdict := list (string * list string).

Fixpoint qd_get (k : string) (d : qdict) : option (list string) :=
  match d with
  | [] => None
  | (k', vs) :: d' => if String.eqb k k' then Some vs else qd_get k d'
  end.

Fixpoint qd_set (k : string) (vs : list string) (d : qdict) : qdict :=
  match d with
  | [] => [(k, vs)]
  | (k', vs') :: d' =>
      if String.eqb k k' then (k', vs) :: d' else (k', vs') :: qd_set k vs d'
  end.

(** [if name in parsed_result: parsed_result[name].append(value)
     else: parsed_result[name] = [value]] *)
Definition qd_add (d : qdict) (nv : string * string) : qdict :=
  let (name, value) := nv in
  match qd_get name d with
  | Some vs => qd_set name (vs ++ [value])%list d
  | None => qd_set name [value] d
  end.

Definition parse_qs (qs : string) : qdict :=
  fold_left qd_add (parse_qsl qs) [].

(** *** Percent-encoding *)

(** A surrogate code point (U+D800 to U+DFFF) in a [str]: in the
    representation of a [str] by bytes it is the byte ED followed by a byte
    from A0 to BF. *)
Fixpoint has_surrogate (s : string) : bool :=
  match s with
  | EmptyString => false
  | String a t =>
      match t with
      | String b _ => (code a =? 237)%nat && in_range 160 191 b
      | EmptyString => false
      end
      || has_surrogate t
  end.

(** [string.encode('utf-8', 'strict')]: a surrogate has no encoding. *)
Definition encode_utf8 (s : string) : result string :=
  if has_surrogate s then Raise UnicodeEncodeError else Ok s.

(** [_ALWAYS_SAFE] *)
Definition is_always_safe (c : ascii) : bool :=
  is_alpha c || is_digit c || str_contains c "_.-~".

Definition hexdigit (n : nat) : ascii :=
  if (n <? 10)%nat then ascii_of_nat (48 + n) else ascii_of_nat (55 + n).

(** One byte under [quote_plus]: a space becomes [+], a safe byte stays,
    any other byte becomes [%XX]. *)
Definition quote_plus_byte (c : ascii) : string :=
  if Ascii.eqb c " " then "+"
  else if is_always_safe c then String c EmptyString
  else String "%" (String (hexdigit (code c / 16))
                     (String (hexdigit (code c mod 16)) EmptyString)).

(** The encoded bytes quoted one by one: [quote_from_bytes] with the space
    safe, and each space then written [+]. *)
Fixpoint quote_bytes (s : string) : string :=
  match s with
  | EmptyString => EmptyString
  | String c s' => quote_plus_byte c ++ quote_bytes s'
  end.

(** [quote_plus(string)] for a [str]: the text is encoded, strictly, and
    its bytes are quoted. *)
Definition quote_plus (s : string) : result string :=
  bs <- encode_utf8 s ;; Ok (quote_bytes bs).

(** The body of [urlencode]'s loop for one item of the dict, whose value is
    a list:
    [k = quote_via(k)
     for elt in v: elt = quote_via(elt); l.append(k + '=' + elt)] *)
Definition urlencode_item (kv : string * list string)
  : result (list string) :=
  k <- quote_plus (fst kv) ;;
  mapM (fun elt => elt <- quote_plus elt ;; Ok (k ++ "=" ++ elt)) (snd kv).

(** [urlencode(query, doseq=True)] for the dict of [parse_qs]. *)
Definition urlencode (d : qdict) : result string :=
  l <- mapM urlencode_item d ;; Ok (join "&" (concat l)).

(** The [(k, elt)] pairs [urlencode(query, doseq=True)] visits. *)
Definition qd_pairs (d : qdict) : list (string * string) :=
  flat_map (fun kvs => map (fun v => (fst kvs, v)) (snd kvs)) d.

(** [k + '=' + elt] for a pair whose name and value were encoded. *)
Definition encode_pair (kv : string * string) : string :=
  quote_bytes (fst kv) ++ "=" ++ quote_bytes (snd kv).

(** The text [urlencode] returns, when it returns. *)
Definition urlencode_text (d : qdict) : string :=
  join "&" (map encode_pair (qd_pairs d)).

(** A name or a value of the dict holds a surrogate: [urlencode] raises. *)
Definition qd_has_surrogate (d : qdict) : bool :=
  existsb (fun kvs => has_surrogate (fst kvs)
                      || existsb has_surrogate (snd kvs)) d.

End Urllib.

(** ** The sanitizer *)

Export Urllib.

Definition STR_REDACTED : string := "REDACTED".

(** The source's [SENSITIVE_KEYS] is a set; the loops over it change one
    parameter each, so the order chosen here is immaterial. *)
Definition SENSITIVE_KEYS : list string :=
  ["X-Amz-Credential"; "X-Amz-Signature"; "X-Amz-Security-Token"].

(** Lines 32-34 of [mask_query_string]:
    [for key in masked_keys:
       if key in query_params:
         query_params[key] = [STR_REDACTED] * len(query_params[key])] *)
Definition mask_key (query_params : qdict) (key : string) : qdict :=
  match qd_get key query_params with
  | Some vs => qd_set key (repeat STR_REDACTED (length vs)) query_params
  | None => query_params
  end.

Definition mask_params (masked_keys : list string) (query_params : qdict)
  : qdict :=
  fold_left mask_key masked_keys query_params.

Section Sanitizer.

Variable hc : host_checks.

(** [mask_query_string] on a [str]. *)
Definition mask_url (url : string) (masked_keys : list string)
  : result string :=
  parsed_url <- urlparse hc url ;;
  let query_params := parse_qs (query parsed_url) in
  let query_params := mask_params masked_keys query_params in
  masked_query <- urlencode query_params ;;
  Ok (urlunparse (scheme parsed_url) (netloc parsed_url) (path parsed_url)
        (params parsed_url) masked_query (fragment parsed_url)).

(** [mask_query_string] on a non-empty [bytes]: [urlparse] decodes it as
    ASCII and returns bytes components, [parse_qs] returns bytes names and
    values (encoded as ASCII), no [str] key is among them, and [urlunparse]
    refuses the [str] query [urlencode] built unless that query is empty. *)
Definition mask_url_bytes (url : string) : result string :=
  if negb (str_forallb is_ascii url) then Raise UnicodeDecodeError
  else
    parsed_url <- urlparse hc url ;;
    let pairs := parse_qsl (query parsed_url) in
    if negb (forallb (fun nv => str_forallb is_ascii (fst nv)
                                && str_forallb is_ascii (snd nv)) pairs)
    then Raise UnicodeEncodeError
    else match pairs with
         | _ :: _ => Raise TypeError
         | [] =>
             Ok (urlunparse (scheme parsed_url) (netloc parsed_url)
                   (path parsed_url) (params parsed_url) EmptyString
                   (fragment parsed_url))
         end.

(** [mask_query_string(url, masked_keys)] on whatever object the document
    holds under [url].  [urllib] coerces an argument that is not a [str]:
    a false one ([None], [0], [[]], ...) is read as empty bytes and comes
    back as [b''], a true one must have [decode]. *)
Definition mask_query_string (url : value) (masked_keys : list string)
  : result value :=
  match url with
  | VStr u => u' <- mask_url u masked_keys ;; Ok (VStr u')
  | VBytes b =>
      if is_empty b then Ok (VBytes EmptyString)
      else b' <- mask_url_bytes b ;; Ok (VBytes b')
  | _ => if truthy url then Raise AttributeError else Ok (VBytes EmptyString)
  end.

Definition sanitize_response (response : value) : result value :=
  content <- py_getitem response "content" ;;
  content <- py_setitem content "text" (VStr STR_REDACTED) ;;
  response <- py_setitem response "content" content ;;
  py_setitem response "cookies" (VList []).

Definition sanitize_initiator (initiator : value) : result value :=
  has_url <- py_contains "url" initiator ;;
  if has_url then
    url <- py_getitem initiator "url" ;;
    url <- mask_query_string url SENSITIVE_KEYS ;;
    py_setitem initiator "url" url
  else Ok initiator.

(** Body of [for header in headers] (lines 69-71). *)
Definition sanitize_header (header : value) : result value :=
  name <- py_getitem header "name" ;;
  if py_eq_str name "Authorization"
  then py_setitem header "value" (VStr STR_REDACTED)
  else Ok header.

(** Body of [for qs in query_string_list] (lines 74-76). *)
Definition sanitize_qs (qs : value) : result value :=
  name <- py_getitem qs "name" ;;
  sensitive <- py_in_str_set name SENSITIVE_KEYS ;;
  if sensitive
  then py_setitem qs "value" (VStr STR_REDACTED)
  else Ok qs.

Definition sanitize_request (request : value) : result value :=
  has_post_data <- py_contains "postData" request ;;
  request <-
    (if has_post_data then
       post_data <- py_getitem request "postData" ;;
       post_data <- py_setitem post_data "text" (VStr STR_REDACTED) ;;
       py_setitem request "postData" post_data
     else Ok request) ;;
  request <- py_setitem request "cookies" (VList []) ;;
  headers <- py_getitem request "headers" ;;
  headers <- for_each sanitize_header headers ;;
  request <- py_setitem request "headers" headers ;;
  query_string_list <- py_getitem request "queryString" ;;
  query_string_list <- for_each sanitize_qs query_string_list ;;
  request <- py_setitem request "queryString" query_string_list ;;
  url <- py_getitem request "url" ;;
  url <- mask_query_string url SENSITIVE_KEYS ;;
  py_setitem request "url" url.

(** Body of [for entry in data["log"]["entries"]] (lines 85-88). *)
Definition sanitize_entry (entry : value) : result value :=
  has_initiator <- py_contains "_initiator" entry ;;
  entry <-
    (if negb has_initiator then
       initiator <- py_getitem entry "_initiator" ;;
       initiator <- sanitize_initiator initiator ;;
       py_setitem entry "_initiator" initiator
     else Ok entry) ;;
  request <- py_getitem entry "request" ;;
  request <- sanitize_request request ;;
  entry <- py_setitem entry "request" request ;;
  response <- py_getitem entry "response" ;;
  response <- sanitize_response response ;;
  py_setitem entry "response" response.

Definition sanitize_har_object (data : value) : result value :=
  log <- py_getitem data "log" ;;
  entries <- py_getitem log "entries" ;;
  entries <- for_each sanitize_entry entries ;;
  log <- py_setitem log "entries" entries ;;
  py_setitem data "log" log.

End Sanitizer.

(** ** Reading a document

    Accessors for stating properties; they raise nothing and are not part of
    the sanitizer. *)

Definition get (k : string) (x : value) : option value :=
  match x with
  | VDict d => dict_get k d
  | _ => None
  end.

Definition get2 (k1 k2 : string) (x : value) : option value :=
  match get k1 x with
  | Some y => get k2 y
  | None => None
  end.

Definition get3 (k1 k2 k3 : string) (x : value) : option value :=
  match get2 k1 k2 x with
  | Some y => get k3 y
  | None => None
  end.

(** The elements of a list, and nothing for any other object. *)
Definition items (x : value) : list value :=
  match x with
  | VList l => l
  | _ => []
  end.

(** A dict without the keys [ks]; any other object as it is. *)
Definition without (ks : list string) (x : value) : value :=
  match x with
  | VDict d => VDict (filter (fun kv => negb (str_in (fst kv) ks)) d)
  | _ => x
  end.

Definition keys (x : value) : list string :=
  match x with
  | VDict d => map fst d
  | _ => []
  end.

(** The request after [request["postData"]["text"] = STR_REDACTED], when
    there is a [postData]. *)
Definition post_data_redacted (d dp : dict) : Prop :=
  match dict_get "postData" d with
  | None => dp = d
  | Some p =>
      exists pd, p = VDict pd /\
        dp = dict_set "postData"
               (VDict (dict_set "text" (VStr STR_REDACTED) pd)) d
  end.

(** ** Stating the claims *)

(** What the loop of lines 69-71 does to one header. *)
Definition header_redacted (h h' : value) : Prop :=
  exists d, h = VDict d /\
    (dict_get "name" d = Some (VStr "Authorization") ->
     h' = VDict (dict_set "value" (VStr "REDACTED") d)) /\
    (dict_get "name" d <> Some (VStr "Authorization") -> h' = h).

(** [x'] is [x] but for the keys [ks]: the other keys have the same values
    in the same order, and every key of [x] is where it was (the keys of
    [x'] are those of [x], then possibly new ones). *)
Definition untouched (ks : list string) (x x' : value) : Prop :=
  without ks x' = without ks x /\
  exists new, keys x' = (keys x ++ new)%list.

(** If [x] has the key [k], [x'] has it too, with a value related by [R]. *)
Definition field (k : string) (R : value -> value -> Prop) (x x' : value)
  : Prop :=
  forall v, get k x = Some v -> exists v', get k x' = Some v' /\ R v v'.

(** A list keeps its length and order, its elements related by [R]; any
    other object is as it was. *)
Definition elementwise (R : value -> value -> Prop) (x x' : value) : Prop :=
  match x with
  | VList l => exists l', x' = VList l' /\ Forall2 R l l'
  | _ => x' = x
  end.

Definition request_frame (r r' : value) : Prop :=
  untouched ["postData"; "cookies"; "headers"; "queryString"; "url"] r r' /\
  field "postData" (untouched ["text"]) r r' /\
  field "headers" (elementwise (untouched ["value"])) r r' /\
  field "queryString" (elementwise (untouched ["value"])) r r'.

Definition response_frame (r r' : value) : Prop :=
  untouched ["content"; "cookies"] r r' /\
  field "content" (untouched ["text"]) r r'.

Definition entry_frame (e e' : value) : Prop :=
  untouched ["request"; "response"] e e' /\
  field "request" request_frame e e' /\
  field "response" response_frame e e'.

Definition log_frame (l l' : value) : Prop :=
  untouched ["entries"] l l' /\
  field "entries" (elementwise entry_frame) l l'.

Definition har_frame (data data' : value) : Prop :=
  untouched ["log"] data data' /\ field "log" log_frame data data'.

(** [x] has no key [k] (an object that is not a dict has no key at all). *)
Definition lacks (k : string) (x : value) : bool :=
  match get k x with Some _ => false | None => true end.

(** The entry misses [request] or [response], its request misses [headers]
    or [queryString], or its response misses [content]. *)
Definition entry_lacks_required (e : value) : bool :=
  lacks "request" e || lacks "response" e
  || match get "request" e with
     | Some r => lacks "headers" r || lacks "queryString" r
     | None => false
     end
  || match get "response" e with
     | Some r => lacks "content" r
     | None => false
     end.

(** [log.entries] is absent, or one of the entries misses a required key. *)
Definition document_lacks_required (data : value) : bool :=
  match get "log" data with
  | None => true
  | Some log =>
      match get "entries" log with
      | None => true
      | Some es => existsb entry_lacks_required (items es)
      end
  end.

(** The entry has a [request] without [url]. *)
Definition entry_lacks_url (e : value) : bool :=
  match get "request" e with
  | Some r => lacks "url" r
  | None => false
  end.

Definition is_dict (x : value) : bool :=
  match x with VDict _ => true | _ => false end.

Definition is_str (x : value) : bool :=
  match x with VStr _ => true | _ => false end.

Definition list_of (p : value -> bool) (x : value) : bool :=
  match x with VList l => forallb p l | _ => false end.

(** The field [k], when present, satisfies [p]. *)
Definition opt (k : string) (p : value -> bool) (x : value) : bool :=
  match get k x with Some v => p v | None => true end.

(** The types section 3 of the specification gives to the fields the
    sanitizer reads, for the fields that are present: mappings are dicts,
    sequences are lists, a query-string entry's name is a [str], a request's
    [url] is a [str] for which [mask_query_string] returns a URL. *)
Section Shape.

Variable hc : host_checks.

Definition url_shaped (u : value) : bool :=
  match u with
  | VStr s => is_ok (mask_url hc s SENSITIVE_KEYS)
  | _ => false
  end.

Definition query_entry_shaped (q : value) : bool :=
  is_dict q && opt "name" is_str q.

Definition request_shaped (r : value) : bool :=
  is_dict r && opt "postData" is_dict r
  && opt "headers" (list_of is_dict) r
  && opt "queryString" (list_of query_entry_shaped) r
  && opt "url" url_shaped r.

Definition response_shaped (r : value) : bool :=
  is_dict r && opt "content" is_dict r.

Definition entry_shaped (e : value) : bool :=
  is_dict e && opt "request" request_shaped e
  && opt "response" response_shaped e.

Definition log_shaped (l : value) : bool :=
  is_dict l && opt "entries" (list_of entry_shaped) l.

Definition document_shaped (data : value) : bool :=
  is_dict data && opt "log" log_shaped data.

End Shape.

(** The "missing-optional-field scenario" of the specification: one entry
    with every key the redaction rules read, and neither [postData] nor
    [_initiator]. *)
Definition entry_without_optional : value :=
  VDict [("request",
          VDict [("url", VStr "https://svc/path?X-Amz-Credential=abc");
                 ("headers",
                  VList [VDict [("name", VStr "Authorization");
                                ("value", VStr "Bearer xyz")]]);
                 ("cookies", VList []);
                 ("queryString",
                  VList [VDict [("name", VStr "X-Amz-Credential");
                                ("value", VStr "abc")]])]);
         ("response",
          VDict [("content", VDict [("text", VStr "secret body")]);
                 ("cookies", VList [])])].

Definition document_of (entries : list value) : value :=
  VDict [("log", VDict [("entries", VList entries)])].

(** The request URL of entry [e] is a fixed point of [mask_query_string]. *)
Definition url_stable (hc : host_checks) (e : value) : Prop :=
  exists u, get2 "request" "url" e = Some u /\
            mask_query_string hc u SENSITIVE_KEYS = Ok u.

(** Host checks that accept every host.  The hosts of the examples below
    are ASCII and have no brackets, so [urlsplit] consults neither check on
    them. *)
Definition no_host_checks : host_checks :=
  {| bracketed_netloc_ok := fun _ => true; nfkc_netloc_ok := fun _ => true |}.

(** An entry with every field the redaction rules mention. *)
Definition full_entry (url : string) : value :=
  VDict [("startedDateTime", VStr "2024-05-01T00:00:00.000Z");
         ("_initiator",
          VDict [("type", VStr "script");
                 ("url", VStr "https://cdn/app.js?X-Amz-Signature=s3cr3t")]);
         ("request",
          VDict [("method", VStr "POST");
                 ("url", VStr url);
                 ("headers",
                  VList [VDict [("name", VStr "Authorization");
                                ("value", VStr "Bearer xyz")];
                         VDict [("name", VStr "authorization");
                                ("value", VStr "Bearer abc")];
                         VDict [("name", VStr "Accept");
                                ("value", VStr "*/*")]]);
                 ("cookies",
                  VList [VDict [("name", VStr "sid"); ("value", VStr "1")]]);
                 ("queryString",
                  VList [VDict [("name", VStr "X-Amz-Credential");
                                ("value", VStr "abc")];
                         VDict [("name", VStr "foo"); ("value", VStr "bar")]]);
                 ("postData", VDict [("mimeType", VStr "text/plain");
                                     ("text", VStr "password=hunter2")])]);
         ("response",
          VDict [("status", VInt 200);
                 ("content", VDict [("size", VInt 11);
                                    ("text", VStr "secret body")]);
                 ("cookies",
                  VList [VDict [("name", VStr "sid"); ("value", VStr "2")]])]);
         ("time", VInt 12)].

Definition sample_document : value :=
  document_of [full_entry "https://svc/path?X-Amz-Credential=abc&foo=bar"].

Definition sample_sanitized : value :=
  Eval vm_compute in
    match sanitize_har_object no_host_checks sample_document with
    | Ok data' => data'
    | Raise _ => VNone
    end.

(** A document whose one request URL is [////]: an empty network location
    and the path [//]. *)
Definition slashes_document : value := document_of [full_entry "////"].

(** The request URLs of a document, entry by entry. *)
Definition request_urls (data : value) : list (option value) :=
  match get2 "log" "entries" data with
  | Some es => map (get2 "request" "url") (items es)
  | None => []
  end.

Definition slashes_once : value :=
  Eval vm_compute in
    match sanitize_har_object no_host_checks slashes_document with
    | Ok data' => data'
    | Raise _ => VNone
    end.

Definition slashes_twice : value :=
  Eval vm_compute in
    match sanitize_har_object no_host_checks slashes_once with
    | Ok data' => data'
    | Raise _ => VNone
    end.

(** The "schema-error scenario": the second entry has no [response]. *)
Definition document_without_response : value :=
  document_of
    [full_entry "https://svc/a";
     VDict [("_initiator", VDict []);
            ("request",
             VDict [("url", VStr "https://svc/b"); ("headers", VList []);
                    ("queryString", VList [])])]].

(** The second entry's request has no [url]. *)
Definition document_without_url : value :=
  document_of
    [full_entry "https://svc/a";
     VDict [("_initiator", VDict []);
            ("request",
             VDict [("headers", VList []); ("queryString", VList [])]);
            ("response", VDict [("content", VDict [])])]].

Definition sample_request : value :=
  VDict [("url", VStr "https://svc/path?foo=&bar=1");
         ("headers",
          VList [VDict [("name", VStr "Authorization");
                        ("value", VStr "Bearer xyz"); ("comment", VStr "c")];
                 VDict [("name", VStr "authorization");
                        ("value", VStr "Bearer abc")]]);
         ("queryString", VList [])].

(** What the loop of lines 74-76 does to one query-string entry. *)
Definition query_entry_redacted (q q' : value) : Prop :=
  exists d n, q = VDict d /\ dict_get "name" d = Some n /\
    ((exists s, n = VStr s /\ In s SENSITIVE_KEYS) ->
     q' = VDict (dict_set "value" (VStr "REDACTED") d)) /\
    (~ (exists s, n = VStr s /\ In s SENSITIVE_KEYS) -> q' = q).

(** ** Fixed points of the URL masking *)

(** The characters [quote_bytes] writes. *)
Definition is_quoted_char (c : ascii) : bool :=
  is_always_safe c || Ascii.eqb c "+" || Ascii.eqb c "%".

(** A text that UTF-8 decoding leaves as it is. *)
Definition decoded (s : string) : Prop := decode_utf8_replace s = s.

(** A parameter as [parse_qsl] yields it. *)
Definition parsed_pair (nv : string * string) : Prop :=
  decoded (fst nv) /\ decoded (snd nv) /\ snd nv <> "".

(** A dict as [parse_qs] builds it. *)
Definition parsed_dict (d : qdict) : Prop :=
  Forall (fun kvs => decoded (fst kvs) /\ snd kvs <> [] /\
                     Forall (fun v => decoded v /\ v <> "") (snd kvs)) d.

Definition is_url_safe (c : ascii) : bool := negb (is_unsafe_url_byte c).

Definition is_netloc_char (c : ascii) : bool := negb (str_contains c "/?#").

(** A scheme as [split_scheme] returns it. *)
Definition scheme_wf (sch : string) : Prop :=
  sch = "" \/
  exists a pre, sch = String a pre /\ is_ascii a = true /\ is_alpha a = true /\
                str_forallb is_scheme_char sch = true /\
                str_map lower sch = sch.

(** The text is empty or starts with a character that fails [p]. *)
Definition stops (p : ascii -> bool) (s : string) : Prop :=
  match s with
  | EmptyString => True
  | String c _ => p c = false
  end.

(** The scheme and the separator [urlunsplit] writes before the rest. *)
Definition scheme_prefix (sch : string) : string :=
  if negb (is_empty sch) then sch ++ ":" else "".

(** The brackets of [netloc] pass the checks of [split_netloc]. *)
Definition brackets_accepted (hc : host_checks) (netloc : string) : Prop :=
  xorb (str_contains "[" netloc) (str_contains "]" netloc) = false /\
  str_contains "[" netloc && str_contains "]" netloc
  && negb (bracketed_netloc_ok hc netloc) = false.

(** The text [urlunsplit] writes for a component after its separator. *)
Definition suffix (c : ascii) (s : string) : string :=
  if negb (is_empty s) then String c s else "".

(** What [urlparse] and [urlunparse] make of a path: the path itself, or
    the path without a final [;] that announced no parameters. *)
Definition rejoin_params (sch u : string) : string :=
  join_params (fst (split_params sch u)) (snd (split_params sch u)).

(** A path is empty or starts with a slash. *)
Definition rooted (s : string) : Prop :=
  match s with
  | EmptyString => True
  | String c _ => c = "/"%char
  end.

Definition preprocessed (url : string) : string :=
  str_filter is_url_safe (lstrip is_c0_or_space url).

(** The characters of an encoded query. *)
Definition is_query_char (c : ascii) : bool :=
  is_quoted_char c || Ascii.eqb c "=" || Ascii.eqb c "&".

(** The request URL of entry [e] is an ASCII [str] that [urlparse] accepts
    and reads a network location in. *)
Definition url_with_host (hc : host_checks) (e : value) : Prop :=
  exists url p,
    get2 "request" "url" e = Some (VStr url) /\
    str_forallb is_ascii url = true /\
    urlparse hc url = Ok p /\ netloc p <> "".

(** ** Stating further properties *)

(** [x] has the key [k]. *)
Definition has (k : string) (x : value) : bool := negb (lacks k x).

(** Every element of the list [x] has the key [k]. *)
Definition all_have (k : string) (x : value) : bool :=
  forallb (has k) (items x).

(** The keys [sanitize_request] reads without a test: [headers],
    [queryString] and [url] of the request, [name] of every header and of
    every query-string entry. *)
Definition request_complete (r : value) : bool :=
  has "headers" r && has "queryString" r && has "url" r
  && opt "headers" (all_have "name") r
  && opt "queryString" (all_have "name") r.

(** The keys the loop body of [sanitize_har_object] reads without a test,
    [_initiator] among them (line 86 reads it when line 85 found it
    absent). *)
Definition entry_complete (e : value) : bool :=
  has "_initiator" e && has "request" e && has "response" e
  && opt "request" request_complete e
  && opt "response" (has "content") e.

Definition document_complete (data : value) : bool :=
  match get2 "log" "entries" data with
  | Some es => forallb entry_complete (items es)
  | None => false
  end.

(** The key [cookies], when [x] has none. *)
Definition cookies_if_absent (x : value) : list string :=
  if lacks "cookies" x then ["cookies"] else [].

(** The object is one [json.loads] can build and [json.dumps] can write: it
    holds no [bytes]. *)
Fixpoint is_json (x : value) : bool :=
  match x with
  | VBytes _ => false
  | VList l => forallb is_json l
  | VDict d => forallb (fun kv => is_json (snd kv)) d
  | _ => true
  end.

(** The request URL of entry [e] is a [str]. *)
Definition url_is_str (e : value) : Prop :=
  exists s, get2 "request" "url" e = Some (VStr s).

(** The names of a list, each at its first occurrence. *)
Fixpoint first_names (l : list string) : list string :=
  match l with
  | [] => []
  | k :: l' => k :: filter (fun k' => negb (String.eqb k' k)) (first_names l')
  end.

(** The pairs of [l] whose name is [k], in their order. *)
Definition pairs_of (k : string) (l : list (string * string))
  : list (string * string) :=
  filter (fun nv => String.eqb (fst nv) k) l.

(** The pairs of [l] grouped by name: the names in the order of their first
    occurrence, the pairs of one name in their order. *)
Definition regroup (l : list (string * string)) : list (string * string) :=
  flat_map (fun k => pairs_of k l) (first_names (map fst l)).

(** A pair with its value replaced by the marker when its name is masked. *)
Definition redact (keys : list string) (nv : string * string)
  : string * string :=
  if str_in (fst nv) keys then (fst nv, STR_REDACTED) else nv.

Definition values_of (k : string) (l : list (string * string)) : list string :=
  map snd (pairs_of k l).

Definition extend (g : option (list string)) (vs : list string)
  : option (list string) :=
  match vs with
  | [] => g
  | _ => Some (match g with Some ws => ws ++ vs | None => vs end)%list
  end.

Definition mask_entry (keys : list string) (kvs : string * list string)
  : string * list string :=
  if str_in (fst kvs) keys
  then (fst kvs, repeat STR_REDACTED (length (snd kvs)))
  else kvs.

(** ** The command line *)

(** What [main] uses of its environment.  [World] is the state of the file
    system and of standard output, [Path] is [pathlib.Path], [Err] the
    exceptions of the environment ([OSError], [json.JSONDecodeError],
    ...).  Reading a file and the two [json] functions leave the world as
    it is; [mkdir], [write_text] and [print] return the world they leave,
    and the exception they raise, if any. *)
Record Env (Path World Err : Type) : Type := {
  (** [path.read_text()] *)
  read_text : Path -> World -> string + Err;
  (** [json.loads(text)] *)
  json_loads : string -> value + Err;
  (** [json.dumps(data, ensure_ascii=False)] *)
  json_dumps : value -> string + Err;
  (** [path.parent] *)
  parent : Path -> Path;
  (** [path.mkdir(exist_ok=True, parents=True)] *)
  mkdir : Path -> World -> World * option Err;
  (** [path.write_text(text)] *)
  write_text : Path -> string -> World -> World * option Err;
  (** [print(text)] *)
  print : string -> World -> World * option Err
}.

Arguments read_text {Path World Err}.
Arguments json_loads {Path World Err}.
Arguments json_dumps {Path World Err}.
Arguments parent {Path World Err}.
Arguments mkdir {Path World Err}.
Arguments write_text {Path World Err}.
Arguments print {Path World Err}.

(** The namespace [parse_args] returns for the parser of [create_parser]:
    the positional [har_file] and the optional [-o/--output]. *)
Record Args (Path : Type) : Type := {
  har_file : Path;
  output : option Path
}.

Arguments har_file {Path}.
Arguments output {Path}.

(** How [main] ends when it does not return: with an exception of the
    sanitizer or with one of the environment. *)
Inductive failure (Err : Type) : Type :=
| Sanitizer (e : exn)
| Environment (e : Err).

Arguments Sanitizer {Err} e.
Arguments Environment {Err} e.

Section Main.

Context {Path World Err : Type}.
Variable hc : host_checks.
Variable env : Env Path World Err.

(** Lines 99-104: the text goes to the output file, whose directory is
    created first, or to standard output. *)
Definition deliver (args : Args Path) (output_string : string) (w : World)
  : World * option (failure Err) :=
  match output args with
  | Some output_file =>
      match mkdir env (parent env output_file) w with
      | (w, Some e) => (w, Some (Environment e))
      | (w, None) =>
          let (w, r) := write_text env output_file output_string w in
          (w, option_map Environment r)
      end
  | None =>
      let (w, r) := print env output_string w in
      (w, option_map Environment r)
  end.

(** [main] after [parse_args]: the world it leaves and the exception it
    ends with, if any. *)
Definition main (args : Args Path) (w : World)
  : World * option (failure Err) :=
  match read_text env (har_file args) w with
  | inr e => (w, Some (Environment e))
  | inl text =>
      match json_loads env text with
      | inr e => (w, Some (Environment e))
      | inl input_data =>
          match sanitize_har_object hc input_data with
          | Raise e => (w, Some (Sanitizer e))
          | Ok output_data =>
              match json_dumps env output_data with
              | inr e => (w, Some (Environment e))
              | inl output_string => deliver args output_string w
              end
          end
      end
  end.

End Main.

(** An entry whose request and response have no [cookies]. *)
Definition entry_without_cookies : value :=
  VDict [("_initiator", VDict []);
         ("request", sample_request);
         ("response", VDict [("content", VDict [("text", VStr "body")])])].

Definition entry_with_cookies : value :=
  Eval vm_compute in
    match sanitize_entry no_host_checks entry_without_cookies with
    | Ok e' => e'
    | Raise _ => VNone
    end.

Definition sample_response : value :=
  VDict [("status", VInt 200);
         ("content", VDict [("mimeType", VStr "text/plain")])].

Definition sample_initiator : value :=
  VDict [("type", VStr "script");
         ("url", VStr "https://cdn/app.js?X-Amz-Signature=s3cr3t&v=2");
         ("lineNumber", VInt 12)].

Definition sample_url : string :=
  "https://svc/path;v=1?X-Amz-Credential=abc&foo=a%20b#top".

(** A document whose one request has [null] for its [url]. *)
Definition null_url_document : value :=
  document_of
    [VDict [("_initiator", VDict []);
            ("request",
             VDict [("url", VNone); ("headers", VList []);
                    ("queryString", VList [])]);
            ("response", VDict [("content", VDict [])])]].

Definition null_url_sanitized : value :=
  Eval vm_compute in
    match sanitize_har_object no_host_checks null_url_document with
    | Ok data' => data'
    | Raise _ => VNone
    end.

(** U+D800, a surrogate, as [json.loads] builds it from the escape
    [\ud800]. *)
Definition lone_surrogate : string := ch 237 ++ ch 160 ++ ch 128.

(** A document with every key the sanitizer reads, whose request URL holds
    a surrogate in the value of a parameter that is not masked. *)
Definition surrogate_url_document : value :=
  document_of [full_entry ("https://h/?a=" ++ lone_surrogate)].

(** The second entry has no [_initiator]. *)
Definition document_without_initiator : value :=
  document_of
    [full_entry "https://svc/a?X-Amz-Signature=abc"; entry_without_optional].

(** An environment for the examples: one input file, parsed to the document
    above; the world is the text printed so far. *)
Definition sample_env : Env string (list string) unit :=
  {| read_text := fun p _ =>
       if String.eqb p "in.har" then inl "(text of in.har)" else inr tt;
     json_loads := fun _ => inl document_without_initiator;
     json_dumps := fun _ => inl "(text of the result)";
     parent := fun p => p;
     mkdir := fun _ w => (w, None);
     write_text := fun _ _ w => (w, None);
     print := fun s w => ((w ++ [s])%list, None) |}.

(** The last byte of the text is ED. *)
Fixpoint ends_with_ed (s : string) : bool :=
  match s with
  | EmptyString => false
  | String a t =>
      match t with
      | EmptyString => (code a =? 237)%nat
      | String _ _ => ends_with_ed t
      end
  end.

(** A name or a value of the pair holds a surrogate. *)
Definition pair_has_surrogate (nv : string * string) : bool :=
  has_surrogate (fst nv) || has_surrogate (snd nv).

(** ** Dictionaries *)

Lemma dict_get_set_eq (k : string) (v : value) (d : dict) :
  dict_get k (dict_set k v d) = Some v.
Proof.
  induction d as [|[k' v'] d IH]; simpl.
  - now rewrite String.eqb_refl.
  - destruct (String.eqb k k') eqn:E; simpl; rewrite E; auto.
Qed.

Lemma dict_get_set_ne (k k' : string) (v : value) (d : dict) :
  String.eqb k' k = false ->
  dict_get k' (dict_set k v d) = dict_get k' d.
Proof.
  intros Hne. induction d as [|[k0 v0] d IH]; simpl.
  - now rewrite Hne.
  - destruct (String.eqb k k0) eqn:E; simpl.
    + apply String.eqb_eq in E. subst k0. now rewrite Hne.
    + now rewrite IH.
Qed.

Lemma dict_set_same (k : string) (v : value) (d : dict) :
  dict_get k d = Some v -> dict_set k v d = d.
Proof.
  induction d as [|[k0 v0] d IH]; simpl; [discriminate|].
  destruct (String.eqb k k0) eqn:E; intros H.
  - now inversion H.
  - now rewrite IH.
Qed.

Lemma dict_set_twice (k : string) (v w : value) (d : dict) :
  dict_set k w (dict_set k v d) = dict_set k w d.
Proof.
  induction d as [|[k0 v0] d IH]; simpl.
  - now rewrite String.eqb_refl.
  - destruct (String.eqb k k0) eqn:E; simpl; rewrite E; [reflexivity|].
    now rewrite IH.
Qed.

Lemma dict_set_swap (k k' : string) (v w : value) (d : dict) :
  String.eqb k k' = false -> dict_has k d = true -> dict_has k' d = true ->
  dict_set k v (dict_set k' w d) = dict_set k' w (dict_set k v d).
Proof.
  unfold dict_has. intros Hne.
  assert (Hne' : String.eqb k' k = false) by now rewrite String.eqb_sym.
  induction d as [|[k0 v0] d IH]; simpl; [discriminate|].
  destruct (String.eqb k k0) eqn:E, (String.eqb k' k0) eqn:E'; simpl;
    rewrite ?E, ?E'; simpl; try reflexivity.
  - apply String.eqb_eq in E, E'. subst. now rewrite String.eqb_refl in Hne.
  - intros H1 H2. now rewrite IH.
Qed.

Lemma dict_has_set (k k' : string) (v : value) (d : dict) :
  dict_has k' (dict_set k v d) = String.eqb k' k || dict_has k' d.
Proof.
  unfold dict_has. destruct (String.eqb k' k) eqn:E; simpl.
  - apply String.eqb_eq in E. subst. now rewrite dict_get_set_eq.
  - now rewrite dict_get_set_ne.
Qed.

(** Writing a key changes nothing of the other keys, nor their order. *)
Lemma filter_dict_set (ks : list string) (k : string) (v : value) (d : dict) :
  str_in k ks = true ->
  filter (fun kv => negb (str_in (fst kv) ks)) (dict_set k v d)
  = filter (fun kv => negb (str_in (fst kv) ks)) d.
Proof.
  intros Hin. induction d as [|[k0 v0] d IH]; simpl.
  - now rewrite Hin.
  - destruct (String.eqb k k0) eqn:E; simpl.
    + apply String.eqb_eq in E. subst k0. now rewrite Hin.
    + now rewrite IH.
Qed.

(** The keys of a dict keep their places; a new key goes last. *)
Lemma keys_dict_set (k : string) (v : value) (d : dict) :
  map fst (dict_set k v d)
  = (map fst d ++ (if dict_has k d then [] else [k]))%list.
Proof.
  unfold dict_has. induction d as [|[k0 v0] d IH]; simpl; [reflexivity|].
  destruct (String.eqb k k0) eqn:E; simpl.
  - now rewrite app_nil_r.
  - now rewrite IH.
Qed.

(** ** The error monad *)

Lemma bind_ok {A B : Type} (c : result A) (k : A -> result B) (b : B) :
  bind c k = Ok b -> exists a, c = Ok a /\ k a = Ok b.
Proof. destruct c; simpl; [eauto | discriminate]. Qed.

Lemma bind_raise {A B : Type} (c : result A) (k : A -> result B) (e : exn) :
  bind c k = Raise e -> c = Raise e \/ exists a, c = Ok a /\ k a = Raise e.
Proof. destruct c; simpl; [eauto | intros [= ->]; auto]. Qed.

Lemma mapM_ok_Forall2 {A B : Type} (f : A -> result B) (l : list A)
      (l' : list B) :
  mapM f l = Ok l' <-> Forall2 (fun x y => f x = Ok y) l l'.
Proof.
  revert l'. induction l as [|x l IH]; intros l'; simpl.
  - split; [intros [= <-]; constructor | intros H; now inversion H].
  - split.
    + intros H. apply bind_ok in H as (y & Hy & H).
      apply bind_ok in H as (ys & Hys & [= <-]).
      constructor; [assumption | now apply IH].
    + intros H. inversion H as [|? y ? ys Hy Hys]; subst.
      rewrite Hy. simpl. apply IH in Hys. now rewrite Hys.
Qed.

(** A loop aborts as soon as its body raises on one element. *)
Lemma mapM_raise_In {A B : Type} (f : A -> result B) (l : list A) (x : A) :
  In x l -> is_ok (f x) = false -> is_ok (mapM f l) = false.
Proof.
  induction l as [|y l IH]; simpl; [tauto|].
  intros [-> | Hin] Hx.
  - destruct (f x); [discriminate | reflexivity].
  - destruct (f y); simpl; [|reflexivity].
    specialize (IH Hin Hx). destruct (mapM f l); [discriminate | reflexivity].
Qed.

Lemma mapM_raise {A B : Type} (f : A -> result B) (l : list A) (e : exn) :
  mapM f l = Raise e -> exists x, In x l /\ f x = Raise e.
Proof.
  induction l as [|y l IH]; simpl; [discriminate|].
  intros H. apply bind_raise in H as [H | (b & Hb & H)].
  - eauto.
  - apply bind_raise in H as [H | (bs & _ & [=])].
    destruct (IH H) as (x & Hin & Hx). eauto.
Qed.

Ltac inv_bind H :=
  let a := fresh "a" in
  let Ha := fresh "H" a in
  apply bind_ok in H as (a & Ha & H).

Tactic Notation "run_bind" hyp(H) "as" ident(x) ident(Hx) :=
  apply bind_ok in H as (x & Hx & H).

Lemma py_getitem_ok (x v : value) (k : string) :
  py_getitem x k = Ok v -> exists d, x = VDict d /\ dict_get k d = Some v.
Proof.
  destruct x; simpl; try discriminate.
  destruct (dict_get k d) eqn:E; [intros [= ->]; eauto | discriminate].
Qed.

Lemma py_setitem_ok (x x' v : value) (k : string) :
  py_setitem x k v = Ok x' -> exists d, x = VDict d /\ x' = VDict (dict_set k v d).
Proof. destruct x; simpl; try discriminate. intros [= <-]. eauto. Qed.

(** ** What a successful run did

    One inversion lemma per source function: the shape the argument must
    have had, and the object that was returned, as a chain of writes. *)

Lemma for_each_list (f : value -> result value) (l : list value) (x' : value) :
  for_each f (VList l) = Ok x' <->
  exists l', x' = VList l' /\ Forall2 (fun y y' => f y = Ok y') l l'.
Proof.
  simpl. split.
  - intros H. inv_bind H. injection H as <-. exists a. split; [reflexivity|].
    now apply mapM_ok_Forall2.
  - intros (l' & -> & H). apply mapM_ok_Forall2 in H. now rewrite H.
Qed.

(** A loop over anything but a list leaves the object as it was. *)
Lemma for_each_not_list (f : value -> result value) (x x' : value) :
  (forall l, x <> VList l) ->
  for_each f x = Ok x' ->
  x' = x /\ exists ys, py_iter x = Ok ys /\ is_ok (mapM f ys) = true.
Proof.
  intros Hx H. destruct x; simpl in H; try discriminate;
    try (now exfalso; eapply Hx);
    inv_bind H; injection H as <-; (split; [reflexivity|]);
    simpl; eexists; (split; [reflexivity|]); now rewrite Ha.
Qed.

(** What a loop over a dict, a str or a bytes object visits is never a dict. *)
Lemma py_iter_not_list (x : value) (ys : list value) :
  (forall l, x <> VList l) -> py_iter x = Ok ys ->
  Forall (fun y => forall d, y <> VDict d) ys.
Proof.
  intros Hx H. destruct x; simpl in H; try discriminate;
    try (now exfalso; eapply Hx); injection H as <-.
  - induction (utf8_chars s); simpl; constructor;
      first [discriminate | assumption].
  - clear Hx. induction b; simpl; constructor;
      first [discriminate | assumption].
  - clear Hx. induction d as [|[k v] d IH]; simpl; constructor;
      first [discriminate | assumption].
Qed.

(** So a body that only accepts dicts lets such a loop finish only when
    there is nothing to visit. *)
Lemma for_each_not_list_empty (f : value -> result value) (x x' : value) :
  (forall y y', f y = Ok y' -> exists d, y = VDict d) ->
  (forall l, x <> VList l) ->
  for_each f x = Ok x' -> x' = x /\ py_iter x = Ok [].
Proof.
  intros Hf Hx H. destruct (for_each_not_list f x x' Hx H) as (-> & ys & Hys & Hok).
  split; [reflexivity|]. rewrite Hys. f_equal.
  pose proof (py_iter_not_list x ys Hx Hys) as Hnd.
  destruct ys as [|y ys]; [reflexivity|]. exfalso.
  inversion Hnd as [|? ? Hy _]; subst. simpl in Hok.
  destruct (f y) as [y'|] eqn:E; [|discriminate].
  destruct (Hf y y' E) as [d ->]. now apply (Hy d).
Qed.

Lemma sanitize_header_inv (h h' : value) :
  sanitize_header h = Ok h' ->
  exists d n, h = VDict d /\ dict_get "name" d = Some n /\
    h' = if py_eq_str n "Authorization"
         then VDict (dict_set "value" (VStr STR_REDACTED) d) else h.
Proof.
  unfold sanitize_header. intros H. inv_bind H.
  apply py_getitem_ok in Ha as (d & -> & Hn). exists d, a.
  repeat split; [assumption|].
  destruct (py_eq_str a "Authorization"); simpl in H; now injection H as <-.
Qed.

Lemma sanitize_qs_inv (q q' : value) :
  sanitize_qs q = Ok q' ->
  exists d n b, q = VDict d /\ dict_get "name" d = Some n /\
    py_in_str_set n SENSITIVE_KEYS = Ok b /\
    q' = if b then VDict (dict_set "value" (VStr STR_REDACTED) d) else q.
Proof.
  unfold sanitize_qs. intros H. inv_bind H.
  apply py_getitem_ok in Ha as (d & -> & Hn). inv_bind H.
  exists d, a, a0. repeat split; try assumption.
  destruct a0; simpl in H; now injection H as <-.
Qed.

Lemma sanitize_response_inv (r r' : value) :
  sanitize_response r = Ok r' ->
  exists d c, r = VDict d /\ dict_get "content" d = Some (VDict c) /\
    r' = VDict (dict_set "cookies" (VList [])
                  (dict_set "content"
                     (VDict (dict_set "text" (VStr STR_REDACTED) c)) d)).
Proof.
  unfold sanitize_response. intros H. inv_bind H.
  apply py_getitem_ok in Ha as (d & -> & Hc). inv_bind H.
  apply py_setitem_ok in Ha0 as (c & -> & ->). simpl in H.
  injection H as <-. now exists d, c.
Qed.

Lemma post_data_redacted_get (d dp : dict) (k : string) :
  post_data_redacted d dp -> String.eqb k "postData" = false ->
  dict_get k dp = dict_get k d.
Proof.
  unfold post_data_redacted. intros H Hk.
  destruct (dict_get "postData" d).
  - destruct H as (pd & _ & ->). now apply dict_get_set_ne.
  - now subst.
Qed.

Section Inversion.

Variable hc : host_checks.

Lemma sanitize_request_inv (r r' : value) :
  sanitize_request hc r = Ok r' ->
  exists d dp hs hs' qs qs' u u',
    r = VDict d /\ post_data_redacted d dp /\
    dict_get "headers" d = Some hs /\
    for_each sanitize_header hs = Ok hs' /\
    dict_get "queryString" d = Some qs /\
    for_each sanitize_qs qs = Ok qs' /\
    dict_get "url" d = Some u /\
    mask_query_string hc u SENSITIVE_KEYS = Ok u' /\
    r' = VDict (dict_set "url" u'
                 (dict_set "queryString" qs'
                    (dict_set "headers" hs'
                       (dict_set "cookies" (VList []) dp)))).
Proof.
  unfold sanitize_request. intros H.
  destruct r as [| | | | | | l | d];
    try (simpl in H; discriminate);
    try (simpl in H;
         match type of H with context [if ?b then _ else _] =>
           destruct b; simpl in H; discriminate end).
  change (py_contains "postData" (VDict d))
    with (Ok (dict_has "postData" d)) in H.
  unfold bind at 1 in H.
  run_bind H as r1 Hr1.
  assert (Hpd : exists dp, r1 = VDict dp /\ post_data_redacted d dp).
  { unfold post_data_redacted, dict_has in *.
    destruct (dict_get "postData" d) as [p|] eqn:Ep.
    - run_bind Hr1 as p1 Hp1. apply py_getitem_ok in Hp1 as (d0 & [= <-] & E0).
      rewrite Ep in E0. injection E0 as <-.
      run_bind Hr1 as p2 Hp2. apply py_setitem_ok in Hp2 as (pd & -> & ->).
      simpl in Hr1. injection Hr1 as <-. eauto.
    - injection Hr1 as <-. eauto. }
  destruct Hpd as (dp & -> & Hdp). clear Hr1.
  run_bind H as r2 Hr2. simpl in Hr2. injection Hr2 as <-.
  run_bind H as hs Hhs. apply py_getitem_ok in Hhs as (d0 & [= <-] & Hhs).
  rewrite dict_get_set_ne in Hhs by reflexivity.
  rewrite (post_data_redacted_get d dp) in Hhs by (assumption || reflexivity).
  run_bind H as hs' Hhs'.
  run_bind H as r3 Hr3. simpl in Hr3. injection Hr3 as <-.
  run_bind H as qs Hqs. apply py_getitem_ok in Hqs as (d0 & [= <-] & Hqs).
  rewrite !dict_get_set_ne in Hqs by reflexivity.
  rewrite (post_data_redacted_get d dp) in Hqs by (assumption || reflexivity).
  run_bind H as qs' Hqs'.
  run_bind H as r4 Hr4. simpl in Hr4. injection Hr4 as <-.
  run_bind H as u Hu. apply py_getitem_ok in Hu as (d0 & [= <-] & Hu).
  rewrite !dict_get_set_ne in Hu by reflexivity.
  rewrite (post_data_redacted_get d dp) in Hu by (assumption || reflexivity).
  run_bind H as u' Hu'. simpl in H. injection H as <-.
  exists d, dp, hs, hs', qs, qs', u, u'. repeat split; assumption.
Qed.

Lemma sanitize_entry_inv (e e' : value) :
  sanitize_entry hc e = Ok e' ->
  exists d i r r' s s',
    e = VDict d /\ dict_get "_initiator" d = Some i /\
    dict_get "request" d = Some r /\ sanitize_request hc r = Ok r' /\
    dict_get "response" d = Some s /\ sanitize_response s = Ok s' /\
    e' = VDict (dict_set "response" s' (dict_set "request" r' d)).
Proof.
  unfold sanitize_entry. intros H.
  destruct e as [| | | | | | l | d];
    try (simpl in H; discriminate);
    try (simpl in H;
         match type of H with context [if ?b then _ else _] =>
           destruct b; simpl in H; discriminate end).
  change (py_contains "_initiator" (VDict d))
    with (Ok (dict_has "_initiator" d)) in H.
  unfold bind at 1 in H. unfold dict_has in H.
  destruct (dict_get "_initiator" d) as [i|] eqn:Hi.
  2:{ simpl in H. rewrite Hi in H. discriminate. }
  simpl negb in H. cbv iota in H. unfold bind at 1 in H.
  run_bind H as r Hr. apply py_getitem_ok in Hr as (d0 & [= <-] & Hr).
  run_bind H as r' Hr'.
  run_bind H as e1 He1. simpl in He1. injection He1 as <-.
  run_bind H as s Hs. apply py_getitem_ok in Hs as (d0 & [= <-] & Hs).
  rewrite dict_get_set_ne in Hs by reflexivity.
  run_bind H as s' Hs'. simpl in H. injection H as <-.
  exists d, i, r, r', s, s'. repeat split; assumption.
Qed.

Lemma sanitize_har_object_inv (data data' : value) :
  sanitize_har_object hc data = Ok data' ->
  exists d l es es',
    data = VDict d /\ dict_get "log" d = Some (VDict l) /\
    dict_get "entries" l = Some es /\
    for_each (sanitize_entry hc) es = Ok es' /\
    data' = VDict (dict_set "log" (VDict (dict_set "entries" es' l)) d).
Proof.
  unfold sanitize_har_object. intros H. inv_bind H.
  apply py_getitem_ok in Ha as (d & -> & Hlog). inv_bind H.
  apply py_getitem_ok in Ha0 as (l & -> & Hes). inv_bind H.
  simpl in H. injection H as <-. now exists d, l, a0, a.
Qed.

End Inversion.

Ltac dict_simpl :=
  repeat first
    [ progress cbn [get get2 get3 items]
    | rewrite dict_get_set_eq
    | rewrite dict_get_set_ne by reflexivity ].

Section Properties.

Variable hc : host_checks.

(** The entries before and after a successful run: the loop visited
    [items es], and left [items es'] in their place. *)
Lemma sanitize_har_object_entries (data data' : value) :
  sanitize_har_object hc data = Ok data' ->
  exists es es',
    get2 "log" "entries" data = Some es /\
    get2 "log" "entries" data' = Some es' /\
    py_iter es = Ok (items es) /\ py_iter es' = Ok (items es') /\
    Forall2 (fun e e' => sanitize_entry hc e = Ok e') (items es) (items es').
Proof.
  intros H. apply sanitize_har_object_inv in H
    as (d & l & es & es' & -> & Hlog & Hes & Hloop & ->).
  exists es, es'.
  split; [unfold get2; cbn [get]; now rewrite Hlog|].
  split; [unfold get2; cbn [get]; rewrite dict_get_set_eq; cbn [get];
          apply dict_get_set_eq|].
  destruct es as [| | | | | | le |];
    try (apply for_each_not_list_empty in Hloop as [-> Hit];
         [ rewrite Hit; repeat split; constructor
         | intros y y' Hy; apply sanitize_entry_inv in Hy
             as (dy & _ & _ & _ & _ & _ & -> & _); eauto
         | discriminate ]).
  apply for_each_list in Hloop as (le' & -> & HF). now repeat split.
Qed.

Lemma sanitize_entry_initiator (e e' : value) :
  sanitize_entry hc e = Ok e' ->
  get "_initiator" e <> None /\ get "_initiator" e' = get "_initiator" e.
Proof.
  intros H. apply sanitize_entry_inv in H
    as (d & i & r & r' & s & s' & -> & Hi & _ & _ & _ & _ & ->).
  dict_simpl. rewrite Hi. split; [discriminate | reflexivity].
Qed.

(** C1.  In a document that was sanitized successfully, every entry that had
    an [_initiator] key still has it with the very same value, [url]
    included: [sanitize_initiator] is never applied to an initiator that is
    present. *)
Theorem initiator_left_unchanged (data data' : value) :
  sanitize_har_object hc data = Ok data' ->
  exists es es',
    get2 "log" "entries" data = Some es /\
    get2 "log" "entries" data' = Some es' /\
    Forall2 (fun e e' =>
               forall i, get "_initiator" e = Some i ->
                         get "_initiator" e' = Some i)
            (items es) (items es').
Proof.
  intros H. apply sanitize_har_object_entries in H
    as (es & es' & Hes & Hes' & _ & _ & HF).
  exists es, es'. repeat split; try assumption.
  eapply Forall2_impl; [|exact HF].
  intros e e' He i Hi. apply sanitize_entry_initiator in He as [_ He].
  congruence.
Qed.



End Properties.

(** ** Frame lemmas *)

Lemma untouched_refl (ks : list string) (x : value) : untouched ks x x.
Proof. split; [reflexivity|]. exists []. now rewrite app_nil_r. Qed.

Lemma untouched_trans (ks : list string) (x y z : value) :
  untouched ks x y -> untouched ks y z -> untouched ks x z.
Proof.
  intros [H1 [n1 K1]] [H2 [n2 K2]]. split; [congruence|].
  exists (n1 ++ n2)%list. now rewrite K2, K1, app_assoc.
Qed.

Lemma untouched_set (ks : list string) (k : string) (v : value) (d : dict) :
  str_in k ks = true -> untouched ks (VDict d) (VDict (dict_set k v d)).
Proof.
  intros Hk. split; simpl.
  - f_equal. now apply filter_dict_set.
  - rewrite keys_dict_set. eauto.
Qed.

Lemma untouched_post_data (ks : list string) (d dp : dict) :
  str_in "postData" ks = true -> post_data_redacted d dp ->
  untouched ks (VDict d) (VDict dp).
Proof.
  unfold post_data_redacted. intros Hk H.
  destruct (dict_get "postData" d).
  - destruct H as (pd & _ & ->). now apply untouched_set.
  - subst. apply untouched_refl.
Qed.

Lemma for_each_elementwise (f : value -> result value)
      (R : value -> value -> Prop) (x x' : value) :
  (forall y y', f y = Ok y' -> R y y') ->
  for_each f x = Ok x' -> elementwise R x x'.
Proof.
  intros Hf H.
  destruct x as [| | | | | | l |];
    try (apply for_each_not_list in H as [-> _]; [reflexivity | discriminate]).
  apply for_each_list in H as (l' & -> & HF). simpl. exists l'.
  split; [reflexivity|]. eapply Forall2_impl; [|exact HF]. exact Hf.
Qed.

Lemma sanitize_header_frame (h h' : value) :
  sanitize_header h = Ok h' -> untouched ["value"] h h'.
Proof.
  intros H. apply sanitize_header_inv in H as (d & n & -> & _ & ->).
  destruct (py_eq_str n "Authorization");
    [now apply untouched_set | apply untouched_refl].
Qed.

Lemma sanitize_qs_frame (q q' : value) :
  sanitize_qs q = Ok q' -> untouched ["value"] q q'.
Proof.
  intros H. apply sanitize_qs_inv in H as (d & n & b & -> & _ & _ & ->).
  destruct b; [now apply untouched_set | apply untouched_refl].
Qed.

Lemma sanitize_response_frame (r r' : value) :
  sanitize_response r = Ok r' -> response_frame r r'.
Proof.
  intros H. apply sanitize_response_inv in H as (d & c & -> & Hc & ->).
  split.
  - eapply untouched_trans; now apply untouched_set.
  - intros v Hv. cbn [get] in Hv. rewrite Hc in Hv. injection Hv as <-.
    eexists. split; [dict_simpl; reflexivity|]. now apply untouched_set.
Qed.

Lemma py_eq_str_true (x : value) (s : string) :
  py_eq_str x s = true <-> x = VStr s.
Proof.
  destruct x; simpl; try (split; [discriminate | intros [=]]).
  rewrite String.eqb_eq. split; [now intros -> | now intros [= ->]].
Qed.

Section Frame.

Variable hc : host_checks.

Lemma sanitize_request_frame (r r' : value) :
  sanitize_request hc r = Ok r' -> request_frame r r'.
Proof.
  intros H. apply sanitize_request_inv in H
    as (d & dp & hs & hs' & qs & qs' & u & u' &
        -> & Hdp & Hhs & Hhs' & Hqs & Hqs' & Hu & Hu' & ->).
  split; [|split; [|split]].
  - do 3 (eapply untouched_trans; [|now apply untouched_set]).
    eapply untouched_trans; [|now apply untouched_set].
    now apply untouched_post_data.
  - intros v Hv. cbn [get] in Hv. unfold post_data_redacted in Hdp.
    rewrite Hv in Hdp. destruct Hdp as (pd & -> & ->).
    eexists. split; [dict_simpl; reflexivity|]. now apply untouched_set.
  - intros v Hv. cbn [get] in Hv. rewrite Hhs in Hv. injection Hv as <-.
    eexists. split; [dict_simpl; reflexivity|].
    eapply for_each_elementwise; [apply sanitize_header_frame | eassumption].
  - intros v Hv. cbn [get] in Hv. rewrite Hqs in Hv. injection Hv as <-.
    eexists. split; [dict_simpl; reflexivity|].
    eapply for_each_elementwise; [apply sanitize_qs_frame | eassumption].
Qed.

Lemma sanitize_entry_frame (e e' : value) :
  sanitize_entry hc e = Ok e' -> entry_frame e e'.
Proof.
  intros H. apply sanitize_entry_inv in H
    as (d & i & r & r' & s & s' & -> & _ & Hr & Hr' & Hs & Hs' & ->).
  split; [|split].
  - eapply untouched_trans; now apply untouched_set.
  - intros v Hv. cbn [get] in Hv. rewrite Hr in Hv. injection Hv as <-.
    eexists. split; [dict_simpl; reflexivity|].
    now apply sanitize_request_frame.
  - intros v Hv. cbn [get] in Hv. rewrite Hs in Hv. injection Hv as <-.
    eexists. split; [dict_simpl; reflexivity|].
    now apply sanitize_response_frame.
Qed.

(** C8.  A successful run preserves the structure of the document: the
    entries, the headers and the query-string entries keep their number and
    order, every key that no redaction rule writes keeps its value and its
    place, unknown keys included. *)
Theorem structure_preserved (data data' : value) :
  sanitize_har_object hc data = Ok data' -> har_frame data data'.
Proof.
  intros H. apply sanitize_har_object_inv in H
    as (d & l & es & es' & -> & Hlog & Hes & Hloop & ->).
  split; [now apply untouched_set|].
  intros v Hv. cbn [get] in Hv. rewrite Hlog in Hv. injection Hv as <-.
  eexists. split; [dict_simpl; reflexivity|].
  split; [now apply untouched_set|].
  intros v Hv. cbn [get] in Hv. rewrite Hes in Hv. injection Hv as <-.
  eexists. split; [dict_simpl; reflexivity|].
  eapply for_each_elementwise; [apply sanitize_entry_frame | eassumption].
Qed.

(** C6.  Header redaction is targeted and case-sensitive: in a request that
    was sanitized successfully, a header whose [name] is exactly
    ["Authorization"] has its [value] set to ["REDACTED"] and nothing else
    changed; a header with any other name is left exactly as it was. *)
Theorem authorization_header_redacted (request request' : value)
        (hs : list value) :
  sanitize_request hc request = Ok request' ->
  get "headers" request = Some (VList hs) ->
  exists hs',
    get "headers" request' = Some (VList hs') /\
    Forall2 header_redacted hs hs'.
Proof.
  intros H Hhs. apply sanitize_request_inv in H
    as (d & dp & hs0 & hs0' & qs & qs' & u & u' &
        -> & _ & Hhs0 & Hloop & _ & _ & _ & _ & ->).
  cbn [get] in Hhs. rewrite Hhs0 in Hhs. injection Hhs as ->.
  apply for_each_list in Hloop as (hs' & -> & HF).
  exists hs'. split; [dict_simpl; reflexivity|].
  eapply Forall2_impl; [|exact HF].
  intros h h' Hh. apply sanitize_header_inv in Hh as (dh & n & -> & Hn & ->).
  exists dh. split; [reflexivity|]. rewrite Hn. split.
  - intros [= ->]. reflexivity.
  - intros Hne. destruct (py_eq_str n "Authorization") eqn:E; [|reflexivity].
    apply py_eq_str_true in E. now subst.
Qed.

End Frame.

(** ** Failures *)

Ltac split_andb H :=
  repeat match type of H with
         | (_ && _) = true =>
             let H' := fresh H in
             apply andb_true_iff in H as [H H']
         end.

Lemma sanitize_header_raises (h : value) (e : exn) :
  is_dict h = true -> sanitize_header h = Raise e -> e = KeyError.
Proof.
  destruct h; try discriminate. intros _. unfold sanitize_header. simpl.
  destruct (dict_get "name" d) as [n|]; simpl; [|now intros [= <-]].
  destruct (py_eq_str n "Authorization"); discriminate.
Qed.

Lemma sanitize_qs_raises (q : value) (e : exn) :
  query_entry_shaped q = true -> sanitize_qs q = Raise e -> e = KeyError.
Proof.
  unfold query_entry_shaped, opt, sanitize_qs.
  destruct q; try discriminate. simpl.
  destruct (dict_get "name" d) as [n|]; simpl; [|now intros _ [= <-]].
  destruct n; try discriminate. simpl. intros _.
  match goal with |- context [if ?b then _ else _] => destruct b end;
    discriminate.
Qed.

Lemma for_each_raises (f : value -> result value) (p : value -> bool)
      (x : value) (e : exn) :
  list_of p x = true ->
  (forall y e', p y = true -> f y = Raise e' -> e' = KeyError) ->
  for_each f x = Raise e -> e = KeyError.
Proof.
  destruct x; try discriminate. simpl. intros Hall Hf H.
  apply bind_raise in H as [H | (l' & _ & [=])].
  apply mapM_raise in H as (y & Hin & Hy).
  rewrite forallb_forall in Hall. eauto.
Qed.

Lemma sanitize_response_raises (r : value) (e : exn) :
  response_shaped r = true -> sanitize_response r = Raise e -> e = KeyError.
Proof.
  unfold response_shaped, opt, sanitize_response.
  destruct r; try discriminate. simpl.
  destruct (dict_get "content" d) as [c|]; simpl; [|now intros _ [= <-]].
  destruct c; discriminate.
Qed.

Section Failures.

Variable hc : host_checks.

Lemma post_data_step (d : dict) :
  opt "postData" is_dict (VDict d) = true ->
  exists dp, post_data_redacted d dp /\
    (if dict_has "postData" d
     then post_data <- py_getitem (VDict d) "postData" ;;
          post_data <- py_setitem post_data "text" (VStr STR_REDACTED) ;;
          py_setitem (VDict d) "postData" post_data
     else Ok (VDict d)) = Ok (VDict dp).
Proof.
  unfold opt, post_data_redacted, dict_has. simpl.
  destruct (dict_get "postData" d) as [p|]; [|eauto].
  destruct p; try discriminate. intros _. simpl. eauto.
Qed.

Lemma sanitize_request_raises (r : value) (e : exn) :
  request_shaped hc r = true -> sanitize_request hc r = Raise e ->
  e = KeyError.
Proof.
  unfold request_shaped. intros Hsh H. split_andb Hsh.
  destruct r; try discriminate. clear Hsh.
  destruct (post_data_step d Hsh3) as (dp & Hdp & Estep).
  unfold sanitize_request in H.
  change (py_contains "postData" (VDict d))
    with (Ok (dict_has "postData" d)) in H.
  unfold bind at 1 in H. rewrite Estep in H.
  cbn [bind py_setitem py_getitem] in H.
  unfold opt in Hsh0, Hsh1, Hsh2. cbn [get] in Hsh0, Hsh1, Hsh2.
  rewrite dict_get_set_ne in H by reflexivity.
  rewrite (post_data_redacted_get d dp) in H by (assumption || reflexivity).
  destruct (dict_get "headers" d) as [hs|]; [|now injection H as <-].
  cbn [bind] in H.
  apply bind_raise in H as [H | (hs' & _ & H)];
    [eapply for_each_raises; [exact Hsh2 | | exact H];
     intros; eapply sanitize_header_raises; eassumption|].
  cbn [bind py_setitem py_getitem] in H.
  rewrite !dict_get_set_ne in H by reflexivity.
  rewrite (post_data_redacted_get d dp) in H by (assumption || reflexivity).
  destruct (dict_get "queryString" d) as [qs|]; [|now injection H as <-].
  cbn [bind] in H.
  apply bind_raise in H as [H | (qs' & _ & H)];
    [eapply for_each_raises; [exact Hsh1 | | exact H];
     intros; eapply sanitize_qs_raises; eassumption|].
  cbn [bind py_setitem py_getitem] in H.
  rewrite !dict_get_set_ne in H by reflexivity.
  rewrite (post_data_redacted_get d dp) in H by (assumption || reflexivity).
  destruct (dict_get "url" d) as [u|]; [|now injection H as <-].
  cbn [bind] in H. unfold url_shaped in Hsh0.
  destruct u; try discriminate. cbn [mask_query_string] in H.
  destruct (mask_url hc s SENSITIVE_KEYS); discriminate.
Qed.

Lemma sanitize_entry_raises (en : value) (e : exn) :
  entry_shaped hc en = true -> sanitize_entry hc en = Raise e ->
  e = KeyError.
Proof.
  unfold entry_shaped, opt. intros Hsh H. split_andb Hsh.
  destruct en; try discriminate. clear Hsh. cbn [get] in Hsh0, Hsh1.
  unfold sanitize_entry in H.
  change (py_contains "_initiator" (VDict d))
    with (Ok (dict_has "_initiator" d)) in H.
  unfold bind at 1 in H. unfold dict_has in H.
  destruct (dict_get "_initiator" d) as [i|] eqn:Hi.
  2:{ simpl in H. rewrite Hi in H. now injection H as <-. }
  simpl negb in H. cbv iota in H. cbn [bind py_setitem py_getitem] in H.
  destruct (dict_get "request" d) as [r|]; [|now injection H as <-].
  cbn [bind] in H.
  apply bind_raise in H as [H | (r' & _ & H)];
    [eapply sanitize_request_raises; eassumption|].
  cbn [bind py_setitem py_getitem] in H.
  rewrite dict_get_set_ne in H by reflexivity.
  destruct (dict_get "response" d) as [s|]; [|now injection H as <-].
  cbn [bind] in H.
  apply bind_raise in H as [H | (s' & _ & H)];
    [eapply sanitize_response_raises; eassumption|].
  discriminate.
Qed.

(** On a document shaped as the data model says, the only exception the
    sanitizer can raise is a [KeyError]. *)
Lemma shaped_only_key_errors (data : value) (e : exn) :
  document_shaped hc data = true ->
  sanitize_har_object hc data = Raise e -> e = KeyError.
Proof.
  unfold document_shaped, opt. intros Hsh H. split_andb Hsh.
  destruct data; try discriminate. clear Hsh. cbn [get] in Hsh0.
  unfold sanitize_har_object in H. cbn [py_getitem] in H.
  destruct (dict_get "log" d) as [l|]; [|now injection H as <-].
  cbn [bind] in H. unfold log_shaped, opt in Hsh0. split_andb Hsh0.
  destruct l as [| | | | | | |dl]; try discriminate. clear Hsh0.
  cbn [get] in Hsh1. cbn [py_getitem] in H.
  destruct (dict_get "entries" dl) as [es|]; [|now injection H as <-].
  cbn [bind] in H.
  apply bind_raise in H as [H | (es' & _ & H)]; [|discriminate].
  eapply for_each_raises; [exact Hsh1 | | exact H].
  intros; eapply sanitize_entry_raises; eassumption.
Qed.

Lemma sanitize_entry_needs_keys (e e' : value) :
  sanitize_entry hc e = Ok e' ->
  entry_lacks_required e = false /\ entry_lacks_url e = false.
Proof.
  intros H. apply sanitize_entry_inv in H
    as (d & i & r & r' & s & s' & -> & _ & Hr & Hr' & Hs & Hs' & _).
  apply sanitize_request_inv in Hr'
    as (dr & dp & hs & hs' & qs & qs' & u & u' &
        -> & _ & Hhs & _ & Hqs & _ & Hu & _ & _).
  apply sanitize_response_inv in Hs' as (ds & c & -> & Hc & _).
  unfold entry_lacks_required, entry_lacks_url, lacks. cbn [get].
  rewrite Hr, Hs. cbn [get]. now rewrite Hhs, Hqs, Hc, Hu.
Qed.

Lemma sanitize_har_object_needs_keys (data data' : value) :
  sanitize_har_object hc data = Ok data' ->
  document_lacks_required data = false /\
  forall es, get2 "log" "entries" data = Some es ->
             existsb entry_lacks_url (items es) = false.
Proof.
  intros H.
  destruct (sanitize_har_object_entries hc data data' H)
    as (es & es' & Hes & _ & _ & _ & HF).
  assert (Hall : forall e, In e (items es) ->
            entry_lacks_required e = false /\ entry_lacks_url e = false).
  { clear Hes. induction HF as [|e e' l l' He _ IH]; [intros ? []|].
    intros x [<- | Hx]; [eapply sanitize_entry_needs_keys; eassumption|].
    now apply IH. }
  split.
  - unfold document_lacks_required. unfold get2 in Hes.
    destruct (get "log" data) as [l|]; [|discriminate]. rewrite Hes.
    apply not_true_is_false. intros Hex.
    apply existsb_exists in Hex as (x & Hin & Hx).
    apply Hall in Hin as [Hin _]. congruence.
  - intros es0 Hes0. rewrite Hes in Hes0. injection Hes0 as <-.
    apply not_true_is_false. intros Hex.
    apply existsb_exists in Hex as (x & Hin & Hx).
    apply Hall in Hin as [_ Hin]. congruence.
Qed.

(** C5.  When [log.entries] is absent or an entry misses [request] or
    [response], a request misses [headers] or [queryString], or a response
    misses [content], the whole operation aborts: no document is returned, so
    the offending entry is not skipped.  On a document that is otherwise
    shaped as the data model says, the exception is a [KeyError]. *)
Theorem missing_required_key_aborts (data : value) :
  document_lacks_required data = true ->
  is_ok (sanitize_har_object hc data) = false /\
  (document_shaped hc data = true ->
   sanitize_har_object hc data = Raise KeyError).
Proof.
  intros Hlack.
  destruct (sanitize_har_object hc data) as [data'|e] eqn:E.
  - apply sanitize_har_object_needs_keys in E as [E _]. congruence.
  - split; [reflexivity|]. intros Hsh. f_equal.
    eapply shaped_only_key_errors; eassumption.
Qed.

(** C9.  The request's [url] key is required as well: when an entry's
    request has no [url], the whole operation aborts, with a [KeyError] on a
    document that is otherwise shaped as the data model says. *)
Theorem missing_url_aborts (data es : value) :
  get2 "log" "entries" data = Some es ->
  existsb entry_lacks_url (items es) = true ->
  is_ok (sanitize_har_object hc data) = false /\
  (document_shaped hc data = true ->
   sanitize_har_object hc data = Raise KeyError).
Proof.
  intros Hes Hlack.
  destruct (sanitize_har_object hc data) as [data'|e] eqn:E.
  - apply sanitize_har_object_needs_keys in E as [_ E].
    rewrite (E es Hes) in Hlack. discriminate.
  - split; [reflexivity|]. intros Hsh. f_equal.
    eapply shaped_only_key_errors; eassumption.
Qed.

(** An entry that has no [_initiator] key makes line 86 read the missing
    key. *)
Lemma sanitize_entry_without_initiator (d : dict) :
  dict_get "_initiator" d = None ->
  sanitize_entry hc (VDict d) = Raise KeyError.
Proof.
  intros H. unfold sanitize_entry.
  change (py_contains "_initiator" (VDict d))
    with (Ok (dict_has "_initiator" d)).
  unfold dict_has. rewrite H. cbn [bind negb py_getitem]. now rewrite H.
Qed.

(** C2 (the code departs from the claim).  The entry of the
    missing-optional-field scenario has every required key and neither
    [postData] nor [_initiator]; sanitizing it raises [KeyError]. *)
Theorem entry_without_initiator_raises :
  sanitize_har_object hc (document_of [entry_without_optional])
  = Raise KeyError.
Proof. reflexivity. Qed.

End Failures.

(** ** Query-string masking *)

Lemma qd_get_set_eq (k : string) (vs : list string) (d : qdict) :
  qd_get k (qd_set k vs d) = Some vs.
Proof.
  induction d as [|[k' vs'] d IH]; simpl.
  - now rewrite String.eqb_refl.
  - destruct (String.eqb k k') eqn:E; simpl; rewrite E; auto.
Qed.

Lemma qd_get_set_ne (k k' : string) (vs : list string) (d : qdict) :
  k' <> k -> qd_get k' (qd_set k vs d) = qd_get k' d.
Proof.
  intros Hne. apply String.eqb_neq in Hne.
  induction d as [|[k0 vs0] d IH]; simpl.
  - now rewrite Hne.
  - destruct (String.eqb k k0) eqn:E; simpl.
    + apply String.eqb_eq in E. subst k0. now rewrite Hne.
    + now rewrite IH.
Qed.

Lemma qd_get_In (k : string) (d : qdict) :
  qd_get k d = None <-> ~ In k (map fst d).
Proof.
  induction d as [|[k0 vs0] d IH]; simpl; [tauto|].
  destruct (String.eqb k k0) eqn:E.
  - apply String.eqb_eq in E. subst. split; [discriminate | tauto].
  - apply String.eqb_neq in E. rewrite IH. intuition congruence.
Qed.

Lemma keys_qd_set (k : string) (vs : list string) (d : qdict) :
  map fst (qd_set k vs d)
  = (map fst d ++ match qd_get k d with Some _ => [] | None => [k] end)%list.
Proof.
  induction d as [|[k0 vs0] d IH]; simpl; [reflexivity|].
  destruct (String.eqb k k0) eqn:E; simpl.
  - now rewrite app_nil_r.
  - now rewrite IH.
Qed.

Lemma NoDup_qd_set (k : string) (vs : list string) (d : qdict) :
  NoDup (map fst d) -> NoDup (map fst (qd_set k vs d)).
Proof.
  intros H. rewrite keys_qd_set. destruct (qd_get k d) eqn:E.
  - now rewrite app_nil_r.
  - apply qd_get_In in E. apply NoDup_app; [assumption | repeat constructor; auto|].
    intros x Hx [<- | []]. contradiction.
Qed.

Lemma NoDup_fold_qd_add (l : list (string * string)) (d : qdict) :
  NoDup (map fst d) -> NoDup (map fst (fold_left qd_add l d)).
Proof.
  revert d. induction l as [|[n v] l IH]; intros d Hd; simpl; [assumption|].
  apply IH. destruct (qd_get n d); now apply NoDup_qd_set.
Qed.

(** Each parameter name is a key of [parse_qs]'s dict once. *)
Lemma NoDup_parse_qs (qs : string) : NoDup (map fst (parse_qs qs)).
Proof. apply NoDup_fold_qd_add. constructor. Qed.

Lemma mask_key_keys (d : qdict) (k : string) :
  map fst (mask_key d k) = map fst d.
Proof.
  unfold mask_key. destruct (qd_get k d) eqn:E; [|reflexivity].
  rewrite keys_qd_set, E. apply app_nil_r.
Qed.

Lemma mask_params_keys (ks : list string) (d : qdict) :
  map fst (mask_params ks d) = map fst d.
Proof.
  unfold mask_params. revert d.
  induction ks as [|k ks IH]; intros d; simpl; [reflexivity|].
  now rewrite IH, mask_key_keys.
Qed.

Lemma mask_key_get_same (d : qdict) (k : string) (vs : list string) :
  qd_get k d = Some vs ->
  qd_get k (mask_key d k) = Some (repeat STR_REDACTED (length vs)).
Proof. unfold mask_key. intros ->. apply qd_get_set_eq. Qed.

Lemma mask_key_get_other (d : qdict) (k k' : string) :
  k' <> k -> qd_get k' (mask_key d k) = qd_get k' d.
Proof.
  unfold mask_key. intros Hne.
  destruct (qd_get k d); [now apply qd_get_set_ne | reflexivity].
Qed.

(** A name outside [masked_keys] keeps its values. *)
Lemma mask_params_get_other (ks : list string) (d : qdict) (k : string) :
  ~ In k ks -> qd_get k (mask_params ks d) = qd_get k d.
Proof.
  unfold mask_params. revert d.
  induction ks as [|k0 ks IH]; intros d Hk; simpl; [reflexivity|].
  rewrite IH by (simpl in Hk; tauto).
  apply mask_key_get_other. simpl in Hk. intuition congruence.
Qed.

Lemma mask_params_get_masked (ks : list string) (d : qdict) (k : string)
      (n : nat) :
  qd_get k d = Some (repeat STR_REDACTED n) ->
  qd_get k (mask_params ks d) = Some (repeat STR_REDACTED n).
Proof.
  unfold mask_params. revert d.
  induction ks as [|k0 ks IH]; intros d Hk; simpl; [assumption|].
  apply IH. destruct (String.eqb k k0) eqn:E.
  - apply String.eqb_eq in E. subst k0.
    rewrite (mask_key_get_same d k _ Hk). now rewrite repeat_length.
  - apply String.eqb_neq in E. now rewrite mask_key_get_other.
Qed.

(** A name in [masked_keys] gets as many markers as it had values. *)
Lemma mask_params_get (ks : list string) (d : qdict) (k : string)
      (vs : list string) :
  In k ks -> qd_get k d = Some vs ->
  qd_get k (mask_params ks d) = Some (repeat STR_REDACTED (length vs)).
Proof.
  unfold mask_params. revert d vs.
  induction ks as [|k0 ks IH]; intros d vs Hin Hk; simpl; [contradiction|].
  destruct (String.eqb k k0) eqn:E.
  - apply String.eqb_eq in E. subst k0.
    apply (mask_params_get_masked ks). now apply mask_key_get_same.
  - apply String.eqb_neq in E. destruct Hin as [-> | Hin]; [congruence|].
    apply IH; [assumption|]. now rewrite mask_key_get_other.
Qed.

(** The pairs [urlencode] visits for a name are its values, in order. *)
Lemma qd_pairs_of_key (d : qdict) (k : string) (vs : list string) :
  NoDup (map fst d) -> qd_get k d = Some vs ->
  filter (fun kv => String.eqb (fst kv) k) (qd_pairs d) = map (pair k) vs.
Proof.
  unfold qd_pairs. induction d as [|[k0 vs0] d IH]; simpl; [discriminate|].
  intros Hnd Hk. inversion Hnd as [|? ? Hnotin Hnd']; subst.
  rewrite filter_app. destruct (String.eqb k k0) eqn:E.
  - apply String.eqb_eq in E. subst k0. injection Hk as ->.
    assert (Hrest :
      filter (fun kv => String.eqb (fst kv) k)
        (flat_map (fun kvs => map (fun v => (fst kvs, v)) (snd kvs)) d) = []).
    { clear IH Hnd Hnd'. induction d as [|[k1 vs1] d IH]; simpl; [reflexivity|].
      rewrite filter_app, IH by (simpl in Hnotin; tauto).
      rewrite app_nil_r. simpl in Hnotin.
      assert (Hne : String.eqb k1 k = false)
        by (apply String.eqb_neq; intuition congruence).
      clear -Hne. induction vs1; simpl; [reflexivity|]. now rewrite Hne. }
    rewrite Hrest, app_nil_r. clear.
    induction vs; simpl; [reflexivity|]. rewrite String.eqb_refl. now f_equal.
  - rewrite IH by assumption.
    assert (Hne : String.eqb k0 k = false) by now rewrite String.eqb_sym.
    assert (Hnil : filter (fun kv => String.eqb (fst kv) k)
                     (map (fun v => (k0, v)) vs0) = []).
    { clear -Hne. induction vs0; simpl; [reflexivity|]. now rewrite Hne. }
    now rewrite Hnil.
Qed.

(** ** Encoding the query *)

Lemma quote_plus_eq (s : string) :
  quote_plus s
  = if has_surrogate s then Raise UnicodeEncodeError else Ok (quote_bytes s).
Proof. unfold quote_plus, encode_utf8. now destruct (has_surrogate s). Qed.

Lemma urlencode_values (k : string) (vs : list string) :
  mapM (fun elt => elt <- quote_plus elt ;; Ok (k ++ "=" ++ elt)) vs
  = if existsb has_surrogate vs then Raise UnicodeEncodeError
    else Ok (map (fun v => k ++ "=" ++ quote_bytes v) vs).
Proof.
  induction vs as [|v vs IH]; [reflexivity|].
  cbn [mapM existsb map]. rewrite quote_plus_eq.
  destruct (has_surrogate v); [reflexivity|]. cbn [bind orb]. rewrite IH.
  now destruct (existsb has_surrogate vs).
Qed.

Lemma urlencode_item_eq (kv : string * list string) :
  urlencode_item kv
  = if has_surrogate (fst kv) || existsb has_surrogate (snd kv)
    then Raise UnicodeEncodeError
    else Ok (map (fun v => encode_pair (fst kv, v)) (snd kv)).
Proof.
  unfold urlencode_item. rewrite quote_plus_eq.
  destruct (has_surrogate (fst kv)); [reflexivity|]. cbn [bind orb].
  now rewrite urlencode_values.
Qed.

(** [urlencode] raises when a name or a value holds a surrogate, and
    otherwise returns the quoted pairs joined by [&]. *)
Lemma urlencode_eq (d : qdict) :
  urlencode d
  = if qd_has_surrogate d then Raise UnicodeEncodeError
    else Ok (urlencode_text d).
Proof.
  unfold urlencode, urlencode_text, qd_has_surrogate, qd_pairs.
  assert (H : mapM urlencode_item d
              = if existsb (fun kvs => has_surrogate (fst kvs)
                                       || existsb has_surrogate (snd kvs)) d
                then Raise UnicodeEncodeError
                else Ok (map (fun kvs => map (fun v => encode_pair (fst kvs, v))
                                           (snd kvs)) d)).
  { induction d as [|kvs d IH]; [reflexivity|].
    cbn [mapM existsb map]. rewrite urlencode_item_eq.
    destruct (has_surrogate (fst kvs) || existsb has_surrogate (snd kvs));
      [reflexivity|].
    cbn [bind orb]. rewrite IH. now destruct (existsb _ d). }
  rewrite H. destruct (existsb _ d); [reflexivity|]. cbn [bind]. do 2 f_equal.
  clear. induction d as [|kvs d IH]; [reflexivity|].
  cbn [map concat flat_map]. now rewrite map_app, map_map, IH.
Qed.

Lemma urlencode_ok (d : qdict) (q : string) :
  urlencode d = Ok q -> qd_has_surrogate d = false /\ q = urlencode_text d.
Proof.
  rewrite urlencode_eq. destruct (qd_has_surrogate d); [discriminate|].
  now intros [= <-].
Qed.

Section Masking.

Variable hc : host_checks.

(** [mask_query_string] on a [str], with the two ways it can fail:
    [urlparse] rejects the URL, or [urlencode] meets a surrogate in a name
    or a value it has to write. *)
Lemma mask_url_eq (url : string) (masked_keys : list string) :
  mask_url hc url masked_keys
  = (p <- urlparse hc url ;;
     if qd_has_surrogate (mask_params masked_keys (parse_qs (query p)))
     then Raise UnicodeEncodeError
     else Ok (urlunparse (scheme p) (netloc p) (path p) (params p)
                (urlencode_text
                   (mask_params masked_keys (parse_qs (query p))))
                (fragment p))).
Proof.
  unfold mask_url. destruct (urlparse hc url) as [p|]; [|reflexivity].
  cbn [bind]. rewrite urlencode_eq.
  now destruct (qd_has_surrogate _).
Qed.

(** C7.  Masking keeps the multiplicity of a repeated sensitive parameter:
    when the query string of [url] gives the values [vs] to a name in
    [masked_keys], the masked parameters give that name [length vs] values,
    each ["REDACTED"], and the query [mask_query_string] writes has that
    many pairs for the name; so [a=1&a=2] with [a] sensitive becomes
    [a=REDACTED&a=REDACTED].  [mask_query_string] returns the URL with that
    query unless a name or a value it has to write holds a surrogate, which
    [urlencode] cannot encode: it then raises [UnicodeEncodeError]. *)
Theorem repeated_values_all_masked (url : string) (masked_keys : list string)
        (p : ParseResult) (key : string) (vs : list string) :
  urlparse hc url = Ok p ->
  qd_get key (parse_qs (query p)) = Some vs ->
  In key masked_keys ->
  exists masked,
    mask_query_string hc (VStr url) masked_keys
    = (if qd_has_surrogate masked then Raise UnicodeEncodeError
       else Ok (VStr (urlunparse (scheme p) (netloc p) (path p) (params p)
                        (join "&" (map encode_pair (qd_pairs masked)))
                        (fragment p)))) /\
    qd_get key masked = Some (repeat "REDACTED" (length vs)) /\
    filter (fun kv => String.eqb (fst kv) key) (qd_pairs masked)
    = repeat (key, "REDACTED") (length vs).
Proof.
  intros Hp Hk Hin. exists (mask_params masked_keys (parse_qs (query p))).
  assert (Hm := mask_params_get masked_keys _ key vs Hin Hk).
  split; [|split].
  - cbn [mask_query_string]. rewrite mask_url_eq, Hp. cbn [bind].
    now destruct (qd_has_surrogate _).
  - exact Hm.
  - rewrite (qd_pairs_of_key _ key (repeat STR_REDACTED (length vs)));
      [| rewrite mask_params_keys; apply NoDup_parse_qs | exact Hm].
    clear. induction (length vs); simpl; [reflexivity|]. now f_equal.
Qed.

End Masking.

(** ** A second pass *)

Lemma sanitize_header_fixed (h h1 : value) :
  sanitize_header h = Ok h1 -> sanitize_header h1 = Ok h1.
Proof.
  intros H. apply sanitize_header_inv in H as (d & n & -> & Hn & ->).
  destruct (py_eq_str n "Authorization") eqn:E; unfold sanitize_header;
    cbn [py_getitem].
  - rewrite dict_get_set_ne by reflexivity. rewrite Hn. cbn [bind].
    rewrite E. cbn [py_setitem]. now rewrite dict_set_twice.
  - rewrite Hn. cbn [bind]. now rewrite E.
Qed.

Lemma sanitize_qs_fixed (q q1 : value) :
  sanitize_qs q = Ok q1 -> sanitize_qs q1 = Ok q1.
Proof.
  intros H. apply sanitize_qs_inv in H as (d & n & b & -> & Hn & Hb & ->).
  destruct b; unfold sanitize_qs; cbn [py_getitem].
  - rewrite dict_get_set_ne by reflexivity. rewrite Hn. cbn [bind].
    rewrite Hb. cbn [bind py_setitem]. now rewrite dict_set_twice.
  - rewrite Hn. cbn [bind]. now rewrite Hb.
Qed.

Lemma for_each_fixed (f : value -> result value) (x x1 : value) :
  (forall y y1, f y = Ok y1 -> f y1 = Ok y1) ->
  for_each f x = Ok x1 -> for_each f x1 = Ok x1.
Proof.
  intros Hf H.
  destruct x as [| | | | | | l |];
    try (pose proof H as H';
         apply for_each_not_list in H' as [-> _]; [exact H | discriminate]).
  apply for_each_list in H as (l1 & -> & HF). apply for_each_list.
  exists l1. split; [reflexivity|].
  induction HF as [|y y1 l l1 Hy _ IH]; constructor; eauto.
Qed.

Lemma sanitize_response_fixed (r r1 : value) :
  sanitize_response r = Ok r1 -> sanitize_response r1 = Ok r1.
Proof.
  intros H. apply sanitize_response_inv in H as (d & c & -> & Hc & ->).
  unfold sanitize_response. cbn [py_getitem].
  rewrite dict_get_set_ne by reflexivity. rewrite dict_get_set_eq.
  cbn [bind py_setitem]. rewrite dict_set_twice.
  rewrite (dict_set_same "content")
    by (rewrite dict_get_set_ne by reflexivity; apply dict_get_set_eq).
  now rewrite dict_set_twice.
Qed.

Section SecondPass.

Variable hc : host_checks.

(** A request whose redactable fields already hold what the rules write:
    sanitizing it re-masks its [url] and changes nothing else. *)
Lemma sanitize_request_redacted (d : dict) (hs qs u : value) :
  match dict_get "postData" d with
  | Some p => exists pd, p = VDict pd /\
                         dict_get "text" pd = Some (VStr STR_REDACTED)
  | None => True
  end ->
  dict_get "cookies" d = Some (VList []) ->
  dict_get "headers" d = Some hs -> for_each sanitize_header hs = Ok hs ->
  dict_get "queryString" d = Some qs -> for_each sanitize_qs qs = Ok qs ->
  dict_get "url" d = Some u ->
  sanitize_request hc (VDict d)
  = (u' <- mask_query_string hc u SENSITIVE_KEYS ;;
     Ok (VDict (dict_set "url" u' d))).
Proof.
  intros Hpd Hc Hhs Hhs' Hqs Hqs' Hu. unfold sanitize_request.
  change (py_contains "postData" (VDict d))
    with (Ok (dict_has "postData" d)).
  unfold bind at 1. unfold dict_has.
  assert (Estep :
    (if match dict_get "postData" d with Some _ => true | None => false end
     then post_data <- py_getitem (VDict d) "postData" ;;
          post_data <- py_setitem post_data "text" (VStr STR_REDACTED) ;;
          py_setitem (VDict d) "postData" post_data
     else Ok (VDict d)) = Ok (VDict d)).
  { cbn [py_getitem]. destruct (dict_get "postData" d) as [p|] eqn:Ep;
      [|reflexivity].
    destruct Hpd as (pd & -> & Ht). cbn [bind py_setitem].
    rewrite (dict_set_same "text") by assumption.
    now rewrite (dict_set_same "postData") by assumption. }
  rewrite Estep. cbn [bind py_setitem py_getitem].
  rewrite (dict_set_same "cookies") by assumption.
  rewrite Hhs. cbn [bind]. rewrite Hhs'. cbn [bind py_setitem py_getitem].
  rewrite (dict_set_same "headers") by assumption.
  rewrite Hqs. cbn [bind]. rewrite Hqs'. cbn [bind py_setitem py_getitem].
  rewrite (dict_set_same "queryString") by assumption.
  rewrite Hu. cbn [bind]. reflexivity.
Qed.

Lemma sanitize_request_again (r r1 : value) :
  sanitize_request hc r = Ok r1 ->
  exists d1 u1,
    r1 = VDict d1 /\ dict_get "url" d1 = Some u1 /\
    sanitize_request hc r1
    = (u2 <- mask_query_string hc u1 SENSITIVE_KEYS ;;
       Ok (VDict (dict_set "url" u2 d1))).
Proof.
  intros H. apply sanitize_request_inv in H
    as (d & dp & hs & hs' & qs & qs' & u & u' &
        -> & Hdp & Hhs & Hhs' & Hqs & Hqs' & Hu & Hu' & ->).
  eexists. exists u'. split; [reflexivity|].
  split; [apply dict_get_set_eq|].
  apply (sanitize_request_redacted _ hs' qs' u').
  - rewrite !dict_get_set_ne by reflexivity.
    unfold post_data_redacted in Hdp.
    destruct (dict_get "postData" d) as [p|] eqn:Ep.
    + destruct Hdp as (pd & -> & ->). rewrite dict_get_set_eq.
      eexists. split; [reflexivity | apply dict_get_set_eq].
    + subst dp. now rewrite Ep.
  - rewrite !dict_get_set_ne by reflexivity. apply dict_get_set_eq.
  - rewrite !dict_get_set_ne by reflexivity. apply dict_get_set_eq.
  - eapply for_each_fixed; [apply sanitize_header_fixed | eassumption].
  - rewrite !dict_get_set_ne by reflexivity. apply dict_get_set_eq.
  - eapply for_each_fixed; [apply sanitize_qs_fixed | eassumption].
  - apply dict_get_set_eq.
Qed.

Lemma sanitize_entry_again (e e1 : value) :
  sanitize_entry hc e = Ok e1 ->
  exists de dr u1,
    e1 = VDict de /\ dict_get "request" de = Some (VDict dr) /\
    dict_get "url" dr = Some u1 /\
    sanitize_entry hc e1
    = (u2 <- mask_query_string hc u1 SENSITIVE_KEYS ;;
       Ok (VDict (dict_set "request" (VDict (dict_set "url" u2 dr)) de))).
Proof.
  intros H. apply sanitize_entry_inv in H
    as (d & i & r & r' & s & s' & -> & Hi & Hr & Hr' & Hs & Hs' & ->).
  apply sanitize_request_again in Hr' as (dr & u1 & -> & Hu1 & Hagain).
  apply sanitize_response_fixed in Hs'.
  eexists. exists dr, u1. split; [reflexivity|].
  split; [rewrite dict_get_set_ne by reflexivity; apply dict_get_set_eq|].
  split; [assumption|].
  unfold sanitize_entry.
  match goal with |- context [py_contains "_initiator" (VDict ?de)] =>
    change (py_contains "_initiator" (VDict de))
      with (Ok (dict_has "_initiator" de)) end.
  unfold bind at 1. unfold dict_has at 1.
  rewrite !dict_get_set_ne by reflexivity. rewrite Hi.
  cbn [negb bind py_getitem].
  rewrite dict_get_set_ne by reflexivity. rewrite dict_get_set_eq.
  cbn [bind]. rewrite Hagain.
  destruct (mask_query_string hc u1 SENSITIVE_KEYS) as [u2|err];
    [|reflexivity].
  cbn [bind py_setitem py_getitem].
  rewrite dict_get_set_ne by reflexivity. rewrite dict_get_set_eq.
  cbn [bind]. rewrite Hs'. cbn [bind py_setitem].
  rewrite (dict_set_same "response")
    by (rewrite dict_get_set_ne by reflexivity; apply dict_get_set_eq).
  reflexivity.
Qed.

(** A sanitized entry is a fixed point exactly when its request URL is. *)
Lemma sanitize_entry_fixed_iff (e e1 : value) :
  sanitize_entry hc e = Ok e1 ->
  sanitize_entry hc e1 = Ok e1 <-> url_stable hc e1.
Proof.
  intros H. apply sanitize_entry_again in H
    as (de & dr & u1 & -> & Hr & Hu & ->).
  unfold url_stable, get2. cbn [get]. rewrite Hr. cbn [get]. rewrite Hu.
  split.
  - intros H. exists u1. split; [reflexivity|].
    destruct (mask_query_string hc u1 SENSITIVE_KEYS) as [u2|err];
      [|discriminate].
    cbn [bind] in H. injection H as H.
    assert (E : dict_get "request"
                  (dict_set "request" (VDict (dict_set "url" u2 dr)) de)
                = Some (VDict dr)) by now rewrite H.
    rewrite dict_get_set_eq in E. injection E as E.
    assert (E' : dict_get "url" (dict_set "url" u2 dr) = Some u1)
      by now rewrite E.
    rewrite dict_get_set_eq in E'. now injection E' as ->.
  - intros (u & [= <-] & ->). cbn [bind].
    rewrite (dict_set_same "url") by assumption.
    now rewrite (dict_set_same "request") by assumption.
Qed.

(** On a sanitized document a second pass runs [sanitize_entry] on the
    entries the first pass wrote, and writes the list back where it was: it
    returns the document exactly when it returns each entry. *)
Lemma second_pass_entrywise (data data1 : value) :
  sanitize_har_object hc data = Ok data1 ->
  exists es1,
    get2 "log" "entries" data1 = Some es1 /\
    (sanitize_har_object hc data1 = Ok data1 <->
     Forall (fun e1 => sanitize_entry hc e1 = Ok e1) (items es1)).
Proof.
  intros H.
  destruct (sanitize_har_object_entries hc data data1 H)
    as (es & es1 & _ & Hes1 & _ & _ & HF).
  exists es1. split; [assumption|].
  apply sanitize_har_object_inv in H
    as (d & l & es0 & es1' & -> & Hlog & Hes & Hloop & ->).
  assert (es1' = es1) as ->.
  { unfold get2 in Hes1. cbn [get] in Hes1.
    rewrite dict_get_set_eq in Hes1. cbn [get] in Hes1.
    rewrite dict_get_set_eq in Hes1. now injection Hes1. }
  clear Hes1.
  assert (Hrun :
    sanitize_har_object hc
      (VDict (dict_set "log" (VDict (dict_set "entries" es1 l)) d))
    = (es2 <- for_each (sanitize_entry hc) es1 ;;
       Ok (VDict (dict_set "log" (VDict (dict_set "entries" es2 l)) d)))).
  { unfold sanitize_har_object. cbn [py_getitem].
    rewrite !dict_get_set_eq. cbn [bind py_getitem].
    rewrite dict_get_set_eq. cbn [bind].
    destruct (for_each (sanitize_entry hc) es1); [|reflexivity].
    cbn [bind py_setitem]. now rewrite !dict_set_twice. }
  rewrite Hrun. clear Hrun.
  assert (Hloop1 :
    for_each (sanitize_entry hc) es1 = Ok es1 <->
    Forall (fun e1 => sanitize_entry hc e1 = Ok e1) (items es1)).
  { destruct es0 as [| | | | | | l0 |];
      try (pose proof Hloop as H';
           apply for_each_not_list in H' as [-> _]; [|discriminate];
           split; [constructor | intros _; exact Hloop]).
    apply for_each_list in Hloop as (l1 & -> & _).
    rewrite for_each_list. cbn [items]. split.
    - intros (l' & [= <-] & HF'). clear HF.
      induction l1 as [|y l1 IH]; constructor; inversion HF'; subst; auto.
    - intros Hall. exists l1. split; [reflexivity|]. clear HF.
      induction Hall; constructor; auto. }
  rewrite <- Hloop1. split.
  - intros H2. destruct (for_each (sanitize_entry hc) es1) as [es2|];
      [|discriminate].
    cbn [bind] in H2. injection H2 as H2. f_equal.
    assert (E : dict_get "log"
                  (dict_set "log" (VDict (dict_set "entries" es2 l)) d)
                = Some (VDict (dict_set "entries" es1 l)))
      by (rewrite H2; apply dict_get_set_eq).
    rewrite dict_get_set_eq in E. injection E as E.
    assert (E' : dict_get "entries" (dict_set "entries" es2 l) = Some es1)
      by (rewrite E; apply dict_get_set_eq).
    rewrite dict_get_set_eq in E'. now injection E'.
  - intros ->. reflexivity.
Qed.

(** C3, as the code has it.  On a sanitized document a second pass can only
    re-mask the request URLs: every other rule finds its field already
    redacted.  So sanitizing twice gives what sanitizing once gave exactly
    when [mask_query_string] maps each already-masked request URL to
    itself. *)
Theorem second_pass_fixed_iff_urls_stable (data data1 : value) :
  sanitize_har_object hc data = Ok data1 ->
  exists es1,
    get2 "log" "entries" data1 = Some es1 /\
    (sanitize_har_object hc data1 = Ok data1 <->
     Forall (url_stable hc) (items es1)).
Proof.
  intros H.
  destruct (second_pass_entrywise data data1 H) as (es1 & Hes1 & Hiff).
  exists es1. split; [assumption|]. rewrite Hiff.
  destruct (sanitize_har_object_entries hc data data1 H)
    as (es & es1' & _ & Hes1' & _ & _ & HF).
  rewrite Hes1 in Hes1'. injection Hes1' as <-.
  clear -HF. induction HF as [|e e1 le le1 He _ IH];
    [split; constructor|].
  pose proof (sanitize_entry_fixed_iff e e1 He) as Hiff.
  split; intros Hall; inversion Hall; subst; constructor; tauto.
Qed.

End SecondPass.

(** ** Re-encoding *)

Lemma split_once_absent (c : ascii) (s : string) :
  str_contains c s = false -> split_once c s = None.
Proof.
  unfold str_contains. induction s as [|a s IH]; simpl; [reflexivity|].
  rewrite Ascii.eqb_sym. destruct (Ascii.eqb a c); simpl; [discriminate|].
  intros H. now rewrite IH.
Qed.

Lemma split_once_last (c : ascii) (s : string) :
  str_contains c s = false ->
  split_once c (s ++ String c EmptyString) = Some (s, EmptyString).
Proof.
  unfold str_contains. induction s as [|a s IH]; simpl.
  - now rewrite Ascii.eqb_refl.
  - rewrite Ascii.eqb_sym. destruct (Ascii.eqb a c); simpl; [discriminate|].
    intros H. now rewrite IH.
Qed.

Section Reencoding.

Variable hc : host_checks.

(** C10.  [mask_query_string] is not the identity on a URL without sensitive
    parameters.  A field with an empty value ([name=]) or without [=]
    yields no parameter, so it is gone from the re-encoded query, and
    percent-encoding is rewritten ([%7E] to [~], [%20] to [+]); and there is
    a request, no query parameter of which is sensitive, whose [url] after
    [sanitize_request] differs from its [url] before. *)
Theorem url_without_sensitive_keys_rewritten :
  (forall name, str_contains "=" name = false ->
     parse_field name = [] /\ parse_field (name ++ "=") = []) /\
  mask_query_string hc (VStr "http://x/?foo=&bar") SENSITIVE_KEYS
  = Ok (VStr "http://x/") /\
  mask_query_string hc (VStr "http://x/?a=%7E&b=c%20d") SENSITIVE_KEYS
  = Ok (VStr "http://x/?a=~&b=c+d") /\
  exists request request' url url' p,
    get "url" request = Some (VStr url) /\
    urlparse hc url = Ok p /\
    (forall k, In k SENSITIVE_KEYS -> qd_get k (parse_qs (query p)) = None) /\
    sanitize_request hc request = Ok request' /\
    get "url" request' = Some (VStr url') /\
    url' <> url.
Proof.
  split; [|split; [|split]].
  - intros name Hname. unfold parse_field.
    rewrite split_once_absent, split_once_last by assumption.
    split; [destruct name; reflexivity|].
    cbn [is_empty]. now destruct (is_empty (name ++ "=")).
  - reflexivity.
  - reflexivity.
  - exists sample_request.
    eexists. exists "https://svc/path?foo=&bar=1". eexists. eexists.
    split; [reflexivity|]. split; [reflexivity|].
    split; [intros k [<-|[<-|[<-|[]]]]; reflexivity|].
    split; [reflexivity|]. split; [reflexivity|]. discriminate.
Qed.

End Reencoding.

(** ** The theorems at concrete documents *)

(** The scenario of C1: the initiator URL carries a signature, and is
    still there after sanitizing. *)
Lemma initiator_left_unchanged_witness :
  sanitize_har_object no_host_checks sample_document = Ok sample_sanitized /\
  exists es es',
    get2 "log" "entries" sample_document = Some es /\
    get2 "log" "entries" sample_sanitized = Some es' /\
    Forall2 (fun e e' =>
               forall i, get "_initiator" e = Some i ->
                         get "_initiator" e' = Some i)
            (items es) (items es').
Proof.
  split; [vm_compute; reflexivity|].
  apply (initiator_left_unchanged no_host_checks sample_document
           sample_sanitized).
  vm_compute; reflexivity.
Defined.


Lemma structure_preserved_witness :
  sanitize_har_object no_host_checks sample_document = Ok sample_sanitized /\
  har_frame sample_document sample_sanitized.
Proof.
  split; [vm_compute; reflexivity|].
  apply (structure_preserved no_host_checks). vm_compute; reflexivity.
Defined.

Lemma authorization_header_redacted_witness :
  exists request' hs hs',
    sanitize_request no_host_checks sample_request = Ok request' /\
    get "headers" sample_request = Some (VList hs) /\
    get "headers" request' = Some (VList hs') /\
    Forall2 header_redacted hs hs' /\
    hs' = [VDict [("name", VStr "Authorization"); ("value", VStr "REDACTED");
                  ("comment", VStr "c")];
           VDict [("name", VStr "authorization");
                  ("value", VStr "Bearer abc")]].
Proof.
  destruct (sanitize_request no_host_checks sample_request) as [r'|] eqn:E;
    [|vm_compute in E; discriminate E].
  destruct (authorization_header_redacted no_host_checks sample_request r'
              _ E eq_refl) as (hs' & Hhs' & HF).
  exists r'. eexists. exists hs'.
  split; [reflexivity|]. split; [reflexivity|]. split; [exact Hhs'|].
  split; [exact HF|].
  vm_compute in E. injection E as <-. vm_compute in Hhs'. now injection Hhs'.
Defined.

Lemma missing_required_key_aborts_witness :
  document_lacks_required document_without_response = true /\
  document_shaped no_host_checks document_without_response = true /\
  is_ok (sanitize_har_object no_host_checks document_without_response) = false /\
  sanitize_har_object no_host_checks document_without_response
  = Raise KeyError.
Proof.
  destruct (missing_required_key_aborts no_host_checks
              document_without_response eq_refl) as [H1 H2].
  split; [reflexivity|]. split; [vm_compute; reflexivity|].
  split; [exact H1|]. apply H2. vm_compute; reflexivity.
Defined.

Lemma missing_url_aborts_witness :
  existsb entry_lacks_url
    (items (VList [full_entry "https://svc/a";
                   VDict [("_initiator", VDict []);
                          ("request",
                           VDict [("headers", VList []);
                                  ("queryString", VList [])]);
                          ("response", VDict [("content", VDict [])])]]))
  = true /\
  document_shaped no_host_checks document_without_url = true /\
  is_ok (sanitize_har_object no_host_checks document_without_url) = false /\
  sanitize_har_object no_host_checks document_without_url = Raise KeyError.
Proof.
  destruct (missing_url_aborts no_host_checks document_without_url _
              eq_refl eq_refl) as [H1 H2].
  split; [reflexivity|]. split; [vm_compute; reflexivity|].
  split; [exact H1|]. apply H2. vm_compute; reflexivity.
Defined.

(** The example of C7: [a=1&a=2] with [a] sensitive. *)
Lemma repeated_values_all_masked_witness :
  mask_query_string no_host_checks (VStr "http://h/?a=1&a=2") ["a"]
  = Ok (VStr "http://h/?a=REDACTED&a=REDACTED") /\
  exists masked,
    mask_query_string no_host_checks (VStr "http://h/?a=1&a=2") ["a"]
    = Ok (VStr (urlunparse "http" "h" "/" ""
                  (join "&" (map encode_pair (qd_pairs masked))) "")) /\
    qd_get "a" masked = Some (repeat "REDACTED" 2) /\
    filter (fun kv => String.eqb (fst kv) "a") (qd_pairs masked)
    = repeat ("a", "REDACTED") 2.
Proof.
  assert (E : mask_query_string no_host_checks (VStr "http://h/?a=1&a=2")
                ["a"]
              = Ok (VStr "http://h/?a=REDACTED&a=REDACTED"))
    by (vm_compute; reflexivity).
  split; [exact E|].
  destruct (repeated_values_all_masked no_host_checks "http://h/?a=1&a=2"
              ["a"]
              {| scheme := "http"; netloc := "h"; path := "/"; params := "";
                 query := "a=1&a=2"; fragment := "" |} "a" ["1"; "2"])
    as (masked & Hm & Hg & Hf).
  - vm_compute; reflexivity.
  - vm_compute; reflexivity.
  - now left.
  - exists masked. split; [|split; assumption].
    destruct (qd_has_surrogate masked); [|exact Hm].
    rewrite E in Hm. discriminate Hm.
Defined.

Lemma second_pass_fixed_iff_urls_stable_witness :
  sanitize_har_object no_host_checks sample_document = Ok sample_sanitized /\
  exists es1,
    get2 "log" "entries" sample_sanitized = Some es1 /\
    (sanitize_har_object no_host_checks sample_sanitized = Ok sample_sanitized
     <-> Forall (url_stable no_host_checks) (items es1)).
Proof.
  split; [vm_compute; reflexivity|].
  apply (second_pass_fixed_iff_urls_stable no_host_checks sample_document).
  vm_compute; reflexivity.
Defined.

(** C3 fails at the request URL [////]: the first pass rewrites it to [//]
    ([urlparse] reads an empty network location and the path [//], which
    [urlunparse] writes back without the two slashes of the empty location),
    and the second pass reads [//] as an empty network location and an empty
    path, and writes the empty URL. *)
Lemma sanitize_twice_differs :
  sanitize_har_object no_host_checks slashes_document = Ok slashes_once /\
  sanitize_har_object no_host_checks slashes_once = Ok slashes_twice /\
  request_urls slashes_once = [Some (VStr "//")] /\
  request_urls slashes_twice = [Some (VStr "")] /\
  slashes_twice <> slashes_once.
Proof.
  split; [vm_compute; reflexivity|]. split; [vm_compute; reflexivity|].
  split; [reflexivity|]. split; [reflexivity|].
  intros H. apply (f_equal request_urls) in H. discriminate H.
Qed.

(** ** Further properties of the redaction rules *)

Lemma py_in_str_set_true (x : value) (S : list string) (b : bool) :
  py_in_str_set x S = Ok b ->
  b = true <-> exists s, x = VStr s /\ In s S.
Proof.
  destruct x; simpl; try discriminate; intros [= <-];
    try (split; [discriminate | intros (s' & [=] & _)]).
  rewrite existsb_exists. split.
  - intros (y & Hy & E). apply String.eqb_eq in E. subst. eauto.
  - intros (y & [= <-] & Hy). exists s. split; [assumption|].
    apply String.eqb_refl.
Qed.

Section Rules.

Variable hc : host_checks.

(** Query-string entries: in a request that was sanitized successfully, an
    entry whose [name] is one of [SENSITIVE_KEYS] has its [value] set to
    ["REDACTED"] and nothing else changed; any other entry is left as it
    was. *)
Theorem sensitive_query_entries_redacted (request request' : value)
        (qs : list value) :
  sanitize_request hc request = Ok request' ->
  get "queryString" request = Some (VList qs) ->
  exists qs',
    get "queryString" request' = Some (VList qs') /\
    Forall2 query_entry_redacted qs qs'.
Proof.
  intros H Hqs. apply sanitize_request_inv in H
    as (d & dp & hs & hs' & qs0 & qs0' & u & u' &
        -> & _ & _ & _ & Hqs0 & Hloop & _ & _ & ->).
  cbn [get] in Hqs. rewrite Hqs0 in Hqs. injection Hqs as ->.
  apply for_each_list in Hloop as (qs' & -> & HF).
  exists qs'. split; [dict_simpl; reflexivity|].
  eapply Forall2_impl; [|exact HF].
  intros q q' Hq. apply sanitize_qs_inv in Hq
    as (dq & n & b & -> & Hn & Hb & ->).
  exists dq, n. split; [reflexivity|]. split; [assumption|].
  apply py_in_str_set_true in Hb. split.
  - intros Hs. apply Hb in Hs. now subst.
  - intros Hs. destruct b; [|reflexivity]. exfalso. apply Hs. now apply Hb.
Qed.

(** [postData]: when a request has it, its [text] is ["REDACTED"]
    afterwards; when it has none, none is added. *)
Theorem post_data_text_redacted (request request' : value) :
  sanitize_request hc request = Ok request' ->
  match get "postData" request with
  | Some _ => get2 "postData" "text" request' = Some (VStr "REDACTED")
  | None => get "postData" request' = None
  end.
Proof.
  intros H. apply sanitize_request_inv in H
    as (d & dp & hs & hs' & qs & qs' & u & u' &
        -> & Hdp & _ & _ & _ & _ & _ & _ & ->).
  unfold post_data_redacted in Hdp. unfold get2. cbn [get].
  rewrite !dict_get_set_ne by reflexivity.
  destruct (dict_get "postData" d) as [p|] eqn:Ep.
  - destruct Hdp as (pd & -> & ->). dict_simpl. reflexivity.
  - now subst dp.
Qed.

(** Masking touches the sensitive names only: every other parameter of the
    parsed query keeps its values, and the names keep their order.  The URL
    returned is written from these parameters; none is returned when one of
    them holds a surrogate, which [urlencode] cannot encode. *)
Theorem other_parameters_kept (url : string) (masked_keys : list string)
        (p : ParseResult) :
  urlparse hc url = Ok p ->
  exists masked,
    mask_query_string hc (VStr url) masked_keys
    = (if qd_has_surrogate masked then Raise UnicodeEncodeError
       else Ok (VStr (urlunparse (scheme p) (netloc p) (path p) (params p)
                        (urlencode_text masked) (fragment p)))) /\
    map fst masked = map fst (parse_qs (query p)) /\
    forall k, ~ In k masked_keys ->
              qd_get k masked = qd_get k (parse_qs (query p)).
Proof.
  intros Hp. exists (mask_params masked_keys (parse_qs (query p))).
  split; [|split].
  - cbn [mask_query_string]. rewrite mask_url_eq, Hp. cbn [bind].
    now destruct (qd_has_surrogate _).
  - apply mask_params_keys.
  - intros k Hk. now apply mask_params_get_other.
Qed.


End Rules.

Lemma sensitive_query_entries_redacted_witness :
  exists request' qs qs',
    sanitize_request no_host_checks
      (VDict [("url", VStr "https://svc/a"); ("headers", VList []);
              ("queryString",
               VList [VDict [("name", VStr "X-Amz-Signature");
                             ("value", VStr "sig")];
                      VDict [("name", VStr "x-amz-signature");
                             ("value", VStr "kept")]])])
    = Ok request' /\
    get "queryString" request' = Some (VList qs') /\
    Forall2 query_entry_redacted qs qs' /\
    qs' = [VDict [("name", VStr "X-Amz-Signature");
                  ("value", VStr "REDACTED")];
           VDict [("name", VStr "x-amz-signature");
                  ("value", VStr "kept")]].
Proof.
  match goal with |- context [sanitize_request ?h ?r] =>
    destruct (sanitize_request h r) as [r'|] eqn:E;
      [|vm_compute in E; discriminate E];
    destruct (sensitive_query_entries_redacted h r r' _ E eq_refl)
      as (qs' & Hqs' & HF)
  end.
  exists r'. eexists. exists qs'.
  split; [reflexivity|]. split; [exact Hqs'|]. split; [exact HF|].
  vm_compute in E. injection E as <-. vm_compute in Hqs'. now injection Hqs'.
Defined.

Lemma post_data_text_redacted_witness :
  exists request',
    sanitize_request no_host_checks
      (VDict [("url", VStr "https://svc/a"); ("headers", VList []);
              ("queryString", VList []);
              ("postData", VDict [("text", VStr "password=hunter2")])])
    = Ok request' /\
    get2 "postData" "text" request' = Some (VStr "REDACTED").
Proof.
  match goal with |- context [sanitize_request ?h ?r] =>
    destruct (sanitize_request h r) as [r'|] eqn:E;
      [|vm_compute in E; discriminate E];
    pose proof (post_data_text_redacted h r r' E) as H
  end.
  exists r'. split; [reflexivity | exact H].
Defined.

(** The "query masking round-trip" of the specification. *)
Lemma other_parameters_kept_witness :
  mask_query_string no_host_checks
    (VStr "https://x.example/a?X-Amz-Signature=secret123&foo=bar")
    SENSITIVE_KEYS
  = Ok (VStr "https://x.example/a?X-Amz-Signature=REDACTED&foo=bar") /\
  exists masked,
    mask_query_string no_host_checks
      (VStr "https://x.example/a?X-Amz-Signature=secret123&foo=bar")
      SENSITIVE_KEYS
    = Ok (VStr (urlunparse "https" "x.example" "/a" "" (urlencode_text masked) ""))
    /\
    map fst masked = ["X-Amz-Signature"; "foo"] /\
    forall k, ~ In k SENSITIVE_KEYS ->
              qd_get k masked
              = qd_get k [("X-Amz-Signature", ["secret123"]); ("foo", ["bar"])].
Proof.
  assert (E : mask_query_string no_host_checks
                (VStr "https://x.example/a?X-Amz-Signature=secret123&foo=bar")
                SENSITIVE_KEYS
              = Ok (VStr "https://x.example/a?X-Amz-Signature=REDACTED&foo=bar"))
    by (vm_compute; reflexivity).
  split; [exact E|].
  destruct (other_parameters_kept no_host_checks
              "https://x.example/a?X-Amz-Signature=secret123&foo=bar"
              SENSITIVE_KEYS
              {| scheme := "https"; netloc := "x.example"; path := "/a";
                 params := ""; query := "X-Amz-Signature=secret123&foo=bar";
                 fragment := "" |})
    as (masked & Hm & Hk & Hg); [vm_compute; reflexivity|].
  exists masked. split; [|split; assumption].
  destruct (qd_has_surrogate masked); [|exact Hm].
  rewrite E in Hm. discriminate Hm.
Defined.

(** * Masked URLs are fixed points *)

(** ** Strings *)

Lemma str_app_assoc (a b c : string) : (a ++ b) ++ c = a ++ (b ++ c).
Proof. induction a as [|x a IH]; simpl; [reflexivity | now rewrite IH]. Qed.

Lemma str_app_nil_r (a : string) : a ++ "" = a.
Proof. induction a as [|x a IH]; simpl; [reflexivity | now rewrite IH]. Qed.

Lemma str_forallb_app (p : ascii -> bool) (a b : string) :
  str_forallb p (a ++ b) = str_forallb p a && str_forallb p b.
Proof.
  induction a as [|x a IH]; simpl; [reflexivity|].
  now rewrite IH, andb_assoc.
Qed.

Lemma str_existsb_app (p : ascii -> bool) (a b : string) :
  str_existsb p (a ++ b) = str_existsb p a || str_existsb p b.
Proof.
  induction a as [|x a IH]; simpl; [reflexivity|].
  now rewrite IH, orb_assoc.
Qed.

Lemma str_contains_app (c : ascii) (a b : string) :
  str_contains c (a ++ b) = str_contains c a || str_contains c b.
Proof. apply str_existsb_app. Qed.

(** A string all of whose characters satisfy [p] has no character that
    fails [p]. *)
Lemma str_forallb_contains (p : ascii -> bool) (c : ascii) (s : string) :
  str_forallb p s = true -> p c = false -> str_contains c s = false.
Proof.
  unfold str_contains. intros Hs Hc.
  induction s as [|x s IH]; simpl in *; [reflexivity|].
  apply andb_true_iff in Hs as [Hx Hs]. rewrite (IH Hs), orb_false_r.
  destruct (Ascii.eqb c x) eqn:E; [|reflexivity].
  apply Ascii.eqb_eq in E. congruence.
Qed.

Lemma str_forallb_impl (p q : ascii -> bool) (s : string) :
  (forall c, p c = true -> q c = true) ->
  str_forallb p s = true -> str_forallb q s = true.
Proof.
  intros Hpq. induction s as [|x s IH]; simpl; [reflexivity|].
  intros H. apply andb_true_iff in H as [Hx Hs].
  now rewrite (Hpq x Hx), IH.
Qed.

Lemma str_filter_id (p : ascii -> bool) (s : string) :
  str_forallb p s = true -> str_filter p s = s.
Proof.
  induction s as [|x s IH]; simpl; [reflexivity|].
  intros H. apply andb_true_iff in H as [Hx Hs]. now rewrite Hx, IH.
Qed.

Lemma str_forallb_filter (p q : ascii -> bool) (s : string) :
  str_forallb p s = true -> str_forallb p (str_filter q s) = true.
Proof.
  induction s as [|x s IH]; simpl; [reflexivity|].
  intros H. apply andb_true_iff in H as [Hx Hs].
  destruct (q x); simpl; [rewrite Hx|]; auto.
Qed.

Lemma str_forallb_filter_self (p : ascii -> bool) (s : string) :
  str_forallb p (str_filter p s) = true.
Proof.
  induction s as [|x s IH]; simpl; [reflexivity|].
  destruct (p x) eqn:E; simpl; [rewrite E|]; auto.
Qed.

Lemma str_forallb_lstrip (p q : ascii -> bool) (s : string) :
  str_forallb p s = true -> str_forallb p (lstrip q s) = true.
Proof.
  induction s as [|x s IH]; simpl; [reflexivity|].
  intros H. destruct (q x); [|exact H].
  apply andb_true_iff in H as [_ Hs]. auto.
Qed.

Lemma str_forallb_map (p : ascii -> bool) (f : ascii -> ascii) (s : string) :
  (forall c, p c = true -> p (f c) = true) ->
  str_forallb p s = true -> str_forallb p (str_map f s) = true.
Proof.
  intros Hf. induction s as [|x s IH]; simpl; [reflexivity|].
  intros H. apply andb_true_iff in H as [Hx Hs]. now rewrite Hf, IH.
Qed.

Lemma split_once_inv (c : ascii) (s l r : string) :
  split_once c s = Some (l, r) ->
  s = l ++ String c r /\ str_contains c l = false.
Proof.
  unfold str_contains. revert l.
  induction s as [|a s IH]; intros l; simpl; [discriminate|].
  destruct (Ascii.eqb a c) eqn:E.
  - intros [= <- <-]. apply Ascii.eqb_eq in E. now subst.
  - destruct (split_once c s) as [[l' r']|]; [|discriminate].
    intros [= <- <-]. destruct (IH l' eq_refl) as [-> Hl]. simpl.
    now rewrite Ascii.eqb_sym, E, Hl.
Qed.

Lemma split_once_app (c : ascii) (x y : string) :
  str_contains c x = false ->
  split_once c (x ++ String c y) = Some (x, y).
Proof.
  unfold str_contains. induction x as [|a x IH]; simpl.
  - now rewrite Ascii.eqb_refl.
  - rewrite Ascii.eqb_sym. destruct (Ascii.eqb a c); simpl; [discriminate|].
    intros H. now rewrite IH.
Qed.

Lemma split_all_absent (c : ascii) (s : string) :
  str_contains c s = false -> split_all c s = [s].
Proof.
  unfold str_contains. induction s as [|a s IH]; simpl; [reflexivity|].
  rewrite Ascii.eqb_sym. destruct (Ascii.eqb a c); simpl; [discriminate|].
  intros H. now rewrite IH.
Qed.

Lemma split_all_app (c : ascii) (x y : string) :
  str_contains c x = false ->
  split_all c (x ++ String c y) = x :: split_all c y.
Proof.
  unfold str_contains. induction x as [|a x IH]; simpl.
  - rewrite Ascii.eqb_refl. destruct (split_all c y) eqn:E; [|reflexivity].
    destruct y; simpl in E; [discriminate|].
    destruct (split_all c y); [discriminate|].
    destruct (Ascii.eqb a c); discriminate.
  - rewrite Ascii.eqb_sym. destruct (Ascii.eqb a c); simpl; [discriminate|].
    intros H. now rewrite IH.
Qed.

Lemma split_all_join (c : ascii) (l : list string) :
  l <> [] -> Forall (fun x => str_contains c x = false) l ->
  split_all c (join (String c "") l) = l.
Proof.
  intros Hne Hall. induction Hall as [|x l Hx Hall IH]; [congruence|].
  destruct l as [|y l]; simpl.
  - now apply split_all_absent.
  - change (x ++ String c (join (String c "") (y :: l)))
      with (x ++ String c (join (String c "") (y :: l))).
    rewrite split_all_app by assumption. f_equal. apply IH. discriminate.
Qed.

(** ** Decoding and encoding *)

Lemma decode_ascii (s : string) :
  str_forallb is_ascii s = true -> decode_utf8_replace s = s.
Proof.
  induction s as [|a s IH]; [reflexivity|].
  cbn [str_forallb]. intros H. apply andb_true_iff in H as [Ha Hs].
  cbn [decode_utf8_replace]. unfold utf8_len. rewrite Ha. now rewrite IH.
Qed.

(** One step of the decoder: what it emits, and where it resumes. *)
Lemma decode_step (a : ascii) (t : string) :
  exists pre rest,
    decode_utf8_replace (String a t) = pre ++ decode_utf8_replace rest /\
    String.length rest <= String.length t /\ pre <> "" /\
    forall x, decode_utf8_replace (pre ++ x) = pre ++ decode_utf8_replace x.
Proof.
  assert (Hrep : forall x, decode_utf8_replace (replacement ++ x)
                           = replacement ++ decode_utf8_replace x)
    by reflexivity.
  assert (Hne : replacement <> "") by discriminate.
  assert (Hkeep : forall pre rest,
            String.length rest <= String.length t -> pre <> "" ->
            (forall x, decode_utf8_replace (pre ++ x)
                       = pre ++ decode_utf8_replace x) ->
            exists pre' rest',
              pre ++ decode_utf8_replace rest
              = pre' ++ decode_utf8_replace rest' /\
              String.length rest' <= String.length t /\ pre' <> "" /\
              forall x, decode_utf8_replace (pre' ++ x)
                        = pre' ++ decode_utf8_replace x)
    by (intros pre rest; eauto 6).
  assert (Hrepl : forall r, String.length r <= String.length t ->
            exists pre' rest',
              replacement ++ decode_utf8_replace r
              = pre' ++ decode_utf8_replace rest' /\
              String.length rest' <= String.length t /\ pre' <> "" /\
              forall x, decode_utf8_replace (pre' ++ x)
                        = pre' ++ decode_utf8_replace x)
    by (intros r Hr; apply Hkeep; auto).
  cbn [decode_utf8_replace].
  destruct (utf8_len a) as [|[|[|[|[|n]]]]] eqn:L.
  - apply Hrepl. lia.
  - apply (Hkeep (String a "") t); [lia | discriminate|].
    intros x. cbn [append decode_utf8_replace]. now rewrite L.
  - destruct t as [|b t1]; [apply (Hrepl ""); simpl; lia|].
    destruct (utf8_cont b) eqn:Cb; [|apply Hrepl; lia].
    apply (Hkeep (String a (String b "")) t1); [simpl; lia | discriminate|].
    intros x. cbn [append decode_utf8_replace]. now rewrite L, Cb.
  - destruct t as [|b t1]; [apply (Hrepl ""); simpl; lia|].
    destruct (utf8_second_ok a b) eqn:Cb; [|apply Hrepl; lia].
    destruct t1 as [|c t2]; [apply (Hrepl ""); simpl; lia|].
    destruct (utf8_cont c) eqn:Cc; [|apply Hrepl; simpl; lia].
    apply (Hkeep (String a (String b (String c ""))) t2);
      [simpl; lia | discriminate|].
    intros x. cbn [append decode_utf8_replace]. now rewrite L, Cb, Cc.
  - destruct t as [|b t1]; [apply (Hrepl ""); simpl; lia|].
    destruct (utf8_second_ok a b) eqn:Cb; [|apply Hrepl; lia].
    destruct t1 as [|c t2]; [apply (Hrepl ""); simpl; lia|].
    destruct (utf8_cont c) eqn:Cc; [|apply Hrepl; simpl; lia].
    destruct t2 as [|d t3]; [apply (Hrepl ""); simpl; lia|].
    destruct (utf8_cont d) eqn:Cd; [|apply Hrepl; simpl; lia].
    apply (Hkeep (String a (String b (String c (String d "")))) t3);
      [simpl; lia | discriminate|].
    intros x. cbn [append decode_utf8_replace]. now rewrite L, Cb, Cc, Cd.
  - apply Hrepl. lia.
Qed.

(** Decoding yields well-formed UTF-8, which decoding leaves as it is. *)
Lemma decode_idempotent (s : string) :
  decode_utf8_replace (decode_utf8_replace s) = decode_utf8_replace s.
Proof.
  remember (String.length s) as n eqn:Hn.
  assert (Hle : String.length s <= n) by lia. clear Hn. revert s Hle.
  induction n as [|n IH]; intros s Hle.
  - destruct s; [reflexivity | simpl in Hle; lia].
  - destruct s as [|a t]; [reflexivity|]. simpl in Hle.
    destruct (decode_step a t) as (pre & rest & -> & Hlen & _ & Hpre).
    rewrite Hpre. f_equal. apply IH. lia.
Qed.

Lemma decode_nonempty (s : string) :
  s <> "" -> decode_utf8_replace s <> "".
Proof.
  destruct s as [|a t]; [congruence|]. intros _.
  destruct (decode_step a t) as (pre & rest & -> & _ & Hne & _).
  destruct pre; [congruence | discriminate].
Qed.

Lemma unquote_to_bytes_other (a : ascii) (t : string) :
  Ascii.eqb a "%" = false ->
  unquote_to_bytes (String a t) = String a (unquote_to_bytes t).
Proof.
  intros H. cbn [unquote_to_bytes]. rewrite H.
  destruct t as [|h1 [|h2 t']]; reflexivity.
Qed.

Lemma unquote_to_bytes_plain (s : string) :
  str_contains "%" s = false -> unquote_to_bytes s = s.
Proof.
  unfold str_contains. induction s as [|a s IH]; [reflexivity|].
  cbn [str_existsb]. intros H. apply orb_false_iff in H as [Ha Hs].
  rewrite unquote_to_bytes_other by now rewrite Ascii.eqb_sym.
  now rewrite IH.
Qed.

Lemma unquote_to_bytes_nonempty (s : string) :
  s <> "" -> unquote_to_bytes s <> "".
Proof.
  destruct s as [|a t]; [congruence|]. intros _. cbn [unquote_to_bytes].
  destruct t as [|h1 [|h2 t']]; try discriminate.
  destruct (Ascii.eqb a "%"), (hexval h1), (hexval h2); discriminate.
Qed.

Lemma unquote_runs_ascii (run s : string) :
  str_forallb is_ascii s = true ->
  unquote_runs run s = decode_utf8_replace (unquote_to_bytes (run ++ s)).
Proof.
  revert run. induction s as [|a s IH]; intros run; cbn [unquote_runs].
  - now rewrite str_app_nil_r.
  - cbn [str_forallb]. intros H. apply andb_true_iff in H as [Ha Hs].
    rewrite Ha, IH by assumption. now rewrite str_app_assoc.
Qed.

(** On an ASCII string, [unquote] is percent-decoding followed by UTF-8
    decoding. *)
Lemma unquote_ascii (s : string) :
  str_forallb is_ascii s = true ->
  unquote s = decode_utf8_replace (unquote_to_bytes s).
Proof.
  intros H. unfold unquote. destruct (str_contains "%" s) eqn:E; simpl.
  - now apply unquote_runs_ascii.
  - now rewrite unquote_to_bytes_plain, decode_ascii.
Qed.

Ltac each_byte c :=
  destruct c as [[] [] [] [] [] [] [] []].

Lemma quote_plus_byte_chars (c : ascii) :
  str_forallb is_quoted_char (quote_plus_byte c) = true.
Proof. each_byte c; reflexivity. Qed.

Lemma quote_plus_chars (s : string) :
  str_forallb is_quoted_char (quote_bytes s) = true.
Proof.
  induction s as [|c s IH]; [reflexivity|]. cbn [quote_bytes].
  now rewrite str_forallb_app, quote_plus_byte_chars, IH.
Qed.

Lemma is_quoted_char_ascii (c : ascii) :
  is_quoted_char c = true -> is_ascii c = true.
Proof. each_byte c; (reflexivity || discriminate). Qed.

Lemma plus_to_space_app (a b : string) :
  plus_to_space (a ++ b) = plus_to_space a ++ plus_to_space b.
Proof.
  unfold plus_to_space.
  induction a as [|x a IH]; simpl; [reflexivity | now rewrite IH].
Qed.

Lemma plus_to_space_ascii (s : string) :
  str_forallb is_ascii s = true ->
  str_forallb is_ascii (plus_to_space s) = true.
Proof.
  unfold plus_to_space. induction s as [|c s IH]; [reflexivity|].
  cbn [str_forallb str_map]. intros H. apply andb_true_iff in H as [Hc Hs].
  rewrite IH by assumption.
  destruct (Ascii.eqb c "+"); [reflexivity | now rewrite Hc].
Qed.

Lemma plus_to_space_nonempty (s : string) :
  s <> "" -> plus_to_space s <> "".
Proof. destruct s; [congruence | discriminate]. Qed.

Lemma unquote_quote_byte (c : ascii) (r : string) :
  unquote_to_bytes (plus_to_space (quote_plus_byte c) ++ r)
  = String c (unquote_to_bytes r).
Proof.
  each_byte c;
    first [ reflexivity
          | apply unquote_to_bytes_other; reflexivity ].
Qed.

(** Percent-decoding undoes [quote_bytes], byte by byte. *)
Lemma unquote_quote_bytes (s : string) :
  unquote_to_bytes (plus_to_space (quote_bytes s)) = s.
Proof.
  induction s as [|c s IH]; [reflexivity|]. cbn [quote_bytes].
  now rewrite plus_to_space_app, unquote_quote_byte, IH.
Qed.

(** A string that UTF-8 decoding leaves as it is comes back from
    [quote_bytes] and [unquote] (after [+] is read as a space). *)
Lemma unquote_quote_plus (s : string) :
  decode_utf8_replace s = s ->
  unquote (plus_to_space (quote_bytes s)) = s.
Proof.
  intros H. rewrite unquote_ascii.
  - now rewrite unquote_quote_bytes.
  - apply plus_to_space_ascii.
    eapply str_forallb_impl; [apply is_quoted_char_ascii|].
    apply quote_plus_chars.
Qed.

Lemma quote_plus_nonempty (s : string) : s <> "" -> quote_bytes s <> "".
Proof.
  destruct s as [|c s]; [congruence|]. intros _. cbn [quote_bytes].
  each_byte c; discriminate.
Qed.

(** ** Re-parsing an encoded query *)

Lemma quote_plus_no (c : ascii) (s : string) :
  is_quoted_char c = false -> str_contains c (quote_bytes s) = false.
Proof.
  intros Hc. eapply str_forallb_contains; [apply quote_plus_chars | exact Hc].
Qed.

Lemma is_empty_false (s : string) : s <> "" -> is_empty s = false.
Proof. destruct s; [congruence | reflexivity]. Qed.

Lemma parse_field_encode_pair (nv : string * string) :
  parsed_pair nv -> parse_field (encode_pair nv) = [nv].
Proof.
  destruct nv as [n v]. intros (Hn & Hv & Hne). cbn [fst snd] in *.
  unfold parse_field, encode_pair. cbn [fst snd append].
  rewrite split_once_app by now apply quote_plus_no.
  rewrite is_empty_false by (destruct (quote_bytes n); discriminate).
  rewrite is_empty_false by now apply quote_plus_nonempty.
  now rewrite !unquote_quote_plus.
Qed.

Lemma encode_pair_no_amp (nv : string * string) :
  str_contains "&" (encode_pair nv) = false.
Proof.
  unfold encode_pair. cbn [append].
  rewrite str_contains_app, quote_plus_no by reflexivity.
  unfold str_contains. cbn [str_existsb].
  change (str_existsb (Ascii.eqb "&") (quote_bytes (snd nv)))
    with (str_contains "&" (quote_bytes (snd nv))).
  now rewrite quote_plus_no.
Qed.

Lemma encode_pair_nonempty (nv : string * string) : encode_pair nv <> "".
Proof. unfold encode_pair. destruct (quote_bytes (fst nv)); discriminate. Qed.

Lemma join_cons_nonempty (sep x : string) (l : list string) :
  x <> "" -> join sep (x :: l) <> "".
Proof.
  intros Hx. destruct x; [congruence|]. destruct l; discriminate.
Qed.

(** [parse_qsl] reads back the pairs [urlencode] wrote. *)
Lemma parse_qsl_encoded (l : list (string * string)) :
  Forall parsed_pair l ->
  parse_qsl (join "&" (map encode_pair l)) = l.
Proof.
  intros Hl. destruct l as [|nv l]; [reflexivity|]. unfold parse_qsl.
  rewrite is_empty_false.
  2:{ cbn [map]. apply join_cons_nonempty, encode_pair_nonempty. }
  rewrite split_all_join; [|discriminate|].
  2:{ apply Forall_forall. intros x Hx. apply in_map_iff in Hx as (y & <- & _).
      apply encode_pair_no_amp. }
  induction Hl as [|x l' Hx _ IH]; [reflexivity|].
  cbn [map flat_map]. rewrite parse_field_encode_pair by assumption.
  now rewrite IH.
Qed.

Lemma qd_get_last (k : string) (ws : list string) (acc : qdict) :
  ~ In k (map fst acc) ->
  qd_get k (acc ++ [(k, ws)])%list = Some ws.
Proof.
  induction acc as [|[k0 v0] acc IH]; simpl.
  - now rewrite String.eqb_refl.
  - intros H. destruct (String.eqb k k0) eqn:E.
    + apply String.eqb_eq in E. subst. tauto.
    + apply IH. tauto.
Qed.

Lemma qd_set_last (k : string) (ws ws' : list string) (acc : qdict) :
  ~ In k (map fst acc) ->
  qd_set k ws' (acc ++ [(k, ws)])%list = (acc ++ [(k, ws')])%list.
Proof.
  induction acc as [|[k0 v0] acc IH]; simpl.
  - now rewrite String.eqb_refl.
  - intros H. destruct (String.eqb k k0) eqn:E.
    + apply String.eqb_eq in E. subst. tauto.
    + rewrite IH by tauto. reflexivity.
Qed.

Lemma qd_set_new (k : string) (ws : list string) (acc : qdict) :
  ~ In k (map fst acc) -> qd_set k ws acc = (acc ++ [(k, ws)])%list.
Proof.
  induction acc as [|[k0 v0] acc IH]; simpl; [reflexivity|].
  intros H. destruct (String.eqb k k0) eqn:E.
  - apply String.eqb_eq in E. subst. tauto.
  - rewrite IH by tauto. reflexivity.
Qed.

Lemma fold_qd_add_values (k : string) (ws vs : list string) (acc : qdict) :
  ~ In k (map fst acc) ->
  fold_left qd_add (map (pair k) vs) (acc ++ [(k, ws)])%list
  = (acc ++ [(k, (ws ++ vs)%list)])%list.
Proof.
  intros Hk. revert ws. induction vs as [|v vs IH]; intros ws; simpl.
  - now rewrite app_nil_r.
  - rewrite qd_get_last, qd_set_last by assumption.
    rewrite IH. now rewrite <- app_assoc.
Qed.

(** Grouping the flattened pairs of a dict gives the dict back. *)
Lemma fold_qd_add_pairs (d acc : qdict) :
  NoDup (map fst (acc ++ d)%list) ->
  Forall (fun kvs => snd kvs <> []) d ->
  fold_left qd_add (qd_pairs d) acc = (acc ++ d)%list.
Proof.
  revert acc. induction d as [|[k vs] d IH]; intros acc Hnd Hne.
  - simpl. now rewrite app_nil_r.
  - inversion Hne as [|? ? Hvs Hne']; subst. cbn [snd] in Hvs.
    destruct vs as [|v vs]; [congruence|].
    assert (Hk : ~ In k (map fst acc)).
    { rewrite map_app in Hnd. cbn [map fst] in Hnd.
      apply NoDup_remove_2 in Hnd. intros Hin. apply Hnd.
      apply in_or_app. now left. }
    unfold qd_pairs. cbn [flat_map fst snd map].
    rewrite fold_left_app. cbn [fold_left].
    replace (qd_add acc (k, v)) with (acc ++ [(k, [v])])%list
      by (unfold qd_add; rewrite (proj2 (qd_get_In k acc) Hk);
          now rewrite qd_set_new).
    change (map (fun v0 => (k, v0)) vs) with (map (pair k) vs).
    rewrite fold_qd_add_values by assumption. cbn [app].
    change (flat_map (fun kvs => map (fun v0 => (fst kvs, v0)) (snd kvs)) d)
      with (qd_pairs d).
    rewrite IH; [now rewrite <- app_assoc | | assumption].
    now rewrite <- app_assoc.
Qed.

Lemma parsed_dict_pairs (d : qdict) :
  parsed_dict d -> Forall parsed_pair (qd_pairs d).
Proof.
  unfold parsed_dict, qd_pairs. induction 1 as [|[k vs] d (Hk & _ & Hvs) _ IH].
  - constructor.
  - cbn [flat_map fst snd] in *. apply Forall_app. split; [|exact IH].
    clear IH. induction Hvs as [|v vs [Hv Hne] _ IH]; constructor; auto.
    repeat split; assumption.
Qed.

Lemma parsed_dict_nonempty (d : qdict) :
  parsed_dict d -> Forall (fun kvs => snd kvs <> []) d.
Proof. apply Forall_impl. tauto. Qed.

(** [parse_qs] of the query [urlencode] writes for a dict is that dict. *)
Lemma parse_qs_urlencode (d : qdict) :
  NoDup (map fst d) -> parsed_dict d -> parse_qs (urlencode_text d) = d.
Proof.
  intros Hnd Hd. unfold parse_qs, urlencode_text.
  rewrite parse_qsl_encoded by now apply parsed_dict_pairs.
  now rewrite fold_qd_add_pairs by (assumption || now apply parsed_dict_nonempty).
Qed.

(** *** What [parse_qs] builds from an ASCII query *)

Lemma split_all_forallb (p : ascii -> bool) (c : ascii) (s : string) :
  str_forallb p s = true -> Forall (fun x => str_forallb p x = true) (split_all c s).
Proof.
  induction s as [|a s IH]; cbn [split_all str_forallb].
  - repeat constructor.
  - intros H. apply andb_true_iff in H as [Ha Hs]. specialize (IH Hs).
    destruct (split_all c s) as [|x xs]; [repeat constructor; simpl; now rewrite Ha|].
    inversion IH; subst.
    destruct (Ascii.eqb a c); repeat constructor; auto.
    simpl. now rewrite Ha.
Qed.

Lemma unquote_decoded (s : string) :
  str_forallb is_ascii s = true -> decoded (unquote (plus_to_space s)).
Proof.
  intros H. unfold decoded.
  rewrite unquote_ascii by now apply plus_to_space_ascii.
  apply decode_idempotent.
Qed.

Lemma unquote_nonempty (s : string) :
  str_forallb is_ascii s = true -> s <> "" ->
  unquote (plus_to_space s) <> "".
Proof.
  intros H Hne. rewrite unquote_ascii by now apply plus_to_space_ascii.
  apply decode_nonempty, unquote_to_bytes_nonempty.
  now apply plus_to_space_nonempty.
Qed.

Lemma parse_field_parsed (s : string) :
  str_forallb is_ascii s = true -> Forall parsed_pair (parse_field s).
Proof.
  intros H. unfold parse_field. destruct (is_empty s); [constructor|].
  destruct (split_once "=" s) as [[n v]|] eqn:E; [|constructor].
  apply split_once_inv in E as [-> _].
  rewrite str_forallb_app in H. apply andb_true_iff in H as [Hn Hv].
  cbn [str_forallb] in Hv. apply andb_true_iff in Hv as [_ Hv].
  destruct (is_empty v) eqn:Ev; [constructor|].
  constructor; [|constructor]. split; [|split]; cbn [fst snd].
  - now apply unquote_decoded.
  - now apply unquote_decoded.
  - apply unquote_nonempty; [assumption|]. now destruct v.
Qed.

Lemma parse_qsl_parsed (qs : string) :
  str_forallb is_ascii qs = true -> Forall parsed_pair (parse_qsl qs).
Proof.
  intros H. unfold parse_qsl. destruct (is_empty qs); [constructor|].
  pose proof (split_all_forallb is_ascii "&" qs H) as Hall.
  induction Hall as [|x xs Hx _ IH]; [constructor|].
  cbn [flat_map]. apply Forall_app. split; [now apply parse_field_parsed | exact IH].
Qed.

Lemma parsed_dict_set (k : string) (vs : list string) (d : qdict) :
  decoded k -> vs <> [] -> Forall (fun v => decoded v /\ v <> "") vs ->
  parsed_dict d -> parsed_dict (qd_set k vs d).
Proof.
  intros Hk Hne Hvs. unfold parsed_dict.
  induction 1 as [|[k0 vs0] d H0 Hd IH]; simpl.
  - repeat constructor; assumption.
  - destruct (String.eqb k k0) eqn:E.
    + constructor; [|assumption]. cbn [fst snd] in *. tauto.
    + constructor; assumption.
Qed.

Lemma parsed_dict_get (k : string) (vs : list string) (d : qdict) :
  parsed_dict d -> qd_get k d = Some vs ->
  vs <> [] /\ Forall (fun v => decoded v /\ v <> "") vs /\ decoded k.
Proof.
  unfold parsed_dict. induction 1 as [|[k0 vs0] d H0 _ IH]; simpl; [discriminate|].
  destruct (String.eqb k k0) eqn:E; [|exact IH].
  apply String.eqb_eq in E. subst. intros [= <-]. cbn [fst snd] in H0. tauto.
Qed.

Lemma parsed_dict_add (d : qdict) (nv : string * string) :
  parsed_pair nv -> parsed_dict d -> parsed_dict (qd_add d nv).
Proof.
  destruct nv as [n v]. intros (Hn & Hv & Hne) Hd. cbn [fst snd] in *.
  unfold qd_add. destruct (qd_get n d) as [vs|] eqn:E.
  - destruct (parsed_dict_get n vs d Hd E) as (_ & Hvs & _).
    apply parsed_dict_set; try assumption.
    + destruct vs; discriminate.
    + apply Forall_app. split; [assumption | repeat constructor; assumption].
  - apply parsed_dict_set; try assumption; [discriminate|].
    repeat constructor; assumption.
Qed.

Lemma parsed_dict_parse_qs (qs : string) :
  str_forallb is_ascii qs = true -> parsed_dict (parse_qs qs).
Proof.
  intros H. unfold parse_qs. apply parse_qsl_parsed in H.
  assert (Hacc : parsed_dict []) by constructor.
  revert Hacc. generalize (@nil (string * list string)).
  induction H as [|nv l Hnv _ IH]; intros acc Hacc; [exact Hacc|].
  cbn [fold_left]. apply IH. now apply parsed_dict_add.
Qed.

Lemma parsed_dict_mask_key (d : qdict) (k : string) :
  parsed_dict d -> parsed_dict (mask_key d k).
Proof.
  intros Hd. unfold mask_key. destruct (qd_get k d) as [vs|] eqn:E; [|exact Hd].
  destruct (parsed_dict_get k vs d Hd E) as (Hne & _ & Hk).
  apply parsed_dict_set; try assumption.
  - destruct vs; [congruence | discriminate].
  - clear. induction (length vs); simpl; constructor; [|assumption].
    split; [reflexivity | discriminate].
Qed.

Lemma parsed_dict_mask_params (ks : list string) (d : qdict) :
  parsed_dict d -> parsed_dict (mask_params ks d).
Proof.
  unfold mask_params. revert d.
  induction ks as [|k ks IH]; intros d Hd; [exact Hd|].
  cbn [fold_left]. apply IH. now apply parsed_dict_mask_key.
Qed.

(** *** Masking twice *)

Lemma qd_set_same (k : string) (vs : list string) (d : qdict) :
  qd_get k d = Some vs -> qd_set k vs d = d.
Proof.
  induction d as [|[k0 vs0] d IH]; simpl; [discriminate|].
  destruct (String.eqb k k0) eqn:E.
  - now intros [= ->].
  - intros H. now rewrite IH.
Qed.

Lemma mask_key_done (d : qdict) (k : string) :
  (qd_get k d = None \/ exists n, qd_get k d = Some (repeat STR_REDACTED n)) ->
  mask_key d k = d.
Proof.
  unfold mask_key. intros [-> | [n Hn]]; [reflexivity|].
  rewrite Hn, repeat_length. now apply qd_set_same.
Qed.

Lemma mask_params_done (ks : list string) (d : qdict) (k : string) :
  In k ks ->
  qd_get k (mask_params ks d) = None \/
  exists n, qd_get k (mask_params ks d) = Some (repeat STR_REDACTED n).
Proof.
  intros Hin. destruct (qd_get k d) as [vs|] eqn:E.
  - right. exists (length vs). now apply mask_params_get.
  - left. apply qd_get_In. rewrite mask_params_keys. now apply qd_get_In.
Qed.

Lemma mask_params_idempotent (ks : list string) (d : qdict) :
  mask_params ks (mask_params ks d) = mask_params ks d.
Proof.
  assert (H : forall ks', incl ks' ks ->
            fold_left mask_key ks' (mask_params ks d) = mask_params ks d).
  { induction ks' as [|k ks' IH]; intros Hincl; [reflexivity|].
    cbn [fold_left]. rewrite mask_key_done.
    - apply IH. intros x Hx. apply Hincl. now right.
    - apply mask_params_done. apply Hincl. now left. }
  apply H. apply incl_refl.
Qed.

(** The query [mask_query_string] writes for an ASCII query is a fixed
    point of parsing, masking and encoding. *)
Lemma masked_query_stable (qs : string) (ks : list string) :
  str_forallb is_ascii qs = true ->
  urlencode_text (mask_params ks
               (parse_qs (urlencode_text (mask_params ks (parse_qs qs)))))
  = urlencode_text (mask_params ks (parse_qs qs)).
Proof.
  intros H. rewrite parse_qs_urlencode.
  - now rewrite mask_params_idempotent.
  - rewrite mask_params_keys. apply NoDup_parse_qs.
  - now apply parsed_dict_mask_params, parsed_dict_parse_qs.
Qed.

(** ** Re-parsing an assembled URL *)

Lemma lower_lower (c : ascii) : lower (lower c) = lower c.
Proof. each_byte c; reflexivity. Qed.

Lemma lower_scheme_char (c : ascii) :
  is_scheme_char c = true -> is_scheme_char (lower c) = true.
Proof. each_byte c; (reflexivity || discriminate). Qed.

Lemma lower_alpha (c : ascii) :
  is_ascii c && is_alpha c = true ->
  is_ascii (lower c) = true /\ is_alpha (lower c) = true.
Proof. each_byte c; (split; reflexivity) || discriminate. Qed.

Lemma alpha_not_c0 (c : ascii) :
  is_alpha c = true -> is_c0_or_space c = false.
Proof. each_byte c; (reflexivity || discriminate). Qed.

Lemma str_map_lower_twice (s : string) :
  str_map lower (str_map lower s) = str_map lower s.
Proof.
  induction s as [|c s IH]; simpl; [reflexivity|].
  now rewrite lower_lower, IH.
Qed.

Lemma lstrip_id (p : ascii -> bool) (s : string) :
  stops p s -> lstrip p s = s.
Proof. destruct s as [|c s]; simpl; [reflexivity | now intros ->]. Qed.

Lemma stops_lstrip (p : ascii -> bool) (s : string) : stops p (lstrip p s).
Proof.
  induction s as [|c s IH]; simpl; [exact I|].
  destruct (p c) eqn:E; [exact IH | exact E].
Qed.

(** *** The scheme *)

Lemma split_scheme_inv (u sch r : string) :
  split_scheme u = (sch, r) ->
  scheme_wf sch /\
  ((sch = "" /\ r = u) \/
   exists raw, u = raw ++ String ":" r /\ sch = str_map lower raw).
Proof.
  unfold split_scheme.
  destruct (split_once ":" u) as [[[|a pre] post]|] eqn:E;
    try (intros [= <- <-]; split; [now left | now left]).
  destruct (is_ascii a && is_alpha a
            && str_forallb is_scheme_char (String a pre)) eqn:C;
    [|intros [= <- <-]; split; [now left | now left]].
  intros [= <- <-]. apply split_once_inv in E as [-> _].
  apply andb_true_iff in C as [C Hall].
  destruct (lower_alpha a C) as [Ha1 Ha2].
  split; [|right; now exists (String a pre)].
  right. exists (lower a), (str_map lower pre).
  repeat split; try assumption.
  - apply (str_forallb_map is_scheme_char lower (String a pre));
      [apply lower_scheme_char | assumption].
  - apply (str_map_lower_twice (String a pre)).
Qed.

Lemma scheme_no_colon (sch : string) :
  scheme_wf sch -> str_contains ":" sch = false.
Proof.
  intros [-> | (a & pre & _ & _ & _ & Hall & _)]; [reflexivity|].
  eapply str_forallb_contains; [exact Hall | reflexivity].
Qed.

Lemma split_scheme_slash (y : string) :
  split_scheme (String "/" y) = ("", String "/" y).
Proof.
  unfold split_scheme. cbn [split_once].
  change (Ascii.eqb "/" ":") with false. cbv iota.
  destruct (split_once ":" y) as [[l r]|]; reflexivity.
Qed.

Lemma split_scheme_assembled (sch x : string) :
  scheme_wf sch ->
  split_scheme (scheme_prefix sch ++ "//" ++ x) = (sch, "//" ++ x).
Proof.
  intros Hwf. pose proof (scheme_no_colon sch Hwf) as Hc.
  destruct Hwf as [-> | (a & pre & -> & Ha1 & Ha2 & Hall & Hlow)].
  - unfold scheme_prefix. cbn [is_empty negb append]. apply split_scheme_slash.
  - unfold scheme_prefix, split_scheme. cbn [is_empty negb].
    rewrite str_app_assoc. cbn [append].
    change (String a (pre ++ String ":" (String "/" (String "/" x))))
      with (String a pre ++ String ":" ("//" ++ x)).
    rewrite split_once_app by assumption.
    now rewrite Ha1, Ha2, Hall, Hlow.
Qed.

(** *** The network location *)

Lemma span_inv (p : ascii -> bool) (s l r : string) :
  span p s = (l, r) ->
  s = l ++ r /\ str_forallb p l = true /\ stops p r.
Proof.
  revert l. induction s as [|a s IH]; intros l; cbn [span].
  - intros [= <- <-]. repeat split.
  - destruct (p a) eqn:E.
    + destruct (span p s) as [l' r']. intros [= <- <-].
      destruct (IH l' eq_refl) as (-> & Hl & Hr).
      repeat split; [|assumption]. cbn [str_forallb]. now rewrite E.
    + intros [= <- <-]. repeat split. exact E.
Qed.

Lemma span_app (p : ascii -> bool) (x y : string) :
  str_forallb p x = true -> stops p y -> span p (x ++ y) = (x, y).
Proof.
  intros Hx Hy. induction x as [|a x IH]; cbn [append span].
  - destruct y as [|c y]; [reflexivity|]. cbn [span]. simpl in Hy.
    now rewrite Hy.
  - cbn [str_forallb] in Hx. apply andb_true_iff in Hx as [Ha Hx].
    now rewrite Ha, IH.
Qed.

Section Netloc.

Variable hc : host_checks.

Lemma split_netloc_inv (u nl r : string) :
  split_netloc hc u = Ok (nl, r) -> nl <> "" ->
  u = "//" ++ nl ++ r /\ str_forallb is_netloc_char nl = true /\
  stops is_netloc_char r /\ brackets_accepted hc nl.
Proof.
  unfold split_netloc. destruct (String.prefix "//" u) eqn:Ep.
  2:{ intros [= <- <-]. congruence. }
  destruct u as [|c1 [|c2 u]]; cbn [String.prefix] in Ep;
    [discriminate | destruct (ascii_dec "/" c1); discriminate |].
  destruct (ascii_dec "/" c1) as [<-|]; [|discriminate].
  destruct (ascii_dec "/" c2) as [<-|]; [|discriminate].
  cbn [drop2]. unfold splitnetloc.
  destruct (span (fun c => negb (str_contains c "/?#")) u) as [l r0] eqn:Es.
  apply span_inv in Es as (-> & Hl & Hr).
  destruct (xorb _ _) eqn:Ex; [discriminate|].
  destruct (_ && _ && negb _) eqn:Eb; [discriminate|].
  intros [= <- <-] _. repeat split; assumption.
Qed.

Lemma split_netloc_assembled (nl r : string) :
  str_forallb is_netloc_char nl = true -> stops is_netloc_char r ->
  brackets_accepted hc nl ->
  split_netloc hc ("//" ++ nl ++ r) = Ok (nl, r).
Proof.
  intros Hnl Hr [Hx Hb]. unfold split_netloc. cbn [append String.prefix].
  destruct (ascii_dec "/" "/") as [_|]; [|congruence].
  cbn [drop2]. unfold splitnetloc.
  change (fun c => negb (str_contains c "/?#")) with is_netloc_char.
  rewrite span_app by assumption.
  replace (String.prefix "" (nl ++ r)) with true by now destruct (nl ++ r).
  now rewrite Hx, Hb.
Qed.

End Netloc.

(** *** Fragment and query *)

Lemma split_at_inv (c : ascii) (s l r : string) :
  split_at c s = (l, r) ->
  str_contains c l = false /\
  (s = l ++ String c r \/ (s = l /\ r = "")).
Proof.
  unfold split_at. destruct (split_once c s) as [[l' r']|] eqn:E.
  - intros [= <- <-]. apply split_once_inv in E as [-> H]. auto.
  - intros [= <- <-]. split; [|now right].
    destruct (str_contains c s) eqn:Ec; [|reflexivity].
    exfalso. clear -E Ec. unfold str_contains in Ec.
    induction s as [|a s IH]; simpl in *; [discriminate|].
    rewrite Ascii.eqb_sym in Ec. destruct (Ascii.eqb a c); [discriminate|].
    destruct (split_once c s) as [[? ?]|]; [discriminate|]. now apply IH.
Qed.

Lemma split_at_assembled (c : ascii) (x s : string) :
  str_contains c x = false -> split_at c (x ++ suffix c s) = (x, s).
Proof.
  intros Hx. unfold split_at, suffix. destruct s as [|a s]; cbn [is_empty negb].
  - rewrite str_app_nil_r. now rewrite split_once_absent.
  - now rewrite split_once_app.
Qed.

(** *** Path and parameters *)

Lemma rsplit_after_absent (c : ascii) (s : string) :
  str_contains c s = false -> rsplit_after c s = ("", s).
Proof.
  unfold str_contains. induction s as [|a s IH]; cbn [rsplit_after str_existsb];
    [reflexivity|].
  intros H. apply orb_false_iff in H as [Ha Hs]. rewrite (IH Hs).
  unfold str_contains. now rewrite Hs, Ascii.eqb_sym, Ha.
Qed.

Lemma rsplit_after_app (c : ascii) (d l : string) :
  str_contains c l = false ->
  rsplit_after c (d ++ String c l) = (d ++ String c "", l).
Proof.
  intros Hl. induction d as [|a d IH]; cbn [append rsplit_after].
  - now rewrite rsplit_after_absent, Hl, Ascii.eqb_refl.
  - rewrite IH, str_contains_app. unfold str_contains at 2.
    cbn [str_existsb]. now rewrite Ascii.eqb_refl, orb_true_r.
Qed.

Lemma rsplit_after_inv (c : ascii) (s d l : string) :
  rsplit_after c s = (d, l) ->
  s = d ++ l /\ str_contains c l = false /\
  (d = "" \/ exists d0, d = d0 ++ String c "").
Proof.
  revert d l. induction s as [|a s IH]; intros d l; cbn [rsplit_after].
  - intros [= <- <-]. repeat split. now left.
  - destruct (rsplit_after c s) as [d' l'].
    destruct (IH d' l' eq_refl) as (Hs & Hl & Hd).
    destruct (str_contains c s) eqn:Ec.
    + intros [= <- <-]. subst s. repeat split; [assumption|]. right.
      destruct Hd as [-> | [d0 ->]].
      * rewrite str_contains_app in Ec. simpl in Ec. rewrite Hl in Ec.
        discriminate.
      * now exists (String a d0).
    + destruct (Ascii.eqb a c) eqn:Ea.
      * intros [= <- <-]. apply Ascii.eqb_eq in Ea. subst a.
        repeat split; [assumption|]. right. now exists "".
      * intros [= <- <-]. repeat split; [|now left].
        unfold str_contains in *. cbn [str_existsb].
        now rewrite Ascii.eqb_sym, Ea, Ec.
Qed.

Lemma rejoin_params_cases (sch u : string) :
  rejoin_params sch u = u \/
  (u = rejoin_params sch u ++ ";" /\
   rejoin_params sch (rejoin_params sch u) = rejoin_params sch u).
Proof.
  destruct (str_in sch uses_params && str_contains ";" u) eqn:C.
  2:{ left. unfold rejoin_params, split_params. now rewrite C. }
  destruct (rsplit_after "/" u) as [d l] eqn:Er.
  pose proof Er as Er'. apply rsplit_after_inv in Er' as (Hu & Hl & Hd).
  destruct (split_once ";" l) as [[x r]|] eqn:Es.
  2:{ left. unfold rejoin_params, split_params, splitparams.
      now rewrite C, Er, Es. }
  assert (HP : rejoin_params sch u = join_params (d ++ x) r)
    by (unfold rejoin_params, split_params, splitparams;
        now rewrite C, Er, Es).
  rewrite HP. clear HP.
  apply split_once_inv in Es as [-> Hx]. unfold join_params.
  destruct r as [|b r]; cbn [is_empty negb].
  2:{ left. subst u. now rewrite str_app_assoc. }
  right. split; [subst u; now rewrite str_app_assoc|].
  unfold rejoin_params, split_params.
  destruct (str_in sch uses_params && str_contains ";" (d ++ x)) eqn:C';
    [|reflexivity].
  rewrite str_contains_app in Hl. apply orb_false_iff in Hl as [Hxs _].
  assert (Er2 : rsplit_after "/" (d ++ x) = (d, x)).
  { destruct Hd as [-> | [d0 ->]].
    - now apply rsplit_after_absent.
    - rewrite str_app_assoc. cbn [append]. now apply rsplit_after_app. }
  unfold splitparams. rewrite Er2, split_once_absent by assumption.
  reflexivity.
Qed.

Lemma rejoin_params_stable (sch u : string) :
  rejoin_params sch (rejoin_params sch u) = rejoin_params sch u.
Proof.
  destruct (rejoin_params_cases sch u) as [E | [_ E]]; [|exact E].
  now rewrite !E.
Qed.

(** The rejoined path is the path or a prefix of it: what holds of every
    character of the path holds of its characters. *)
Lemma rejoin_params_forallb (p : ascii -> bool) (sch u : string) :
  str_forallb p u = true -> str_forallb p (rejoin_params sch u) = true.
Proof.
  intros H. destruct (rejoin_params_cases sch u) as [-> | [E _]];
    [assumption|].
  rewrite E, str_forallb_app in H. now apply andb_true_iff in H as [H _].
Qed.

Lemma rejoin_params_contains (c : ascii) (sch u : string) :
  str_contains c u = false -> str_contains c (rejoin_params sch u) = false.
Proof.
  intros H. destruct (rejoin_params_cases sch u) as [-> | [E _]];
    [assumption|].
  rewrite E, str_contains_app in H. now apply orb_false_iff in H as [H _].
Qed.

Lemma rejoin_params_rooted (sch u : string) :
  rooted u -> rooted (rejoin_params sch u).
Proof.
  intros H. destruct (rejoin_params_cases sch u) as [-> | [E _]];
    [assumption|].
  destruct (rejoin_params sch u); [exact I|]. rewrite E in H. exact H.
Qed.

(** *** [urlsplit] *)

Lemma netloc_stop_char (c : ascii) :
  is_netloc_char c = false -> c = "/"%char \/ c = "?"%char \/ c = "#"%char.
Proof. each_byte c; (discriminate || auto). Qed.

Section Split.

Variable hc : host_checks.

Lemma urlsplit_inv (url sch nl p0 q f : string) :
  urlsplit hc url = Ok (sch, nl, p0, q, f) -> nl <> "" ->
  scheme_wf sch /\ str_forallb is_netloc_char nl = true /\
  brackets_accepted hc nl /\ netloc_rejected hc nl = false /\
  rooted p0 /\ str_contains "?" p0 = false /\ str_contains "#" p0 = false /\
  forall p, (forall c, p c = true -> p (lower c) = true) ->
            str_forallb p (preprocessed url) = true ->
            str_forallb p sch = true /\ str_forallb p nl = true /\
            str_forallb p p0 = true /\ str_forallb p q = true /\
            str_forallb p f = true.
Proof.
  unfold urlsplit.
  change (str_filter (fun c => negb (is_unsafe_url_byte c))
            (lstrip is_c0_or_space url)) with (preprocessed url).
  generalize (preprocessed url). intros u0.
  destruct (split_scheme u0) as [sch' r1] eqn:E1.
  destruct (split_netloc hc r1) as [[nl' r2]|] eqn:E2; [|discriminate].
  cbn [bind].
  destruct (split_at "#" r2) as [r3 f'] eqn:E3.
  destruct (split_at "?" r3) as [p0' q'] eqn:E4.
  destruct (netloc_rejected hc nl') eqn:E5; [discriminate|].
  intros [= -> -> -> -> ->] Hnl.
  apply split_scheme_inv in E1 as [Hwf Hsch].
  apply split_netloc_inv in E2 as (-> & Hnlc & Hstop & Hbr); [|assumption].
  apply split_at_inv in E3 as [Hr3 Hr2].
  apply split_at_inv in E4 as [Hp0 Hr3'].
  assert (Hr3p : exists t3, r3 = p0 ++ t3 /\ (p0 = r3 \/ exists x, t3 = String "?" x)).
  { destruct Hr3' as [-> | [-> ->]]; [eauto | exists ""; rewrite str_app_nil_r; auto]. }
  assert (Hr2p : exists t2, r2 = r3 ++ t2 /\ (r3 = r2 \/ exists x, t2 = String "#" x)).
  { destruct Hr2 as [-> | [-> ->]]; [eauto | exists ""; rewrite str_app_nil_r; auto]. }
  assert (Hp0h : str_contains "#" p0 = false).
  { destruct Hr3p as (t3 & -> & _). rewrite str_contains_app in Hr3.
    now apply orb_false_iff in Hr3 as [H _]. }
  split; [assumption|]. split; [assumption|]. split; [assumption|].
  split; [assumption|]. split; [|split; [assumption|split; [assumption|]]].
  - destruct p0 as [|c p]; [exact I|]. cbn [rooted].
    destruct Hr3p as (t3 & -> & _). destruct Hr2p as (t2 & -> & _).
    cbn [append stops] in Hstop.
    destruct (netloc_stop_char c Hstop) as [-> | [-> | ->]];
      [reflexivity | |].
    + unfold str_contains in Hp0. cbn in Hp0. discriminate.
    + unfold str_contains in Hp0h. cbn in Hp0h. discriminate.
  - intros p Hp Hu0.
    assert (H1 : str_forallb p sch = true /\
                 str_forallb p ("//" ++ nl ++ r2) = true).
    { destruct Hsch as [[-> ->] | (raw & -> & ->)]; [now split|].
      rewrite str_forallb_app in Hu0. apply andb_true_iff in Hu0 as [Hr Hu0].
      cbn [str_forallb] in Hu0. apply andb_true_iff in Hu0 as [_ Hu0].
      split; [now apply str_forallb_map | assumption]. }
    destruct H1 as [Hs1 H1]. cbn [append str_forallb] in H1.
    apply andb_true_iff in H1 as [_ H1]. apply andb_true_iff in H1 as [_ H1].
    rewrite str_forallb_app in H1. apply andb_true_iff in H1 as [Hn1 H2].
    assert (H3 : str_forallb p r3 = true /\ str_forallb p f = true).
    { destruct Hr2 as [-> | [-> ->]]; [|now split].
      rewrite str_forallb_app in H2. apply andb_true_iff in H2 as [Ha Hb].
      cbn [str_forallb] in Hb. now apply andb_true_iff in Hb as [_ Hb]. }
    destruct H3 as [H3 Hf].
    assert (H4 : str_forallb p p0 = true /\ str_forallb p q = true).
    { destruct Hr3' as [-> | [-> ->]]; [|now split].
      rewrite str_forallb_app in H3. apply andb_true_iff in H3 as [Ha Hb].
      cbn [str_forallb] in Hb. now apply andb_true_iff in Hb as [_ Hb]. }
    tauto.
Qed.

End Split.

Lemma is_quoted_query_char (c : ascii) :
  is_quoted_char c = true -> is_query_char c = true.
Proof. unfold is_query_char. now intros ->. Qed.

Lemma is_query_char_safe (c : ascii) :
  is_query_char c = true -> is_url_safe c = true.
Proof. each_byte c; (reflexivity || discriminate). Qed.

Lemma lower_safe (c : ascii) :
  is_url_safe c = true -> is_url_safe (lower c) = true.
Proof. each_byte c; (reflexivity || discriminate). Qed.

Lemma lower_ascii (c : ascii) :
  is_ascii c = true -> is_ascii (lower c) = true.
Proof. each_byte c; (reflexivity || discriminate). Qed.

Lemma encode_pair_chars (nv : string * string) :
  str_forallb is_query_char (encode_pair nv) = true.
Proof.
  unfold encode_pair. rewrite str_forallb_app. cbn [append str_forallb].
  rewrite !(str_forallb_impl is_quoted_char is_query_char)
    by (apply is_quoted_query_char || apply quote_plus_chars).
  reflexivity.
Qed.

Lemma urlencode_chars (d : qdict) :
  str_forallb is_query_char (urlencode_text d) = true.
Proof.
  unfold urlencode_text. induction (qd_pairs d) as [|nv l IH]; [reflexivity|].
  cbn [map join]. destruct (map encode_pair l) as [|y ys] eqn:E.
  - apply encode_pair_chars.
  - rewrite str_forallb_app, encode_pair_chars. cbn [append str_forallb].
    exact IH.
Qed.

(** ** Surrogates *)

Lemma has_surrogate_cons (a b : ascii) (t : string) :
  has_surrogate (String a (String b t))
  = (code a =? 237)%nat && in_range 160 191 b || has_surrogate (String b t).
Proof. reflexivity. Qed.

Lemma has_surrogate_app (p x : string) :
  ends_with_ed p = false ->
  has_surrogate (p ++ x) = has_surrogate p || has_surrogate x.
Proof.
  induction p as [|a p IH]; [reflexivity|]. destruct p as [|b p].
  - cbn [append ends_with_ed]. intros Ha.
    destruct x as [|b x]; [reflexivity|].
    now rewrite has_surrogate_cons, Ha.
  - intros H. specialize (IH H).
    change ((String a (String b p)) ++ x) with (String a (String b (p ++ x))).
    rewrite !has_surrogate_cons.
    change (String b (p ++ x)) with (String b p ++ x).
    now rewrite IH, orb_assoc.
Qed.

Lemma ascii_not_ed (a : ascii) :
  utf8_len a = 1 -> (code a =? 237)%nat = false.
Proof. each_byte a; (discriminate || reflexivity). Qed.

Lemma lead2_not_ed (a : ascii) :
  utf8_len a = 2 -> (code a =? 237)%nat = false.
Proof. each_byte a; (discriminate || reflexivity). Qed.

Lemma lead4_not_ed (a : ascii) :
  utf8_len a = 4 -> (code a =? 237)%nat = false.
Proof. each_byte a; (discriminate || reflexivity). Qed.

Lemma cont_not_ed (b : ascii) :
  utf8_cont b = true -> (code b =? 237)%nat = false.
Proof. each_byte b; (discriminate || reflexivity). Qed.

Lemma in_range_iff (lo hi : nat) (c : ascii) :
  in_range lo hi c = true <-> lo <= code c <= hi.
Proof.
  unfold in_range. rewrite andb_true_iff, !Nat.leb_le. tauto.
Qed.

Lemma second_is_cont (a b : ascii) :
  utf8_second_ok a b = true -> utf8_cont b = true.
Proof.
  unfold utf8_second_ok, utf8_cont.
  repeat match goal with |- context [if ?c then _ else _] => destruct c end;
    rewrite !in_range_iff; lia.
Qed.

(** The second byte the decoder accepts after ED is below A0: the
    three-byte form of a surrogate is not accepted. *)
Lemma second_not_surrogate (a b : ascii) :
  utf8_second_ok a b = true ->
  (code a =? 237)%nat && in_range 160 191 b = false.
Proof.
  unfold utf8_second_ok. destruct (code a =? 237)%nat eqn:E; [|reflexivity].
  apply Nat.eqb_eq in E. rewrite E. cbn [Nat.eqb andb].
  rewrite in_range_iff. intros H. apply not_true_is_false.
  rewrite in_range_iff. lia.
Qed.

(** One step of the decoder emits no surrogate. *)
Lemma decode_step_clean (a : ascii) (t : string) :
  exists pre rest,
    decode_utf8_replace (String a t) = pre ++ decode_utf8_replace rest /\
    String.length rest <= String.length t /\
    has_surrogate pre = false /\ ends_with_ed pre = false.
Proof.
  assert (Hrepl : forall r, String.length r <= String.length t ->
            exists pre rest,
              replacement ++ decode_utf8_replace r
              = pre ++ decode_utf8_replace rest /\
              String.length rest <= String.length t /\
              has_surrogate pre = false /\ ends_with_ed pre = false)
    by (intros r Hr; exists replacement, r; repeat split; auto).
  cbn [decode_utf8_replace].
  destruct (utf8_len a) as [|[|[|[|[|n]]]]] eqn:L.
  - apply Hrepl. lia.
  - exists (String a ""), t. repeat split; [lia|].
    cbn [ends_with_ed]. now apply ascii_not_ed.
  - destruct t as [|b t1]; [apply (Hrepl ""); simpl; lia|].
    destruct (utf8_cont b) eqn:Cb; [|apply Hrepl; lia].
    exists (String a (String b "")), t1.
    repeat split; [simpl; lia | |].
    + cbn [has_surrogate]. now rewrite (lead2_not_ed a L).
    + cbn [ends_with_ed]. now apply cont_not_ed.
  - destruct t as [|b t1]; [apply (Hrepl ""); simpl; lia|].
    destruct (utf8_second_ok a b) eqn:Cb; [|apply Hrepl; lia].
    destruct t1 as [|c t2]; [apply (Hrepl ""); simpl; lia|].
    destruct (utf8_cont c) eqn:Cc; [|apply Hrepl; simpl; lia].
    exists (String a (String b (String c ""))), t2.
    repeat split; [simpl; lia | |].
    + cbn [has_surrogate]. rewrite (second_not_surrogate a b Cb).
      now rewrite (cont_not_ed b (second_is_cont a b Cb)).
    + cbn [ends_with_ed]. now apply cont_not_ed.
  - destruct t as [|b t1]; [apply (Hrepl ""); simpl; lia|].
    destruct (utf8_second_ok a b) eqn:Cb; [|apply Hrepl; lia].
    destruct t1 as [|c t2]; [apply (Hrepl ""); simpl; lia|].
    destruct (utf8_cont c) eqn:Cc; [|apply Hrepl; simpl; lia].
    destruct t2 as [|d t3]; [apply (Hrepl ""); simpl; lia|].
    destruct (utf8_cont d) eqn:Cd; [|apply Hrepl; simpl; lia].
    exists (String a (String b (String c (String d "")))), t3.
    repeat split; [simpl; lia | |].
    + cbn [has_surrogate]. rewrite (lead4_not_ed a L).
      rewrite (cont_not_ed b (second_is_cont a b Cb)).
      now rewrite (cont_not_ed c Cc).
    + cbn [ends_with_ed]. now apply cont_not_ed.
  - apply Hrepl. lia.
Qed.

(** What the decoder returns holds no surrogate. *)
Lemma decode_no_surrogate (s : string) :
  has_surrogate (decode_utf8_replace s) = false.
Proof.
  remember (String.length s) as n eqn:Hn.
  assert (Hle : String.length s <= n) by lia. clear Hn. revert s Hle.
  induction n as [|n IH]; intros s Hle.
  - destruct s; [reflexivity | simpl in Hle; lia].
  - destruct s as [|a t]; [reflexivity|]. simpl in Hle.
    destruct (decode_step_clean a t) as (pre & rest & -> & Hlen & Hpre & He).
    rewrite has_surrogate_app, Hpre by assumption. apply IH. lia.
Qed.

Lemma decoded_no_surrogate (s : string) :
  decoded s -> has_surrogate s = false.
Proof. intros H. rewrite <- H. apply decode_no_surrogate. Qed.

(** [urlencode] can write every dict that [parse_qs] builds from an ASCII
    query. *)
Lemma parsed_dict_no_surrogate (d : qdict) :
  parsed_dict d -> qd_has_surrogate d = false.
Proof.
  unfold parsed_dict, qd_has_surrogate. induction 1 as [|kvs d H _ IH];
    [reflexivity|].
  cbn [existsb]. rewrite IH, orb_false_r.
  destruct H as (Hk & _ & Hvs). rewrite (decoded_no_surrogate _ Hk).
  cbn [orb]. induction Hvs as [|v vs [Hv _] _ IHv]; [reflexivity|].
  cbn [existsb]. now rewrite (decoded_no_surrogate _ Hv), IHv.
Qed.

Section Stable.

Variable hc : host_checks.

Lemma urlunsplit_shape (sch nl P q f : string) :
  nl <> "" -> rooted P ->
  urlunsplit sch nl P q f
  = scheme_prefix sch ++ "//" ++ nl ++ P ++ suffix "?" q ++ suffix "#" f.
Proof.
  intros Hnl HP. unfold urlunsplit, scheme_prefix, suffix.
  rewrite (is_empty_false nl Hnl). cbn [negb orb].
  assert (E : (if negb (is_empty P) && negb (String.prefix "/" P)
               then "/" ++ P else P) = P).
  { destruct P as [|c P]; [reflexivity|]. cbn [rooted] in HP. subst c.
    cbn [is_empty negb andb String.prefix].
    destruct (ascii_dec "/" "/"); [|congruence]. now destruct P. }
  rewrite E.
  destruct (negb (is_empty sch)), (negb (is_empty q)), (negb (is_empty f));
    cbn [append]; rewrite ?str_app_assoc, ?str_app_nil_r; cbn [append];
    rewrite ?str_app_assoc; cbn [append]; rewrite ?str_app_assoc;
    reflexivity.
Qed.

Lemma suffix_forallb (p : ascii -> bool) (c : ascii) (s : string) :
  p c = true -> str_forallb p s = true -> str_forallb p (suffix c s) = true.
Proof.
  intros Hc Hs. unfold suffix. destruct (negb (is_empty s)); [|reflexivity].
  cbn [str_forallb]. now rewrite Hc, Hs.
Qed.

Lemma suffix_contains (c c' : ascii) (s : string) :
  Ascii.eqb c c' = false -> str_contains c s = false ->
  str_contains c (suffix c' s) = false.
Proof.
  intros Hc Hs. unfold suffix. destruct (negb (is_empty s)); [|reflexivity].
  unfold str_contains in *. cbn [str_existsb]. now rewrite Hc, Hs.
Qed.

(** [urlsplit] reads back the components [urlunsplit] assembled. *)
Lemma urlsplit_assembled (sch nl P q f : string) :
  scheme_wf sch -> nl <> "" -> str_forallb is_netloc_char nl = true ->
  brackets_accepted hc nl -> netloc_rejected hc nl = false ->
  rooted P -> str_contains "?" P = false -> str_contains "#" P = false ->
  str_contains "#" q = false ->
  str_forallb is_url_safe sch = true -> str_forallb is_url_safe nl = true ->
  str_forallb is_url_safe P = true -> str_forallb is_url_safe q = true ->
  str_forallb is_url_safe f = true ->
  urlsplit hc (urlunsplit sch nl P q f) = Ok (sch, nl, P, q, f).
Proof.
  intros Hwf Hnl Hnlc Hbr Hrej HP HPq HPf Hq Ss Sn SP Sq Sf.
  rewrite urlunsplit_shape by assumption. unfold urlsplit.
  set (o := scheme_prefix sch ++ "//" ++ nl ++ P ++ suffix "?" q ++ suffix "#" f).
  assert (Hstrip : lstrip is_c0_or_space o = o).
  { apply lstrip_id. subst o. unfold scheme_prefix.
    destruct Hwf as [-> | (a & pre & -> & _ & Ha & _ & _)].
    - reflexivity.
    - cbn [is_empty negb append stops]. now apply alpha_not_c0. }
  rewrite Hstrip.
  assert (Hsafe : str_forallb is_url_safe o = true).
  { subst o. rewrite !str_forallb_app. rewrite Sn, SP.
    rewrite !suffix_forallb by (reflexivity || assumption).
    unfold scheme_prefix. destruct (negb (is_empty sch)); [|reflexivity].
    rewrite str_forallb_app, Ss. reflexivity. }
  change (fun c => negb (is_unsafe_url_byte c)) with is_url_safe.
  rewrite (str_filter_id _ _ Hsafe). subst o.
  rewrite split_scheme_assembled by assumption.
  assert (Hstop : stops is_netloc_char (P ++ suffix "?" q ++ suffix "#" f)).
  { destruct P as [|c P]; [|cbn [rooted] in HP; now subst c].
    cbn [append]. unfold suffix.
    destruct (negb (is_empty q)); [reflexivity|].
    destruct (negb (is_empty f)); [reflexivity | exact I]. }
  rewrite split_netloc_assembled by assumption. cbn [bind].
  rewrite <- str_app_assoc.
  rewrite split_at_assembled.
  2:{ rewrite str_contains_app, HPf. now rewrite suffix_contains. }
  rewrite split_at_assembled by assumption.
  now rewrite Hrej.
Qed.

(** [mask_query_string] maps the URL it returns to itself, when the URL it
    was given is ASCII and has a network location. *)
Lemma mask_url_stable (url : string) (keys : list string) (p : ParseResult) :
  str_forallb is_ascii url = true ->
  urlparse hc url = Ok p -> netloc p <> "" ->
  exists u1, mask_url hc url keys = Ok u1 /\ mask_url hc u1 keys = Ok u1.
Proof.
  intros Hascii Hp Hnl. rewrite mask_url_eq, Hp. cbn [bind].
  unfold urlparse in Hp.
  destruct (urlsplit hc url) as [[[[[sch nl] p0] q] f]|] eqn:Es;
    [|discriminate].
  cbn [bind] in Hp.
  destruct (split_params sch p0) as [pa pr] eqn:Ep.
  injection Hp as <-. cbn [scheme netloc path params query fragment] in *.
  destruct (urlsplit_inv hc url sch nl p0 q f Es Hnl)
    as (Hwf & Hnlc & Hbr & Hrej & Hroot & Hpq & Hpf & Hall).
  destruct (Hall is_url_safe lower_safe (str_forallb_filter_self _ _))
    as (Ss & Sn & Sp & _ & Sf).
  assert (Hu0 : str_forallb is_ascii (preprocessed url) = true)
    by now apply str_forallb_filter, str_forallb_lstrip.
  destruct (Hall is_ascii lower_ascii Hu0) as (_ & _ & _ & Aq & _).
  assert (Hd : parsed_dict (mask_params keys (parse_qs q)))
    by now apply parsed_dict_mask_params, parsed_dict_parse_qs.
  rewrite (parsed_dict_no_surrogate _ Hd).
  eexists. split; [reflexivity|].
  assert (HP : join_params pa pr = rejoin_params sch p0)
    by (unfold rejoin_params; now rewrite Ep).
  set (q1 := urlencode_text (mask_params keys (parse_qs q))).
  unfold urlunparse. rewrite HP.
  set (P := rejoin_params sch p0).
  assert (Hsplit : urlsplit hc (urlunsplit sch nl P q1 f)
                   = Ok (sch, nl, P, q1, f)).
  { apply urlsplit_assembled; try assumption.
    - now apply rejoin_params_rooted.
    - now apply rejoin_params_contains.
    - now apply rejoin_params_contains.
    - eapply str_forallb_contains; [apply urlencode_chars | reflexivity].
    - now apply rejoin_params_forallb.
    - eapply str_forallb_impl; [apply is_query_char_safe|].
      apply urlencode_chars. }
  rewrite mask_url_eq. unfold urlparse. rewrite Hsplit. cbn [bind].
  destruct (split_params sch P) as [pa2 pr2] eqn:Ep2. cbn [bind].
  cbn [scheme netloc path params query fragment]. unfold urlunparse.
  replace (join_params pa2 pr2) with (rejoin_params sch P)
    by (unfold rejoin_params; now rewrite Ep2).
  subst P. rewrite rejoin_params_stable.
  assert (E : parse_qs q1 = mask_params keys (parse_qs q)).
  { subst q1. apply parse_qs_urlencode; [|assumption].
    rewrite mask_params_keys. apply NoDup_parse_qs. }
  rewrite E.
  rewrite (parsed_dict_no_surrogate _ (parsed_dict_mask_params keys _ Hd)).
  rewrite <- E. subst q1. now rewrite masked_query_stable.
Qed.

End Stable.

(** ** The sanitizer on URLs with a network location *)

Section Twice.

Variable hc : host_checks.

(** [mask_query_string] succeeds on an ASCII URL that [urlparse] reads a
    network location in, whatever the masked keys, and the URL it returns
    is one it maps to itself: the query it wrote parses back to the
    parameters it encoded, and the other components are written and read
    unchanged. *)
Theorem masked_url_is_fixed (url : string) (keys : list string)
    (p : ParseResult) :
  str_forallb is_ascii url = true ->
  urlparse hc url = Ok p -> netloc p <> "" ->
  exists u1,
    mask_query_string hc (VStr url) keys = Ok (VStr u1) /\
    mask_query_string hc (VStr u1) keys = Ok (VStr u1).
Proof.
  intros Ha Hp Hn.
  destruct (mask_url_stable hc url keys p Ha Hp Hn) as (u1 & H1 & H2).
  exists u1. cbn [mask_query_string]. now rewrite H1, H2.
Qed.

(** Sanitizing is idempotent on the documents whose request URLs are ASCII
    and have a network location: if [sanitize_har_object] returns [data1]
    for such a document, it returns [data1] for [data1]. *)
Theorem sanitize_twice_with_hosts (data data1 es : value) :
  sanitize_har_object hc data = Ok data1 ->
  get2 "log" "entries" data = Some es ->
  Forall (url_with_host hc) (items es) ->
  sanitize_har_object hc data1 = Ok data1.
Proof.
  intros H Hes Hall.
  destruct (second_pass_entrywise hc data data1 H) as (es1 & Hes1 & Hiff).
  apply Hiff.
  destruct (sanitize_har_object_entries hc data data1 H)
    as (es' & es1' & Hes' & Hes1' & _ & _ & HF).
  rewrite Hes in Hes'. injection Hes' as <-.
  rewrite Hes1 in Hes1'. injection Hes1' as <-.
  clear -HF Hall. induction HF as [|e e1 l l1 He _ IH]; [constructor|].
  inversion Hall as [|? ? Hhost Hall']; subst.
  constructor; [|auto].
  apply (sanitize_entry_fixed_iff hc e e1 He).
  destruct Hhost as (url & p & Hu & Ha & Hp & Hn).
  apply sanitize_entry_inv in He
    as (d & i & r & r' & s & s' & -> & Hi & Hr & Hr' & Hs & Hs' & ->).
  apply sanitize_request_inv in Hr'
    as (dr & dp & hs & hs' & qs & qs' & u & u' & -> & _ & _ & _ & _ & _
        & Hurl & Hmask & ->).
  unfold get2 in Hu. cbn [get] in Hu. rewrite Hr in Hu. cbn [get] in Hu.
  rewrite Hurl in Hu. injection Hu as ->.
  destruct (mask_url_stable hc url SENSITIVE_KEYS p Ha Hp Hn)
    as (u1 & H1 & H2).
  cbn [mask_query_string] in Hmask. rewrite H1 in Hmask.
  cbn [bind] in Hmask. injection Hmask as <-.
  exists (VStr u1). split.
  - unfold get2. cbn [get]. rewrite dict_get_set_ne by reflexivity.
    rewrite dict_get_set_eq. cbn [get]. apply dict_get_set_eq.
  - cbn [mask_query_string]. now rewrite H2.
Qed.

End Twice.

Lemma masked_url_is_fixed_witness :
  exists u1,
    mask_query_string no_host_checks
      (VStr "https://svc/path;v=1?X-Amz-Credential=abc&foo=a%20b#top")
      SENSITIVE_KEYS = Ok (VStr u1) /\
    mask_query_string no_host_checks (VStr u1) SENSITIVE_KEYS
    = Ok (VStr u1).
Proof.
  eapply (masked_url_is_fixed no_host_checks).
  - reflexivity.
  - vm_compute. reflexivity.
  - discriminate.
Defined.

Lemma sanitize_twice_with_hosts_witness :
  sanitize_har_object no_host_checks sample_sanitized = Ok sample_sanitized.
Proof.
  apply (sanitize_twice_with_hosts no_host_checks sample_document
           sample_sanitized
           (VList [full_entry
                     "https://svc/path?X-Amz-Credential=abc&foo=bar"])).
  - vm_compute. reflexivity.
  - reflexivity.
  - constructor; [|constructor].
    eexists. eexists. split; [reflexivity|]. split; [reflexivity|].
    split; [vm_compute; reflexivity | discriminate].
Defined.

(** * Further properties *)

(** ** Which documents are sanitized *)

Lemma mapM_is_ok {A B : Type} (f : A -> result B) (l : list A) :
  (forall x, In x l -> is_ok (f x) = true) -> is_ok (mapM f l) = true.
Proof.
  induction l as [|x l IH]; intros H; [reflexivity|]. cbn [mapM].
  pose proof (H x (or_introl eq_refl)) as Hx.
  destruct (f x) as [y|]; [|discriminate]. cbn [bind].
  assert (Hl : is_ok (mapM f l) = true) by (apply IH; intros; apply H; now right).
  destruct (mapM f l); [reflexivity | discriminate].
Qed.

Lemma for_each_is_ok (f : value -> result value) (p : value -> bool)
      (x : value) :
  list_of p x = true ->
  (forall y, In y (items x) -> p y = true -> is_ok (f y) = true) ->
  is_ok (for_each f x) = true.
Proof.
  destruct x; try discriminate. cbn [list_of items for_each]. intros Hp Hf.
  assert (H : is_ok (mapM f l) = true).
  { apply mapM_is_ok. intros y Hy. apply Hf; [assumption|].
    rewrite forallb_forall in Hp. now apply Hp. }
  destruct (mapM f l); [reflexivity | discriminate].
Qed.

Lemma is_ok_true {A : Type} (c : result A) :
  is_ok c = true -> exists a, c = Ok a.
Proof. destruct c; [eauto | discriminate]. Qed.

Lemma sanitize_header_is_ok (h : value) :
  is_dict h = true -> has "name" h = true -> is_ok (sanitize_header h) = true.
Proof.
  destruct h; try discriminate. intros _. unfold has, lacks. cbn [get].
  unfold sanitize_header. cbn [py_getitem].
  destruct (dict_get "name" d) as [n|]; [|discriminate]. intros _.
  cbn [bind]. now destruct (py_eq_str n "Authorization").
Qed.

Lemma sanitize_qs_is_ok (q : value) :
  query_entry_shaped q = true -> has "name" q = true ->
  is_ok (sanitize_qs q) = true.
Proof.
  unfold query_entry_shaped, opt, has, lacks. intros Hsh.
  apply andb_true_iff in Hsh as [Hd Hn]. destruct q; try discriminate.
  cbn [get] in *. unfold sanitize_qs. cbn [py_getitem].
  destruct (dict_get "name" d) as [n|]; [|discriminate]. intros _.
  destruct n; try discriminate. cbn [bind py_in_str_set].
  now destruct (existsb (String.eqb s) SENSITIVE_KEYS).
Qed.

Lemma sanitize_response_is_ok (s : value) :
  response_shaped s = true -> has "content" s = true ->
  is_ok (sanitize_response s) = true.
Proof.
  unfold response_shaped, opt, has, lacks. intros Hsh.
  apply andb_true_iff in Hsh as [Hd Hc]. destruct s; try discriminate.
  cbn [get] in *. unfold sanitize_response. cbn [py_getitem].
  destruct (dict_get "content" d) as [c|]; [|discriminate]. intros _.
  now destruct c.
Qed.

Section Success.

Variable hc : host_checks.

Lemma sanitize_request_is_ok (r : value) :
  request_shaped hc r = true -> request_complete r = true ->
  is_ok (sanitize_request hc r) = true.
Proof.
  unfold request_shaped, request_complete, opt, has, lacks.
  intros Hsh Hc. repeat rewrite andb_true_iff in Hsh. repeat rewrite andb_true_iff in Hc.
  destruct Hsh as ((((Hd & Spd) & Shs) & Sqs) & Su).
  destruct Hc as ((((Chs & Cqs) & Cu) & Chn) & Cqn).
  destruct r; try discriminate. clear Hd. cbn [get] in *.
  unfold sanitize_request.
  change (py_contains "postData" (VDict d))
    with (Ok (dict_has "postData" d)).
  unfold bind at 1.
  destruct (post_data_step d) as (dp & Hdp & ->);
    [unfold opt; cbn [get]; exact Spd|].
  cbn [bind py_setitem py_getitem].
  rewrite !dict_get_set_ne by reflexivity.
  rewrite (post_data_redacted_get d dp) by (assumption || reflexivity).
  destruct (dict_get "headers" d) as [hs|]; [|discriminate].
  cbn [bind].
  destruct (is_ok_true (for_each sanitize_header hs)) as [hs' ->].
  { apply (for_each_is_ok _ is_dict); [assumption|].
    intros y Hy Hd. apply sanitize_header_is_ok; [assumption|].
    unfold all_have in Chn. rewrite forallb_forall in Chn. now apply Chn. }
  cbn [bind py_setitem py_getitem].
  rewrite !dict_get_set_ne by reflexivity.
  rewrite (post_data_redacted_get d dp) by (assumption || reflexivity).
  destruct (dict_get "queryString" d) as [qs|]; [|discriminate].
  cbn [bind].
  destruct (is_ok_true (for_each sanitize_qs qs)) as [qs' ->].
  { apply (for_each_is_ok _ query_entry_shaped); [assumption|].
    intros y Hy Hd. apply sanitize_qs_is_ok; [assumption|].
    unfold all_have in Cqn. rewrite forallb_forall in Cqn. now apply Cqn. }
  cbn [bind py_setitem py_getitem].
  rewrite !dict_get_set_ne by reflexivity.
  rewrite (post_data_redacted_get d dp) by (assumption || reflexivity).
  destruct (dict_get "url" d) as [u|]; [|discriminate].
  cbn [bind]. unfold url_shaped in Su. destruct u; try discriminate.
  cbn [mask_query_string].
  destruct (mask_url hc s SENSITIVE_KEYS); [reflexivity | discriminate].
Qed.

Lemma sanitize_entry_is_ok (e : value) :
  entry_shaped hc e = true -> entry_complete e = true ->
  is_ok (sanitize_entry hc e) = true.
Proof.
  unfold entry_shaped, entry_complete, opt, has, lacks.
  intros Hsh Hc. repeat rewrite andb_true_iff in Hsh. repeat rewrite andb_true_iff in Hc.
  destruct Hsh as ((Hd & Sr) & Ss).
  destruct Hc as ((((Ci & Cr) & Cs) & Crc) & Csc).
  destruct e; try discriminate. clear Hd. cbn [get] in *.
  unfold sanitize_entry.
  change (py_contains "_initiator" (VDict d))
    with (Ok (dict_has "_initiator" d)).
  unfold bind at 1. unfold dict_has.
  destruct (dict_get "_initiator" d) as [i|]; [|discriminate].
  cbn [negb bind py_getitem].
  destruct (dict_get "request" d) as [r|]; [|discriminate]. cbn [bind].
  destruct (is_ok_true (sanitize_request hc r)) as [r' ->];
    [now apply sanitize_request_is_ok|].
  cbn [bind py_setitem py_getitem].
  rewrite dict_get_set_ne by reflexivity.
  destruct (dict_get "response" d) as [s|]; [|discriminate]. cbn [bind].
  destruct (is_ok_true (sanitize_response s)) as [s' ->];
    [now apply sanitize_response_is_ok|].
  reflexivity.
Qed.

Lemma for_each_all_have (f : value -> result value) (k : string)
      (x x' : value) :
  (forall y y', f y = Ok y' -> has k y = true) ->
  for_each f x = Ok x' -> all_have k x = true.
Proof.
  intros Hf H. unfold all_have. destruct x; try reflexivity. cbn [items].
  apply for_each_list in H as (l' & _ & HF).
  induction HF as [|y y' l0 l1 Hy _ IH]; [reflexivity|].
  cbn [forallb]. now rewrite (Hf y y' Hy), IH.
Qed.

Lemma sanitize_request_complete (r r' : value) :
  sanitize_request hc r = Ok r' -> request_complete r = true.
Proof.
  intros H. apply sanitize_request_inv in H
    as (d & dp & hs & hs' & qs & qs' & u & u' &
        -> & _ & Hhs & Hhs' & Hqs & Hqs' & Hu & _ & _).
  unfold request_complete, opt, has, lacks. cbn [get].
  rewrite Hhs, Hqs, Hu. cbn [negb andb].
  rewrite (for_each_all_have sanitize_header "name" hs hs'); [|  |assumption].
  - rewrite (for_each_all_have sanitize_qs "name" qs qs');
      [reflexivity| |assumption].
    intros y y' Hy. apply sanitize_qs_inv in Hy as (dy & n & b & -> & Hn & _).
    unfold has, lacks. cbn [get]. now rewrite Hn.
  - intros y y' Hy. apply sanitize_header_inv in Hy as (dy & n & -> & Hn & _).
    unfold has, lacks. cbn [get]. now rewrite Hn.
Qed.

Lemma sanitize_entry_complete_keys (e e' : value) :
  sanitize_entry hc e = Ok e' -> entry_complete e = true.
Proof.
  intros H. apply sanitize_entry_inv in H
    as (d & i & r & r' & s & s' & -> & Hi & Hr & Hr' & Hs & Hs' & _).
  apply sanitize_request_complete in Hr'.
  apply sanitize_response_inv in Hs' as (ds & c & -> & Hc & _).
  unfold entry_complete, opt, has, lacks. cbn [get].
  rewrite Hi, Hr, Hs, Hr'. cbn [get]. now rewrite Hc.
Qed.

(** The condition on a request URL, spelled out: it is a [str] that
    [urlparse] accepts, and no name or value of its masked parameters holds
    a surrogate. *)
Lemma url_shaped_iff (u : value) :
  url_shaped hc u = true <->
  exists s p,
    u = VStr s /\ urlparse hc s = Ok p /\
    qd_has_surrogate (mask_params SENSITIVE_KEYS (parse_qs (query p)))
    = false.
Proof.
  unfold url_shaped. split.
  - intros H. destruct u as [| | | |s| | |]; try discriminate H.
    rewrite mask_url_eq in H.
    destruct (urlparse hc s) as [p|] eqn:Hp; [|discriminate H].
    cbn [bind] in H.
    destruct (qd_has_surrogate _) eqn:E; [discriminate H|].
    exists s, p. auto.
  - intros (s & p & -> & Hp & Hs). rewrite mask_url_eq, Hp. cbn [bind].
    now rewrite Hs.
Qed.

(** A document whose fields have the types of the data model, the request
    URLs being [str]s for which [mask_query_string] returns a URL
    ([urlparse] accepts them and [urlencode] meets no surrogate, see
    [url_shaped_iff]), is
    sanitized exactly when no key the code reads without a test is missing:
    every entry has [_initiator], [request] and [response], every request
    [headers], [queryString] and [url], every header and query-string entry
    [name], and every response [content].  [cookies], [postData], [text] and
    [value] may be absent. *)
Theorem shaped_document_sanitized_iff_complete (data : value) :
  document_shaped hc data = true ->
  (exists data', sanitize_har_object hc data = Ok data') <->
  document_complete data = true.
Proof.
  intros Hsh. split.
  - intros [data' H].
    destruct (sanitize_har_object_entries hc data data' H)
      as (es & es' & Hes & _ & _ & _ & HF).
    unfold document_complete. rewrite Hes. clear -HF.
    induction HF as [|e e' l l' He _ IH]; [reflexivity|].
    cbn [forallb]. now rewrite (sanitize_entry_complete_keys e e' He), IH.
  - unfold document_complete, get2. intros Hc.
    unfold document_shaped, opt in Hsh. apply andb_true_iff in Hsh as [Hd Sl].
    destruct data; try discriminate. clear Hd. cbn [get] in *.
    destruct (dict_get "log" d) as [l|] eqn:Hl; [|discriminate].
    unfold log_shaped, opt in Sl. apply andb_true_iff in Sl as [Hd Se].
    destruct l as [| | | | | | |dl]; try discriminate. clear Hd.
    cbn [get] in *.
    destruct (dict_get "entries" dl) as [es|] eqn:He; [|discriminate].
    apply is_ok_true. unfold sanitize_har_object. cbn [py_getitem].
    rewrite Hl. cbn [bind py_getitem]. rewrite He. cbn [bind].
    destruct (is_ok_true (for_each (sanitize_entry hc) es)) as [es' ->];
      [|reflexivity].
    apply (for_each_is_ok _ (entry_shaped hc)); [assumption|].
    intros y Hy Hd. apply sanitize_entry_is_ok; [assumption|].
    rewrite forallb_forall in Hc. now apply Hc.
Qed.

(** ** Which keys are added *)

Lemma keys_post_data (d dp : dict) :
  post_data_redacted d dp -> map fst dp = map fst d.
Proof.
  unfold post_data_redacted.
  destruct (dict_get "postData" d) eqn:E; [|now intros ->].
  intros (pd & _ & ->). rewrite keys_dict_set. unfold dict_has.
  rewrite E. apply app_nil_r.
Qed.

Lemma has_post_data (d dp : dict) (k : string) :
  post_data_redacted d dp -> dict_has k dp = dict_has k d.
Proof.
  unfold post_data_redacted.
  destruct (dict_get "postData" d) eqn:E; [|now intros ->].
  intros (pd & _ & ->). rewrite dict_has_set.
  destruct (String.eqb k "postData") eqn:Ek; [|reflexivity].
  apply String.eqb_eq in Ek. subst k. unfold dict_has. now rewrite E.
Qed.

Lemma dict_has_get (k : string) (d : dict) (v : value) :
  dict_get k d = Some v -> dict_has k d = true.
Proof. unfold dict_has. now intros ->. Qed.

Lemma sanitize_request_keys (r r' : value) :
  sanitize_request hc r = Ok r' ->
  keys r' = (keys r ++ cookies_if_absent r)%list.
Proof.
  intros H. apply sanitize_request_inv in H
    as (d & dp & hs & hs' & qs & qs' & u & u' &
        -> & Hdp & Hhs & _ & Hqs & _ & Hu & _ & ->).
  unfold cookies_if_absent, lacks. cbn [keys get].
  rewrite !keys_dict_set, !dict_has_set. cbn [String.eqb Ascii.eqb Bool.eqb orb].
  rewrite !(has_post_data d dp) by assumption.
  rewrite (dict_has_get "url" d u), (dict_has_get "queryString" d qs),
    (dict_has_get "headers" d hs) by assumption.
  cbn [orb]. rewrite ?orb_true_r, !app_nil_r, (keys_post_data d dp)
    by assumption.
  unfold dict_has. now destruct (dict_get "cookies" d).
Qed.

Lemma sanitize_response_keys (s s' : value) :
  sanitize_response s = Ok s' ->
  keys s' = (keys s ++ cookies_if_absent s)%list.
Proof.
  intros H. apply sanitize_response_inv in H as (d & c & -> & Hc & ->).
  unfold cookies_if_absent, lacks. cbn [keys get].
  rewrite !keys_dict_set, !dict_has_set. cbn [String.eqb Ascii.eqb Bool.eqb orb].
  rewrite (dict_has_get "content" d _ Hc). cbn [orb]. rewrite ?app_nil_r.
  unfold dict_has. now destruct (dict_get "cookies" d).
Qed.

(** The keys of a sanitized entry are those of the entry, in their order.
    Its request and its response keep their keys in their order too, and
    get the key [cookies] at the end when they had none: no other key
    appears at these levels, and none disappears. *)
Theorem only_cookies_added (e e' : value) :
  sanitize_entry hc e = Ok e' ->
  keys e' = keys e /\
  exists r r' s s',
    get "request" e = Some r /\ get "request" e' = Some r' /\
    keys r' = (keys r ++ cookies_if_absent r)%list /\
    get "response" e = Some s /\ get "response" e' = Some s' /\
    keys s' = (keys s ++ cookies_if_absent s)%list.
Proof.
  intros H. apply sanitize_entry_inv in H
    as (d & i & r & r' & s & s' & -> & Hi & Hr & Hr' & Hs & Hs' & ->).
  split.
  - cbn [keys]. rewrite !keys_dict_set, dict_has_set.
    rewrite (dict_has_get "request" d r Hr), (dict_has_get "response" d s Hs).
    cbn [orb]. now rewrite ?orb_true_r, !app_nil_r.
  - exists r, r', s, s'. cbn [get].
    rewrite dict_get_set_ne by reflexivity. rewrite !dict_get_set_eq.
    repeat split; try assumption.
    + now apply sanitize_request_keys.
    + now apply sanitize_response_keys.
Qed.

(** ** [sanitize_initiator] *)

(** [sanitize_initiator] changes the value under [url] and nothing else: the
    keys, their order and the other values are those of the argument; the
    value under [url], when there is one, is what [mask_query_string] returns
    for it; an initiator without [url] is returned as it is. *)
Theorem sanitize_initiator_changes_url_only (i i' : value) :
  sanitize_initiator hc i = Ok i' ->
  keys i' = keys i /\ without ["url"] i' = without ["url"] i /\
  match get "url" i with
  | Some u =>
      exists u', mask_query_string hc u SENSITIVE_KEYS = Ok u' /\
                 get "url" i' = Some u'
  | None => i' = i
  end.
Proof.
  unfold sanitize_initiator. intros H.
  destruct i as [| | | | s | | l | d]; try discriminate.
  - (* str *)
    cbn [py_contains bind] in H.
    destruct (is_substring "url" s); [discriminate|].
    injection H as <-. cbn [get]. auto.
  - (* list *)
    cbn [py_contains bind] in H.
    destruct (existsb (fun y => py_eq_str y "url") l); [discriminate|].
    injection H as <-. cbn [get]. auto.
  - change (py_contains "url" (VDict d)) with (Ok (dict_has "url" d)) in H.
    unfold bind at 1 in H. unfold dict_has in H. cbn [get].
    destruct (dict_get "url" d) as [u|] eqn:Hu.
    + cbn [py_getitem] in H. rewrite Hu in H. cbn [bind] in H.
      destruct (mask_query_string hc u SENSITIVE_KEYS) as [u'|] eqn:Hm;
        [|discriminate].
      cbn [bind py_setitem] in H. injection H as <-.
      cbn [keys without get]. rewrite keys_dict_set. unfold dict_has.
      rewrite Hu, app_nil_r, dict_get_set_eq.
      split; [reflexivity|]. split; [|eauto].
      f_equal. apply filter_dict_set. reflexivity.
    + injection H as <-. auto.
Qed.

End Success.

(** [sanitize_response] applied to what it returned returns it again. *)
Theorem sanitize_response_idempotent (r r1 : value) :
  sanitize_response r = Ok r1 -> sanitize_response r1 = Ok r1.
Proof. apply sanitize_response_fixed. Qed.

(** ** Re-parsing a masked URL *)

Lemma split_params_rejoin (sch u : string) :
  split_params sch (rejoin_params sch u) = split_params sch u.
Proof.
  destruct (str_in sch uses_params && str_contains ";" u) eqn:C.
  2:{ unfold rejoin_params, split_params. rewrite C.
      cbn [fst snd join_params is_empty negb]. now rewrite C. }
  destruct (rsplit_after "/" u) as [d l] eqn:Er.
  pose proof Er as Er'. apply rsplit_after_inv in Er' as (Hu & Hl & Hd).
  destruct (split_once ";" l) as [[x r]|] eqn:Es.
  2:{ assert (E : split_params sch u = (u, ""))
        by (unfold split_params, splitparams; now rewrite C, Er, Es).
      unfold rejoin_params. rewrite E. cbn [fst snd join_params is_empty negb].
      exact E. }
  assert (E : split_params sch u = (d ++ x, r))
    by (unfold split_params, splitparams; now rewrite C, Er, Es).
  unfold rejoin_params. rewrite E. cbn [fst snd].
  apply split_once_inv in Es as [-> Hx]. unfold join_params.
  destruct r as [|b r]; cbn [is_empty negb].
  2:{ rewrite <- E. f_equal. subst u. now rewrite str_app_assoc. }
  unfold split_params.
  destruct (str_in sch uses_params && str_contains ";" (d ++ x)) eqn:C';
    [|reflexivity].
  rewrite str_contains_app in Hl. apply orb_false_iff in Hl as [Hxs _].
  assert (Er2 : rsplit_after "/" (d ++ x) = (d, x)).
  { destruct Hd as [-> | [d0 ->]].
    - now apply rsplit_after_absent.
    - rewrite str_app_assoc. cbn [append]. now apply rsplit_after_app. }
  unfold splitparams. rewrite Er2, split_once_absent by assumption.
  reflexivity.
Qed.

Lemma urlsplit_raises (hc : host_checks) (url : string) (e : exn) :
  urlsplit hc url = Raise e -> e = ValueError.
Proof.
  unfold urlsplit.
  destruct (split_scheme _) as [sch u1].
  unfold split_netloc.
  destruct (String.prefix "//" u1).
  - destruct (splitnetloc (drop2 u1)) as [nl rest].
    destruct (xorb _ _); [now intros [= <-]|].
    destruct (_ && negb (bracketed_netloc_ok hc nl)); [now intros [= <-]|].
    cbn [bind]. destruct (split_at "#" rest) as [u2 f].
    destruct (split_at "?" u2) as [u3 q].
    destruct (netloc_rejected hc nl); [now intros [= <-] | discriminate].
  - cbn [bind]. destruct (split_at "#" u1) as [u2 f].
    destruct (split_at "?" u2) as [u3 q].
    destruct (netloc_rejected hc ""); [now intros [= <-] | discriminate].
Qed.

Section Reparse.

Variable hc : host_checks.

Lemma urlparse_raises (url : string) (e : exn) :
  urlparse hc url = Raise e -> e = ValueError.
Proof.
  unfold urlparse. destruct (urlsplit hc url) as [[[[[sch nl] p0] q] f]|e']
    eqn:Es.
  - cbn [bind]. now destruct (split_params sch p0).
  - cbn [bind]. intros [= <-]. now apply urlsplit_raises in Es.
Qed.

(** The two ways [mask_query_string] fails on a [str], whatever the masked
    keys.  When [urlparse] rejects the URL it raises the [ValueError] of
    [urlparse]; when [urlparse] accepts the URL and a name or a value of the
    masked parameters holds a surrogate it raises the [UnicodeEncodeError]
    of [urlencode]; in every other case it returns a [str]. *)
Theorem mask_query_string_failures (url : string) (keys : list string) :
  match urlparse hc url with
  | Raise e =>
      e = ValueError /\
      mask_query_string hc (VStr url) keys = Raise ValueError
  | Ok p =>
      if qd_has_surrogate (mask_params keys (parse_qs (query p)))
      then mask_query_string hc (VStr url) keys = Raise UnicodeEncodeError
      else exists u1, mask_query_string hc (VStr url) keys = Ok (VStr u1)
  end.
Proof.
  cbn [mask_query_string]. rewrite mask_url_eq.
  destruct (urlparse hc url) as [p|e] eqn:Ep; cbn [bind].
  - destruct (qd_has_surrogate _); cbn [bind]; eauto.
  - apply urlparse_raises in Ep. now subst e.
Qed.

(** What [urlparse] reads in the URL that [mask_query_string] wrote. *)
Lemma masked_url_parsed (url : string) (keys : list string)
    (p : ParseResult) :
  str_forallb is_ascii url = true ->
  urlparse hc url = Ok p -> netloc p <> "" ->
  urlencode (mask_params keys (parse_qs (query p)))
  = Ok (urlencode_text (mask_params keys (parse_qs (query p)))) /\
  parsed_dict (mask_params keys (parse_qs (query p))) /\
  urlparse hc (urlunparse (scheme p) (netloc p) (path p) (params p)
                 (urlencode_text (mask_params keys (parse_qs (query p))))
                 (fragment p))
  = Ok {| scheme := scheme p; netloc := netloc p; path := path p;
          params := params p;
          query := urlencode_text (mask_params keys (parse_qs (query p)));
          fragment := fragment p |}.
Proof.
  intros Hascii Hp Hnl. unfold urlparse in Hp.
  destruct (urlsplit hc url) as [[[[[sch nl] p0] q] f]|] eqn:Es;
    [|discriminate].
  cbn [bind] in Hp.
  destruct (split_params sch p0) as [pa pr] eqn:Ep.
  injection Hp as <-. cbn [scheme netloc path params query fragment] in *.
  destruct (urlsplit_inv hc url sch nl p0 q f Es Hnl)
    as (Hwf & Hnlc & Hbr & Hrej & Hroot & Hpq & Hpf & Hall).
  destruct (Hall is_url_safe lower_safe (str_forallb_filter_self _ _))
    as (Ss & Sn & Sp & _ & Sf).
  assert (Hu0 : str_forallb is_ascii (preprocessed url) = true)
    by now apply str_forallb_filter, str_forallb_lstrip.
  destruct (Hall is_ascii lower_ascii Hu0) as (_ & _ & _ & Aq & _).
  assert (Hd : parsed_dict (mask_params keys (parse_qs q)))
    by now apply parsed_dict_mask_params, parsed_dict_parse_qs.
  split; [now rewrite urlencode_eq, (parsed_dict_no_surrogate _ Hd)|].
  split; [assumption|].
  assert (HP : join_params pa pr = rejoin_params sch p0)
    by (unfold rejoin_params; now rewrite Ep).
  set (q1 := urlencode_text (mask_params keys (parse_qs q))).
  unfold urlunparse. rewrite HP.
  set (P := rejoin_params sch p0).
  assert (Hsplit : urlsplit hc (urlunsplit sch nl P q1 f)
                   = Ok (sch, nl, P, q1, f)).
  { apply urlsplit_assembled; try assumption.
    - now apply rejoin_params_rooted.
    - now apply rejoin_params_contains.
    - now apply rejoin_params_contains.
    - eapply str_forallb_contains; [apply urlencode_chars | reflexivity].
    - now apply rejoin_params_forallb.
    - eapply str_forallb_impl; [apply is_query_char_safe|].
      apply urlencode_chars. }
  unfold urlparse. rewrite Hsplit. cbn [bind]. subst P.
  now rewrite split_params_rejoin, Ep.
Qed.

(** [mask_query_string] changes the query only.  For an ASCII URL in which
    [urlparse] reads a network location, [mask_query_string] returns a URL,
    and [urlparse] reads in it the scheme, network location, path,
    parameters and fragment it read in the argument, and the query that
    [urlencode] returned for the masked parameters. *)
Theorem masked_url_components_kept (url : string) (keys : list string)
    (p : ParseResult) :
  str_forallb is_ascii url = true ->
  urlparse hc url = Ok p -> netloc p <> "" ->
  exists u1,
    mask_query_string hc (VStr url) keys = Ok (VStr u1) /\
    urlparse hc u1
    = Ok {| scheme := scheme p; netloc := netloc p; path := path p;
            params := params p;
            query := urlencode_text (mask_params keys (parse_qs (query p)));
            fragment := fragment p |} /\
    urlencode (mask_params keys (parse_qs (query p)))
    = Ok (urlencode_text (mask_params keys (parse_qs (query p)))).
Proof.
  intros Ha Hp Hn.
  destruct (masked_url_parsed url keys p Ha Hp Hn) as (He & _ & H).
  eexists. split; [|split; [exact H | exact He]].
  cbn [mask_query_string]. unfold mask_url. rewrite Hp. cbn [bind].
  now rewrite He.
Qed.

Lemma mask_params_redacted (ks : list string) (d : qdict) (k : string)
    (vs : list string) :
  In k ks -> qd_get k (mask_params ks d) = Some vs ->
  Forall (eq STR_REDACTED) vs.
Proof.
  intros Hk H. destruct (qd_get k d) as [vs0|] eqn:E.
  - rewrite (mask_params_get ks d k vs0 Hk E) in H. injection H as <-.
    induction (length vs0); constructor; auto.
  - apply qd_get_In in E. rewrite <- (mask_params_keys ks) in E.
    apply qd_get_In in E. congruence.
Qed.

(** No sensitive value is left in the URL that [mask_query_string] returns
    for an ASCII URL with a network location: parsing the query of the
    returned URL gives the parameters that were encoded, in which each
    masked key has the marker for every value, and every other name the
    values it had in the argument. *)
Theorem masked_url_has_no_sensitive_value (url : string)
    (keys : list string) (p : ParseResult) :
  str_forallb is_ascii url = true ->
  urlparse hc url = Ok p -> netloc p <> "" ->
  exists u1 p1,
    mask_query_string hc (VStr url) keys = Ok (VStr u1) /\
    urlparse hc u1 = Ok p1 /\
    parse_qs (query p1) = mask_params keys (parse_qs (query p)) /\
    (forall k vs, In k keys -> qd_get k (parse_qs (query p1)) = Some vs ->
                  Forall (eq STR_REDACTED) vs) /\
    (forall k, ~ In k keys ->
               qd_get k (parse_qs (query p1)) = qd_get k (parse_qs (query p))).
Proof.
  intros Ha Hp Hn.
  destruct (masked_url_parsed url keys p Ha Hp Hn) as (He & Hd & H).
  eexists. eexists. split; [|split; [exact H|]].
  { cbn [mask_query_string]. unfold mask_url. rewrite Hp. cbn [bind].
    now rewrite He. }
  cbn [query].
  assert (E : parse_qs (urlencode_text (mask_params keys (parse_qs (query p))))
              = mask_params keys (parse_qs (query p))).
  { apply parse_qs_urlencode; [|assumption].
    rewrite mask_params_keys. apply NoDup_parse_qs. }
  rewrite E. split; [reflexivity|]. split.
  - intros k vs Hk. now apply mask_params_redacted.
  - intros k Hk. now apply mask_params_get_other.
Qed.

End Reparse.

(** ** Encoded parameter names *)

Lemma mask_params_single (keys : list string) (k v : string) :
  In k keys -> mask_params keys [(k, [v])] = [(k, [STR_REDACTED])].
Proof.
  intros Hk.
  pose proof (mask_params_keys keys [(k, [v])]) as Hkeys.
  assert (Hg : qd_get k [(k, [v])] = Some [v])
    by (cbn [qd_get]; now rewrite String.eqb_refl).
  pose proof (mask_params_get keys [(k, [v])] k [v] Hk Hg) as Hget.
  destruct (mask_params keys [(k, [v])]) as [|[k' vs'] [|? ?]];
    try discriminate.
  cbn [map fst] in Hkeys. injection Hkeys as ->.
  cbn [qd_get] in Hget. rewrite String.eqb_refl in Hget.
  now injection Hget as ->.
Qed.

(** A parameter name is compared with the masked keys after it was
    percent-decoded: a field [n=v] whose name [n] decodes to a masked key
    [k] is written back as [k=REDACTED], with [k] quoted.  [urlencode] is
    given the one parameter [k] with the marker for its value: it returns
    that text, or raises as [quote_plus] does on [k]. *)
Theorem encoded_name_is_masked (n v k : string) (keys : list string) :
  str_contains "=" n = false -> str_contains "&" n = false ->
  str_contains "&" v = false -> v <> "" ->
  unquote (plus_to_space n) = k -> In k keys ->
  urlencode_text (mask_params keys (parse_qs (n ++ "=" ++ v)))
  = quote_bytes k ++ "=REDACTED" /\
  urlencode (mask_params keys (parse_qs (n ++ "=" ++ v)))
  = (qk <- quote_plus k ;; Ok (qk ++ "=REDACTED")).
Proof.
  intros Hn1 Hn2 Hv Hne Hk Hin.
  assert (Hq : parse_qsl (n ++ "=" ++ v)
               = [(k, unquote (plus_to_space v))]).
  { unfold parse_qsl.
    assert (E : is_empty (n ++ "=" ++ v) = false) by now destruct n.
    rewrite E. rewrite split_all_absent.
    2:{ rewrite str_contains_app, Hn2. cbn [append].
        unfold str_contains in *. cbn [str_existsb]. now rewrite Hv. }
    cbn [flat_map]. rewrite app_nil_r. unfold parse_field. rewrite E.
    cbn [append]. rewrite split_once_app by assumption.
    rewrite (is_empty_false v Hne). now rewrite Hk. }
  unfold parse_qs. rewrite Hq. cbn [fold_left qd_add qd_get qd_set].
  rewrite mask_params_single by assumption.
  assert (Ht : urlencode_text [(k, [STR_REDACTED])]
               = quote_bytes k ++ "=REDACTED").
  { unfold urlencode_text, qd_pairs, encode_pair.
    cbn [flat_map map fst snd app join]. reflexivity. }
  split; [exact Ht|].
  rewrite urlencode_eq, quote_plus_eq, Ht. unfold qd_has_surrogate.
  cbn [existsb fst snd].
  change (has_surrogate STR_REDACTED) with false. rewrite !orb_false_r.
  now destruct (has_surrogate k).
Qed.

(** ** The objects in the result *)

Lemma is_json_get (k : string) (d : dict) (v : value) :
  is_json (VDict d) = true -> dict_get k d = Some v -> is_json v = true.
Proof.
  cbn [is_json]. induction d as [|[k' v'] d IH]; [discriminate|].
  cbn [forallb dict_get snd]. intros H. apply andb_true_iff in H as [Hv Hd].
  destruct (String.eqb k k'); [now intros [= <-] | now apply IH].
Qed.

Lemma is_json_set (k : string) (v : value) (d : dict) :
  is_json (VDict d) = true ->
  is_json (VDict (dict_set k v d)) = is_json v.
Proof.
  cbn [is_json]. induction d as [|[k' v'] d IH]; cbn [forallb dict_set snd].
  - intros _. apply andb_true_r.
  - intros H. apply andb_true_iff in H as [Hv Hd].
    destruct (String.eqb k k'); cbn [forallb snd].
    + now rewrite Hd, andb_true_r.
    + now rewrite Hv, IH.
Qed.

Lemma is_json_for_each (f : value -> result value) (x x' : value) :
  (forall y y', f y = Ok y' -> is_json y = true -> is_json y' = true) ->
  for_each f x = Ok x' -> is_json x = true -> is_json x' = true.
Proof.
  intros Hf H Hx. destruct x as [| | | | | | l |];
    try (apply for_each_not_list in H as [-> _]; [assumption | discriminate]).
  apply for_each_list in H as (l' & -> & HF). cbn [is_json] in *.
  induction HF as [|y y' l0 l1 Hy _ IH]; [reflexivity|].
  cbn [forallb] in *. apply andb_true_iff in Hx as [Hy0 Hl].
  now rewrite (Hf y y' Hy Hy0), IH.
Qed.

Lemma is_json_header (h h' : value) :
  sanitize_header h = Ok h' -> is_json h = true -> is_json h' = true.
Proof.
  intros H Hj. apply sanitize_header_inv in H as (d & n & -> & _ & ->).
  destruct (py_eq_str n "Authorization"); [|assumption].
  now rewrite is_json_set.
Qed.

Lemma is_json_qs (q q' : value) :
  sanitize_qs q = Ok q' -> is_json q = true -> is_json q' = true.
Proof.
  intros H Hj. apply sanitize_qs_inv in H as (d & n & b & -> & _ & _ & ->).
  destruct b; [|assumption]. now rewrite is_json_set.
Qed.

Lemma is_json_response (s s' : value) :
  sanitize_response s = Ok s' -> is_json s = true -> is_json s' = true.
Proof.
  intros H Hj. apply sanitize_response_inv in H as (d & c & -> & Hc & ->).
  rewrite is_json_set; [reflexivity|].
  rewrite is_json_set by assumption.
  rewrite is_json_set; [reflexivity|]. eapply is_json_get; eassumption.
Qed.

Lemma is_json_post_data (d dp : dict) :
  post_data_redacted d dp -> is_json (VDict d) = true ->
  is_json (VDict dp) = true.
Proof.
  unfold post_data_redacted. intros H Hj.
  destruct (dict_get "postData" d) as [p|] eqn:E; [|now subst].
  destruct H as (pd & -> & ->). rewrite is_json_set by assumption.
  rewrite is_json_set; [reflexivity|]. eapply is_json_get; eassumption.
Qed.

Section Json.

Variable hc : host_checks.

(** What [mask_query_string] returns is a [str] exactly when it was given
    one; anything else it returns is [bytes]. *)
Lemma mask_query_string_json (u u' : value) (keys : list string) :
  mask_query_string hc u keys = Ok u' -> is_json u = true ->
  is_json u' = true <-> exists s, u = VStr s.
Proof.
  intros H Hj. destruct u; try discriminate; cbn [mask_query_string] in H.
  1-4,6-7:
    (match type of H with context [if ?b then _ else _] =>
       destruct b; [discriminate|] end;
     injection H as <-; split; [discriminate | intros [? [=]]]).
  destruct (mask_url hc s keys); [|discriminate]. injection H as <-.
  split; eauto.
Qed.

Lemma is_json_entry (e e' : value) :
  sanitize_entry hc e = Ok e' -> is_json e = true ->
  is_json e' = true <-> url_is_str e.
Proof.
  intros H Hj. apply sanitize_entry_inv in H
    as (d & i & r & r' & s & s' & -> & Hi & Hr & Hr' & Hs & Hs' & ->).
  pose proof (is_json_get _ _ _ Hj Hr) as Jr.
  pose proof (is_json_get _ _ _ Hj Hs) as Js.
  pose proof (is_json_response s s' Hs' Js) as Js'.
  apply sanitize_request_inv in Hr'
    as (dr & dp & hs & hs' & qs & qs' & u & u' &
        -> & Hdp & Hhs & Hhs' & Hqs & Hqs' & Hu & Hm & ->).
  pose proof (is_json_get _ _ _ Jr Hhs) as Jhs.
  pose proof (is_json_get _ _ _ Jr Hqs) as Jqs.
  pose proof (is_json_get _ _ _ Jr Hu) as Ju.
  pose proof (is_json_for_each _ _ _ is_json_header Hhs' Jhs) as Jhs'.
  pose proof (is_json_for_each _ _ _ is_json_qs Hqs' Jqs) as Jqs'.
  pose proof (is_json_post_data dr dp Hdp Jr) as Jdp.
  unfold url_is_str, get2. cbn [get]. rewrite Hr. cbn [get]. rewrite Hu.
  pose proof (mask_query_string_json u u' SENSITIVE_KEYS Hm Ju) as Hstr.
  split; intros H.
  - destruct Hstr as [[s0 ->] _]; [|eauto].
    eapply (is_json_get "url"); [|apply dict_get_set_eq].
    apply (is_json_get "request" _ _ H).
    rewrite dict_get_set_ne by reflexivity. apply dict_get_set_eq.
  - assert (Ju' : is_json u' = true)
      by (destruct H as [s0 [= ->]]; apply Hstr; eauto).
    rewrite is_json_set; [assumption|].
    rewrite is_json_set by assumption.
    rewrite is_json_set; [assumption|].
    rewrite is_json_set; [assumption|].
    rewrite is_json_set; [assumption|].
    now rewrite is_json_set.
Qed.

Lemma is_json_entries (l l' : list value) :
  Forall2 (fun y y' => sanitize_entry hc y = Ok y') l l' ->
  is_json (VList l) = true ->
  is_json (VList l') = true <-> Forall url_is_str l.
Proof.
  cbn [is_json]. induction 1 as [|y y' l0 l1 Hy _ IH].
  - split; [constructor | reflexivity].
  - cbn [forallb]. intros Je. apply andb_true_iff in Je as [Jy Jl0].
    rewrite andb_true_iff, (is_json_entry y y' Hy Jy), (IH Jl0).
    split; [intros [? ?]; now constructor | intros Hall; now inversion Hall].
Qed.

(** The sanitizer keeps a JSON document a JSON document unless a request URL
    is not a string.  For a document without [bytes] on which
    [sanitize_har_object] succeeds, the result is without [bytes] exactly
    when the [url] of every request is a [str]: for a [url] that is [null],
    [false], [0], [[]] or [{}], [mask_query_string] returns the [bytes]
    object [b''], which is stored in the result. *)
Theorem result_is_json_iff_urls_are_str (data data' es : value) :
  is_json data = true ->
  sanitize_har_object hc data = Ok data' ->
  get2 "log" "entries" data = Some es ->
  is_json data' = true <-> Forall url_is_str (items es).
Proof.
  intros Hj H Hes.
  destruct (sanitize_har_object_entries hc data data' H)
    as (es0 & es' & Hes0 & _ & _ & _ & HF).
  rewrite Hes in Hes0. injection Hes0 as <-.
  apply sanitize_har_object_inv in H
    as (d & l & es0 & es1 & -> & Hlog & Hes1 & Hloop & ->).
  unfold get2 in Hes. cbn [get] in Hes. rewrite Hlog in Hes.
  cbn [get] in Hes. rewrite Hes1 in Hes. injection Hes as ->.
  pose proof (is_json_get _ _ _ Hj Hlog) as Jl.
  pose proof (is_json_get _ _ _ Jl Hes1) as Je.
  assert (Hlist : is_json es1 = true <-> Forall url_is_str (items es)).
  { destruct es as [| | | | | | le |];
      try (apply for_each_not_list in Hloop as [-> _]; [|discriminate];
           split; [constructor | intros _; exact Je]).
    apply for_each_list in Hloop as (le' & -> & HF').
    now apply is_json_entries. }
  rewrite <- Hlist. split; intros H.
  - eapply (is_json_get "entries"); [|apply dict_get_set_eq].
    apply (is_json_get "log" _ _ H), dict_get_set_eq.
  - rewrite is_json_set by assumption. now rewrite is_json_set.
Qed.

End Json.

(** ** The order of the parameters *)

Lemma str_in_In (k : string) (l : list string) :
  str_in k l = true <-> In k l.
Proof.
  unfold str_in. rewrite existsb_exists. split.
  - intros (x & Hx & E). apply String.eqb_eq in E. now subst.
  - intros H. exists k. split; [assumption | apply String.eqb_refl].
Qed.

Lemma qd_get_str_in (k : string) (d : qdict) :
  str_in k (map fst d) = match qd_get k d with Some _ => true | None => false end.
Proof.
  destruct (qd_get k d) eqn:E.
  - apply str_in_In. destruct (in_dec string_dec k (map fst d)) as [H|H];
      [assumption|]. apply qd_get_In in H. congruence.
  - apply qd_get_In in E. apply not_true_is_false. now rewrite str_in_In.
Qed.

Lemma keys_qd_add (d : qdict) (k v : string) :
  map fst (qd_add d (k, v))
  = (map fst d ++ if str_in k (map fst d) then [] else [k])%list.
Proof.
  unfold qd_add. rewrite qd_get_str_in.
  destruct (qd_get k d) eqn:E; rewrite keys_qd_set, E; reflexivity.
Qed.

Lemma qd_get_qd_add (d : qdict) (k k' v : string) :
  qd_get k (qd_add d (k', v))
  = if String.eqb k k' then extend (qd_get k d) [v] else qd_get k d.
Proof.
  unfold qd_add. destruct (String.eqb k k') eqn:E.
  - apply String.eqb_eq in E. subst k'.
    destruct (qd_get k d); now rewrite qd_get_set_eq.
  - apply String.eqb_neq in E.
    destruct (qd_get k' d); now rewrite qd_get_set_ne by assumption.
Qed.

Lemma extend_extend (g : option (list string)) (vs ws : list string) :
  extend (extend g vs) ws = extend g (vs ++ ws).
Proof.
  destruct vs as [|v vs]; [reflexivity|].
  destruct ws as [|w ws]; [now rewrite app_nil_r|].
  cbn [extend app]. destruct g; cbn [app]; f_equal.
  now rewrite <- app_assoc.
Qed.

Lemma qd_get_fold_qd_add (k : string) (l : list (string * string))
    (acc : qdict) :
  qd_get k (fold_left qd_add l acc) = extend (qd_get k acc) (values_of k l).
Proof.
  revert acc. induction l as [|[k' v] l IH]; intros acc; [reflexivity|].
  cbn [fold_left]. rewrite IH, qd_get_qd_add.
  unfold values_of, pairs_of. cbn [filter fst].
  rewrite (String.eqb_sym k' k).
  destruct (String.eqb k k'); [|reflexivity].
  cbn [map snd]. now rewrite extend_extend.
Qed.

Lemma filter_filter {A : Type} (p q : A -> bool) (l : list A) :
  filter p (filter q l) = filter (fun x => q x && p x) l.
Proof.
  induction l as [|x l IH]; [reflexivity|]. cbn [filter].
  destruct (q x); cbn [filter andb]; [destruct (p x)|]; now rewrite IH.
Qed.

Lemma str_in_app (k : string) (l1 l2 : list string) :
  str_in k (l1 ++ l2) = str_in k l1 || str_in k l2.
Proof. unfold str_in. apply existsb_app. Qed.

Lemma keys_fold_qd_add (l : list (string * string)) (acc : qdict) :
  map fst (fold_left qd_add l acc)
  = (map fst acc
     ++ filter (fun k => negb (str_in k (map fst acc)))
          (first_names (map fst l)))%list.
Proof.
  revert acc. induction l as [|[k v] l IH]; intros acc.
  - cbn. now rewrite app_nil_r.
  - cbn [fold_left map fst first_names filter]. rewrite IH, keys_qd_add.
    rewrite filter_filter.
    destruct (str_in k (map fst acc)) eqn:E; cbn [negb].
    + rewrite app_nil_r. f_equal. apply filter_ext_in. intros x _.
      destruct (String.eqb x k) eqn:Ex; [|reflexivity].
      apply String.eqb_eq in Ex. subst x. now rewrite E.
    + rewrite <- app_assoc. cbn [app]. f_equal. f_equal.
      apply filter_ext. intros x. rewrite str_in_app. unfold str_in at 2.
      cbn [existsb]. rewrite orb_false_r, negb_orb. apply andb_comm.
Qed.

Lemma qd_get_of_In (d : qdict) (k : string) (vs : list string) :
  NoDup (map fst d) -> In (k, vs) d -> qd_get k d = Some vs.
Proof.
  induction d as [|[k0 vs0] d IH]; [intros _ []|].
  cbn [map fst qd_get]. intros Hnd [[= -> ->] | Hin].
  - now rewrite String.eqb_refl.
  - inversion Hnd as [|? ? Hk0 Hnd']; subst.
    destruct (String.eqb k k0) eqn:E; [|now apply IH].
    apply String.eqb_eq in E. subst k0. exfalso. apply Hk0.
    apply (in_map fst) in Hin. exact Hin.
Qed.

Lemma pairs_of_values (k : string) (l : list (string * string)) :
  map (pair k) (values_of k l) = pairs_of k l.
Proof.
  unfold values_of, pairs_of. induction l as [|[k' v] l IH]; [reflexivity|].
  cbn [filter fst]. destruct (String.eqb k' k) eqn:E; [|assumption].
  apply String.eqb_eq in E. subst k'. cbn [map snd]. now rewrite IH.
Qed.

Lemma flat_map_keys {A : Type} (f : string -> list A) (d : qdict) :
  flat_map f (map fst d) = flat_map (fun kvs => f (fst kvs)) d.
Proof. induction d as [|kvs d IH]; [reflexivity|]. cbn. now rewrite IH. Qed.

Lemma flat_map_ext_on {A B : Type} (f g : A -> list B) (l : list A) :
  (forall x, In x l -> f x = g x) -> flat_map f l = flat_map g l.
Proof.
  induction l as [|x l IH]; intros H; [reflexivity|]. cbn [flat_map].
  rewrite (H x (or_introl eq_refl)), IH; [reflexivity|].
  intros y Hy. apply H. now right.
Qed.

(** [parse_qs] and [urlencode] regroup the parameters by name. *)
Lemma parse_qs_pairs (qs : string) :
  qd_pairs (parse_qs qs) = regroup (parse_qsl qs).
Proof.
  unfold regroup.
  pose proof (keys_fold_qd_add (parse_qsl qs) []) as Hk.
  cbn [map app] in Hk.
  rewrite (filter_ext _ (fun _ => true)), filter_true in Hk
    by reflexivity.
  fold (parse_qs qs) in Hk. rewrite <- Hk, flat_map_keys.
  unfold qd_pairs. apply flat_map_ext_on. intros [k vs] Hin. cbn [fst snd].
  apply qd_get_of_In in Hin; [|apply NoDup_parse_qs].
  unfold parse_qs in Hin. rewrite qd_get_fold_qd_add in Hin.
  rewrite <- pairs_of_values. cbn [qd_get] in Hin.
  destruct (values_of k (parse_qsl qs)); [discriminate|].
  cbn [extend] in Hin. now injection Hin as <-.
Qed.

(** ** Masking, pair by pair *)

Lemma qd_ext (d1 d2 : qdict) :
  map fst d1 = map fst d2 -> NoDup (map fst d1) ->
  (forall k, qd_get k d1 = qd_get k d2) -> d1 = d2.
Proof.
  revert d2. induction d1 as [|[k vs] d1 IH]; intros [|[k2 vs2] d2];
    try discriminate; [reflexivity|].
  cbn [map fst]. intros [= <- Hk] Hnd Hget.
  inversion Hnd as [|? ? Hnk Hnd']; subst.
  pose proof (Hget k) as Hg. cbn [qd_get] in Hg.
  rewrite String.eqb_refl in Hg. injection Hg as <-. f_equal.
  apply IH; [assumption.. |]. intros k'. specialize (Hget k').
  cbn [qd_get] in Hget. destruct (String.eqb k' k) eqn:E; [|assumption].
  apply String.eqb_eq in E. subst k'.
  pose proof Hnk as Hnk2. rewrite Hk in Hnk2.
  apply qd_get_In in Hnk. apply qd_get_In in Hnk2. congruence.
Qed.

Lemma qd_get_map_mask_entry (keys : list string) (d : qdict) (k : string) :
  qd_get k (map (mask_entry keys) d)
  = if str_in k keys
    then option_map (fun vs => repeat STR_REDACTED (length vs)) (qd_get k d)
    else qd_get k d.
Proof.
  induction d as [|[k0 vs0] d IH]; [now destruct (str_in k keys)|].
  cbn [map qd_get]. unfold mask_entry at 1. cbn [fst snd].
  destruct (String.eqb k k0) eqn:E.
  - apply String.eqb_eq in E. subst k0.
    destruct (str_in k keys); cbn [qd_get]; now rewrite String.eqb_refl.
  - destruct (str_in k0 keys); cbn [qd_get fst]; now rewrite E.
Qed.

Lemma mask_params_entries (keys : list string) (d : qdict) :
  NoDup (map fst d) -> mask_params keys d = map (mask_entry keys) d.
Proof.
  intros Hnd.
  assert (Hk : map fst (map (mask_entry keys) d) = map fst d).
  { rewrite map_map. apply map_ext. intros [k vs]. unfold mask_entry.
    now destruct (str_in _ keys). }
  apply qd_ext.
  - now rewrite mask_params_keys, Hk.
  - now rewrite mask_params_keys.
  - intros k. rewrite qd_get_map_mask_entry.
    destruct (str_in k keys) eqn:E.
    + apply str_in_In in E. destruct (qd_get k d) as [vs|] eqn:G.
      * now apply mask_params_get.
      * cbn [option_map]. apply qd_get_In. rewrite mask_params_keys.
        now apply qd_get_In.
    + apply mask_params_get_other. rewrite <- str_in_In. congruence.
Qed.

Lemma qd_pairs_mask_entry (keys : list string) (d : qdict) :
  qd_pairs (map (mask_entry keys) d) = map (redact keys) (qd_pairs d).
Proof.
  unfold qd_pairs. induction d as [|[k vs] d IH]; [reflexivity|].
  cbn [map flat_map]. rewrite map_app, IH. f_equal.
  unfold mask_entry, redact. cbn [fst snd]. rewrite map_map. cbn [fst].
  destruct (str_in k keys).
  - cbn [fst snd]. induction vs as [|v vs IHv]; [reflexivity|].
    cbn [length repeat map]. now rewrite IHv.
  - reflexivity.
Qed.

Lemma existsb_pairs_of_name (k : string) (vs : list string) :
  existsb pair_has_surrogate (map (pair k) vs)
  = match vs with [] => false | _ :: _ => has_surrogate k end
    || existsb has_surrogate vs.
Proof.
  induction vs as [|v vs IH]; [reflexivity|].
  cbn [map existsb]. rewrite IH. unfold pair_has_surrogate. cbn [fst snd].
  destruct (has_surrogate k), (has_surrogate v), vs; reflexivity.
Qed.

(** [urlencode] meets a surrogate exactly when one of the pairs it visits
    holds one, when no name has an empty list of values. *)
Lemma qd_has_surrogate_pairs (d : qdict) :
  Forall (fun kvs => snd kvs <> []) d ->
  qd_has_surrogate d = existsb pair_has_surrogate (qd_pairs d).
Proof.
  unfold qd_has_surrogate, qd_pairs. induction 1 as [|[k vs] d Hne _ IH];
    [reflexivity|].
  cbn [existsb flat_map fst snd]. rewrite existsb_app, IH. f_equal.
  change (fun v : string => (k, v)) with (pair (B := string) k).
  rewrite existsb_pairs_of_name. cbn [snd] in Hne.
  destruct vs; [congruence | reflexivity].
Qed.

Lemma parse_qs_values (qs : string) :
  Forall (fun kvs => snd kvs <> []) (parse_qs qs).
Proof.
  apply Forall_forall. intros [k vs] Hin. cbn [snd].
  apply qd_get_of_In in Hin; [|apply NoDup_parse_qs].
  unfold parse_qs in Hin. rewrite qd_get_fold_qd_add in Hin.
  cbn [qd_get] in Hin.
  destruct (values_of k (parse_qsl qs)); [discriminate|].
  cbn [extend] in Hin. injection Hin as <-. discriminate.
Qed.

Lemma mask_entry_values (keys : list string) (d : qdict) :
  Forall (fun kvs => snd kvs <> []) d ->
  Forall (fun kvs => snd kvs <> []) (map (mask_entry keys) d).
Proof.
  induction 1 as [|[k vs] d Hne _ IH]; constructor; [|assumption].
  unfold mask_entry. cbn [fst snd] in *.
  destruct (str_in k keys); [|assumption]. cbn [snd].
  destruct vs; [congruence | discriminate].
Qed.

Section Regrouping.

Variable hc : host_checks.

(** The query [mask_query_string] writes, pair by pair.  For a [str] that
    [urlparse] accepts, take the pairs of [parse_qsl] grouped by name (names
    in the order of their first occurrence, the values of a name in their
    order), each with the marker for its value when its name is a masked
    key.  When one of these pairs holds a surrogate, [mask_query_string]
    raises the [UnicodeEncodeError] of [urlencode].  Otherwise it returns
    the URL that has the components of the argument and, for its query,
    these pairs quoted and joined by [&]. *)
Theorem masked_query_is_regrouped_pairs (url : string) (keys : list string)
    (p : ParseResult) :
  urlparse hc url = Ok p ->
  let pairs := map (redact keys) (regroup (parse_qsl (query p))) in
  mask_query_string hc (VStr url) keys
  = if existsb pair_has_surrogate pairs then Raise UnicodeEncodeError
    else Ok (VStr (urlunparse (scheme p) (netloc p) (path p) (params p)
                     (join "&" (map encode_pair pairs)) (fragment p))).
Proof.
  intros Hp pairs. cbn [mask_query_string]. rewrite mask_url_eq, Hp.
  cbn [bind]. unfold urlencode_text.
  rewrite mask_params_entries by apply NoDup_parse_qs.
  rewrite qd_has_surrogate_pairs
    by apply mask_entry_values, parse_qs_values.
  rewrite qd_pairs_mask_entry, parse_qs_pairs. fold pairs.
  now destruct (existsb pair_has_surrogate pairs).
Qed.

(** One entry that [sanitize_entry] cannot process makes the whole call
    fail: [sanitize_har_object] returns no document. *)
Theorem one_bad_entry_fails_document (data es e : value) :
  get2 "log" "entries" data = Some es ->
  In e (items es) -> is_ok (sanitize_entry hc e) = false ->
  is_ok (sanitize_har_object hc data) = false.
Proof.
  intros Hes Hin Hbad.
  destruct (sanitize_har_object hc data) as [data'|] eqn:H; [|reflexivity].
  destruct (sanitize_har_object_entries hc data data' H)
    as (es0 & es' & Hes0 & _ & _ & _ & HF).
  rewrite Hes in Hes0. injection Hes0 as <-.
  exfalso. clear -HF Hin Hbad.
  induction HF as [|y y' l l' Hy _ IH]; [destruct Hin|].
  destruct Hin as [-> | Hin]; [|auto].
  rewrite Hy in Hbad. discriminate.
Qed.

(** A document whose [log.entries] is the empty list is returned as it
    is. *)
Theorem empty_entries_identity (data : value) :
  get2 "log" "entries" data = Some (VList []) ->
  sanitize_har_object hc data = Ok data.
Proof.
  unfold get2. destruct data as [| | | | | | |d]; try discriminate.
  cbn [get]. destruct (dict_get "log" d) as [l|] eqn:Hl; [|discriminate].
  destruct l as [| | | | | | |dl]; try discriminate. cbn [get]. intros He.
  unfold sanitize_har_object. cbn [py_getitem]. rewrite Hl.
  cbn [bind py_getitem]. rewrite He. cbn [bind for_each mapM py_setitem].
  now rewrite (dict_set_same "entries"), (dict_set_same "log").
Qed.

End Regrouping.

(** ** The command line *)

Section MainProperties.

Context {Path World Err : Type}.
Variable hc : host_checks.
Variable env : Env Path World Err.

Lemma incomplete_document_fails (data : value) :
  document_complete data = false ->
  exists e, sanitize_har_object hc data = Raise e.
Proof.
  intros Hc. destruct (sanitize_har_object hc data) as [data'|e] eqn:H;
    [|eauto].
  destruct (sanitize_har_object_entries hc data data' H)
    as (es & es' & Hes & _ & _ & _ & HF).
  unfold document_complete in Hc. rewrite Hes in Hc.
  assert (Hall : forallb entry_complete (items es) = true).
  { clear -HF. induction HF as [|e e' l l' He _ IH]; [reflexivity|].
    cbn [forallb]. now rewrite (sanitize_entry_complete_keys hc e e' He), IH. }
  congruence.
Qed.

(** [main] writes nothing unless everything before the writing succeeded.
    Either it leaves the file system and standard output as they were, or
    the input file was read, its text parsed, the document sanitized (so no
    key the sanitizer needs was missing) and the result serialized, and
    what [main] did is the delivery of that text. *)
Theorem main_writes_only_after_success (args : Args Path) (w : World) :
  fst (main hc env args w) = w \/
  exists text input_data output_data output_string,
    read_text env (har_file args) w = inl text /\
    json_loads env text = inl input_data /\
    sanitize_har_object hc input_data = Ok output_data /\
    document_complete input_data = true /\
    json_dumps env output_data = inl output_string /\
    main hc env args w = deliver env args output_string w.
Proof.
  unfold main.
  destruct (read_text env (har_file args) w) as [text|] eqn:Hr; [|now left].
  destruct (json_loads env text) as [input_data|] eqn:Hl; [|now left].
  destruct (sanitize_har_object hc input_data) as [output_data|] eqn:Hs;
    [|now left].
  destruct (json_dumps env output_data) as [output_string|] eqn:Hd;
    [|now left].
  right. exists text, input_data, output_data, output_string.
  repeat split; try reflexivity; try assumption.
  destruct (document_complete input_data) eqn:Hc; [reflexivity|].
  apply incomplete_document_fails in Hc as [e He]. congruence.
Qed.

(** A HAR file in which an entry has no [_initiator], or in which another
    key the sanitizer reads is missing, makes [main] end with the [KeyError]
    of the sanitizer, having written nothing (for a document whose fields
    have the types of the data model). *)
Theorem main_fails_on_incomplete_document (args : Args Path) (w : World)
    (text : string) (input_data : value) :
  read_text env (har_file args) w = inl text ->
  json_loads env text = inl input_data ->
  document_shaped hc input_data = true ->
  document_complete input_data = false ->
  main hc env args w = (w, Some (Sanitizer KeyError)).
Proof.
  intros Hr Hl Hsh Hc. unfold main. rewrite Hr, Hl.
  destruct (incomplete_document_fails input_data Hc) as [e He].
  rewrite He. now rewrite (shaped_only_key_errors hc input_data e Hsh He).
Qed.

End MainProperties.

(** ** The characters of the query *)

Section QueryChars.

Variable hc : host_checks.

(** The query of a URL [mask_query_string] returns is the text [urlencode]
    returned: it holds only ASCII letters and digits, [_], [.], [-], [~],
    [+], [%], [=] and [&], whatever the query of the argument held. *)
Theorem masked_query_chars (url : string) (keys : list string) (u' : value) :
  mask_query_string hc (VStr url) keys = Ok u' ->
  exists p q1,
    urlparse hc url = Ok p /\
    urlencode (mask_params keys (parse_qs (query p))) = Ok q1 /\
    u' = VStr (urlunparse (scheme p) (netloc p) (path p) (params p) q1
                 (fragment p)) /\
    str_forallb is_query_char q1 = true.
Proof.
  cbn [mask_query_string]. unfold mask_url. intros H.
  destruct (urlparse hc url) as [p|]; [|discriminate]. cbn [bind] in H.
  destruct (urlencode (mask_params keys (parse_qs (query p)))) as [q1|] eqn:E;
    [|discriminate].
  cbn [bind] in H. injection H as <-. exists p, q1.
  split; [reflexivity|]. split; [exact E|]. split; [reflexivity|].
  apply urlencode_ok in E as [_ ->]. apply urlencode_chars.
Qed.

End QueryChars.

(** ** Examples *)

Lemma shaped_document_sanitized_iff_complete_witness :
  document_shaped no_host_checks document_without_initiator = true /\
  ((exists data',
      sanitize_har_object no_host_checks document_without_initiator
      = Ok data')
   <-> document_complete document_without_initiator = true) /\
  document_complete surrogate_url_document = true /\
  document_shaped no_host_checks surrogate_url_document = false /\
  sanitize_har_object no_host_checks surrogate_url_document
  = Raise UnicodeEncodeError.
Proof.
  split; [vm_compute; reflexivity|]. split.
  - apply (shaped_document_sanitized_iff_complete no_host_checks).
    vm_compute; reflexivity.
  - repeat split; vm_compute; reflexivity.
Defined.

Lemma only_cookies_added_witness :
  sanitize_entry no_host_checks entry_without_cookies = Ok entry_with_cookies /\
  keys entry_with_cookies = keys entry_without_cookies /\
  exists r r' s s',
    get "request" entry_without_cookies = Some r /\
    get "request" entry_with_cookies = Some r' /\
    keys r' = (keys r ++ cookies_if_absent r)%list /\
    get "response" entry_without_cookies = Some s /\
    get "response" entry_with_cookies = Some s' /\
    keys s' = (keys s ++ cookies_if_absent s)%list.
Proof.
  split; [vm_compute; reflexivity|].
  apply (only_cookies_added no_host_checks). vm_compute; reflexivity.
Defined.

Lemma sanitize_response_idempotent_witness :
  exists r1,
    sanitize_response sample_response = Ok r1 /\
    sanitize_response r1 = Ok r1.
Proof.
  eexists. split; [vm_compute; reflexivity|].
  apply (sanitize_response_idempotent sample_response).
  vm_compute; reflexivity.
Defined.

Lemma sanitize_initiator_changes_url_only_witness :
  exists i',
    sanitize_initiator no_host_checks sample_initiator = Ok i' /\
    keys i' = keys sample_initiator /\
    without ["url"] i' = without ["url"] sample_initiator /\
    match get "url" sample_initiator with
    | Some u =>
        exists u', mask_query_string no_host_checks u SENSITIVE_KEYS = Ok u' /\
                   get "url" i' = Some u'
    | None => i' = sample_initiator
    end.
Proof.
  eexists. split; [vm_compute; reflexivity|].
  apply (sanitize_initiator_changes_url_only no_host_checks).
  vm_compute; reflexivity.
Defined.

Lemma masked_url_components_kept_witness :
  exists u1,
    mask_query_string no_host_checks (VStr sample_url) SENSITIVE_KEYS
    = Ok (VStr u1) /\
    urlparse no_host_checks u1
    = Ok {| scheme := "https"; netloc := "svc"; path := "/path";
            params := "v=1";
            query := "X-Amz-Credential=REDACTED&foo=a+b";
            fragment := "top" |} /\
    urlencode (mask_params SENSITIVE_KEYS
                 (parse_qs "X-Amz-Credential=abc&foo=a%20b"))
    = Ok "X-Amz-Credential=REDACTED&foo=a+b".
Proof.
  apply (masked_url_components_kept no_host_checks sample_url SENSITIVE_KEYS
           {| scheme := "https"; netloc := "svc"; path := "/path";
              params := "v=1"; query := "X-Amz-Credential=abc&foo=a%20b";
              fragment := "top" |}).
  - reflexivity.
  - vm_compute. reflexivity.
  - discriminate.
Defined.

Lemma masked_url_has_no_sensitive_value_witness :
  exists u1 p1,
    mask_query_string no_host_checks (VStr sample_url) SENSITIVE_KEYS
    = Ok (VStr u1) /\
    urlparse no_host_checks u1 = Ok p1 /\
    parse_qs (query p1)
    = mask_params SENSITIVE_KEYS
        (parse_qs "X-Amz-Credential=abc&foo=a%20b") /\
    (forall k vs, In k SENSITIVE_KEYS ->
                  qd_get k (parse_qs (query p1)) = Some vs ->
                  Forall (eq STR_REDACTED) vs) /\
    (forall k, ~ In k SENSITIVE_KEYS ->
               qd_get k (parse_qs (query p1))
               = qd_get k (parse_qs "X-Amz-Credential=abc&foo=a%20b")).
Proof.
  apply (masked_url_has_no_sensitive_value no_host_checks sample_url
           SENSITIVE_KEYS
           {| scheme := "https"; netloc := "svc"; path := "/path";
              params := "v=1"; query := "X-Amz-Credential=abc&foo=a%20b";
              fragment := "top" |}).
  - reflexivity.
  - vm_compute. reflexivity.
  - discriminate.
Defined.

Lemma encoded_name_is_masked_witness :
  urlencode_text (mask_params SENSITIVE_KEYS
                    (parse_qs "X%2DAmz%2DSignature=s3cr3t"))
  = "X-Amz-Signature=REDACTED" /\
  urlencode (mask_params SENSITIVE_KEYS
               (parse_qs "X%2DAmz%2DSignature=s3cr3t"))
  = Ok "X-Amz-Signature=REDACTED".
Proof.
  assert (H : "s3cr3t" <> "") by discriminate.
  assert (Hin : In "X-Amz-Signature" SENSITIVE_KEYS) by (simpl; auto).
  exact (encoded_name_is_masked "X%2DAmz%2DSignature" "s3cr3t"
           "X-Amz-Signature" SENSITIVE_KEYS eq_refl eq_refl eq_refl H
           eq_refl Hin).
Defined.

Lemma result_is_json_iff_urls_are_str_witness :
  sanitize_har_object no_host_checks null_url_document
  = Ok null_url_sanitized /\
  get2 "log" "entries" null_url_sanitized
  = Some (VList
            [VDict [("_initiator", VDict []);
                    ("request",
                     VDict [("url", VBytes ""); ("headers", VList []);
                            ("queryString", VList []);
                            ("cookies", VList [])]);
                    ("response",
                     VDict [("content", VDict [("text", VStr "REDACTED")]);
                            ("cookies", VList [])])]]) /\
  (is_json null_url_sanitized = true
   <-> Forall url_is_str
         [VDict [("_initiator", VDict []);
                 ("request",
                  VDict [("url", VNone); ("headers", VList []);
                         ("queryString", VList [])]);
                 ("response", VDict [("content", VDict [])])]]).
Proof.
  split; [vm_compute; reflexivity|]. split; [reflexivity|].
  apply (result_is_json_iff_urls_are_str no_host_checks null_url_document
           null_url_sanitized (VList _)).
  - reflexivity.
  - vm_compute. reflexivity.
  - reflexivity.
Defined.

Lemma masked_query_is_regrouped_pairs_witness :
  mask_query_string no_host_checks
    (VStr "http://h/p?b=2&X-Amz-Signature=k1&b=3&X-Amz-Signature=k2")
    SENSITIVE_KEYS
  = Ok (VStr "http://h/p?b=2&b=3&X-Amz-Signature=REDACTED&X-Amz-Signature=REDACTED")
  /\
  mask_query_string no_host_checks
    (VStr ("http://h/p?X-Amz-Signature=k1&b=" ++ lone_surrogate))
    SENSITIVE_KEYS
  = Raise UnicodeEncodeError.
Proof.
  split.
  - rewrite (masked_query_is_regrouped_pairs no_host_checks _ SENSITIVE_KEYS
               {| scheme := "http"; netloc := "h"; path := "/p"; params := "";
                  query := "b=2&X-Amz-Signature=k1&b=3&X-Amz-Signature=k2";
                  fragment := "" |});
      vm_compute; reflexivity.
  - rewrite (masked_query_is_regrouped_pairs no_host_checks _ SENSITIVE_KEYS
               {| scheme := "http"; netloc := "h"; path := "/p"; params := "";
                  query := "X-Amz-Signature=k1&b=" ++ lone_surrogate;
                  fragment := "" |});
      vm_compute; reflexivity.
Defined.

Lemma one_bad_entry_fails_document_witness :
  is_ok (sanitize_entry no_host_checks entry_without_optional) = false /\
  is_ok (sanitize_har_object no_host_checks document_without_initiator)
  = false.
Proof.
  split; [vm_compute; reflexivity|].
  apply (one_bad_entry_fails_document no_host_checks
           document_without_initiator
           (VList [full_entry "https://svc/a?X-Amz-Signature=abc";
                   entry_without_optional])
           entry_without_optional).
  - reflexivity.
  - simpl. auto.
  - vm_compute. reflexivity.
Defined.

Lemma empty_entries_identity_witness :
  sanitize_har_object no_host_checks
    (VDict [("log", VDict [("version", VStr "1.2"); ("entries", VList [])])])
  = Ok (VDict [("log", VDict [("version", VStr "1.2");
                              ("entries", VList [])])]).
Proof.
  apply (empty_entries_identity no_host_checks). reflexivity.
Defined.

Lemma main_fails_on_incomplete_document_witness :
  main no_host_checks sample_env {| har_file := "in.har"; output := None |} []
  = ([], Some (Sanitizer KeyError)).
Proof.
  apply (main_fails_on_incomplete_document no_host_checks sample_env
           {| har_file := "in.har"; output := None |} []
           "(text of in.har)" document_without_initiator).
  - reflexivity.
  - reflexivity.
  - vm_compute. reflexivity.
  - vm_compute. reflexivity.
Defined.

Lemma masked_query_chars_witness :
  exists p q1,
    urlparse no_host_checks sample_url = Ok p /\
    urlencode (mask_params SENSITIVE_KEYS (parse_qs (query p))) = Ok q1 /\
    VStr "https://svc/path;v=1?X-Amz-Credential=REDACTED&foo=a+b#top"
    = VStr (urlunparse (scheme p) (netloc p) (path p) (params p) q1
              (fragment p)) /\
    str_forallb is_query_char q1 = true.
Proof.
  apply (masked_query_chars no_host_checks sample_url SENSITIVE_KEYS).
  vm_compute. reflexivity.
Defined.

Lemma mask_query_string_failures_witness :
  mask_query_string no_host_checks (VStr "http://[::1/x?a=1") SENSITIVE_KEYS
  = Raise ValueError /\
  mask_query_string no_host_checks
    (VStr ("https://h/?X-Amz-Signature=k&a=" ++ lone_surrogate))
    SENSITIVE_KEYS
  = Raise UnicodeEncodeError /\
  exists u1,
    mask_query_string no_host_checks
      (VStr ("https://h/?a=1&X-Amz-Signature=" ++ lone_surrogate))
      SENSITIVE_KEYS
    = Ok (VStr u1).
Proof.
  pose proof (mask_query_string_failures no_host_checks "http://[::1/x?a=1"
                SENSITIVE_KEYS) as H1.
  pose proof (mask_query_string_failures no_host_checks
                ("https://h/?X-Amz-Signature=k&a=" ++ lone_surrogate)
                SENSITIVE_KEYS) as H2.
  pose proof (mask_query_string_failures no_host_checks
                ("https://h/?a=1&X-Amz-Signature=" ++ lone_surrogate)
                SENSITIVE_KEYS) as H3.
  split; [exact (proj2 H1)|]. split; [exact H2 | exact H3].
Defined.
